(** * Deep-embedding clustering notebook: autoencoder, trainer, embedding
      extraction and clustering evaluation

    A shallow embedding of [425_project.ipynb].  Python values are modelled as
    follows.

    - Integer arrays (cluster identifiers, true labels) are [list Z].
    - A Python [dict] is an association list in insertion order.
    - Raised exceptions are the [Raise] branch of [Py.result].
    - Python floats ([loss.item()], [total_loss], [avg_loss]) are binary64
      numbers, i.e. Rocq's primitive [float].
    - The network is modelled twice.  For the statements about its shape and
      about the widths of the rows it accepts, the tensors flowing through
      the layers are lists of real numbers ([Nn]).  For the statement about
      the range of the reconstruction they are lists of float32 numbers
      ([Nn32]): IEEE 754 binary32 with NaN, infinities, overflow and
      rounding to nearest even, as [torch.FloatTensor] has them.
    - Calls into torch and scikit-learn whose code is not part of the notebook
      (the optimizer, the loss criterion, the two clusterers, the three
      scorers, the sampler's random permutation) are parameters. *)

From Stdlib Require Import String ZArith List Bool Lia Permutation.
From Stdlib Require Import Uint63 Floats.
From Stdlib Require Import Reals Lra.
Import ListNotations.

Set Implicit Arguments.

(** ** Exceptions *)

Module Py.

Inductive exn : Set :=
| ValueError
| ZeroDivisionError
| RuntimeError.

Inductive result (A : Type) : Type :=
| Ok (a : A)
| Raise (e : exn).

Arguments Ok {A} a.
Arguments Raise {A} e.

Definition bind {A B : Type} (r : result A) (k : A -> result B) : result B :=
  match r with
  | Ok a => k a
  | Raise e => Raise e
  end.

End Py.

Import Py.

Declare Scope py_scope.
Delimit Scope py_scope with py.
Notation "x <- c ;; k" := (Py.bind c (fun x => k))
  (at level 61, c at next level, right associativity) : py_scope.
Notation "' p <- c ;; k" := (Py.bind c (fun p => k))
  (at level 61, p pattern, c at next level, right associativity) : py_scope.
Open Scope py_scope.

(** ** Dictionaries keyed by integers, in insertion order *)

Module Dict.

Definition t (V : Type) : Type := list (Z * V).

Definition keys {V : Type} (d : t V) : list Z := map fst d.

Fixpoint get {V : Type} (d : t V) (k : Z) : option V :=
  match d with
  | [] => None
  | (k', v) :: d' => if Z.eqb k k' then Some v else get d' k
  end.

(** [mapping[k].append(x)] on a [defaultdict(list)]: a missing key is first
    bound to the empty list, at the end of the dictionary. *)
Fixpoint append_to (d : t (list Z)) (k x : Z) : t (list Z) :=
  match d with
  | [] => [(k, [x])]
  | (k', vs) :: d' =>
      if Z.eqb k k' then (k', vs ++ [x]) :: d'
      else (k', vs) :: append_to d' k x
  end.

(** The list bound to a key of a [defaultdict(list)], empty when missing. *)
Definition or_nil (o : option (list Z)) : list Z :=
  match o with
  | Some vs => vs
  | None => []
  end.

End Dict.

(** ** The numpy functions the notebook calls on integer arrays *)

Module Np.

Open Scope Z_scope.

Fixpoint insert_sorted (x : Z) (l : list Z) : list Z :=
  match l with
  | [] => [x]
  | y :: l' =>
      if x <? y then x :: l
      else if x =? y then l
      else y :: insert_sorted x l'
  end.

(** [np.unique(a)]: the sorted distinct values of [a]. *)
Definition unique (a : list Z) : list Z := fold_right insert_sorted [] a.

(** Strictly increasing lists. *)
Fixpoint increasing (l : list Z) : Prop :=
  match l with
  | [] => True
  | x :: l' => (forall y, In y l' -> x < y) /\ increasing l'
  end.

(** Number of bins of [np.bincount(v)]: one more than the largest value,
    none for an empty input. *)
Definition nbins (v : list Z) : nat :=
  match v with
  | [] => O
  | _ :: _ => S (Z.to_nat (fold_right Z.max 0 v))
  end.

(** [np.bincount(v)]: occurrences of each value [0 .. max v]; a negative
    element raises [ValueError]. *)
Definition bincount (v : list Z) : result (list nat) :=
  if forallb (fun x => 0 <=? x) v
  then Ok (map (fun i => count_occ Z.eq_dec v (Z.of_nat i)) (seq 0 (nbins v)))
  else Raise ValueError.

Fixpoint argmax_from (best_i best i : nat) (a : list nat) : nat :=
  match a with
  | [] => best_i
  | x :: a' =>
      if Nat.ltb best x then argmax_from i x (S i) a'
      else argmax_from best_i best (S i) a'
  end.

(** [a.argmax()]: index of the first maximal element; an empty array raises
    [ValueError]. *)
Definition argmax (a : list nat) : result nat :=
  match a with
  | [] => Raise ValueError
  | x :: a' => Ok (argmax_from 0 x 1 a')
  end.

(** [np.vstack] and [np.concatenate] of a list of arrays: an empty list of
    arrays raises [ValueError]. *)
Definition concatenate {A : Type} (arrays : list (list A)) : result (list A) :=
  match arrays with
  | [] => Raise ValueError
  | _ :: _ => Ok (List.concat arrays)
  end.

Definition vstack {A : Type} (arrays : list (list A)) : result (list A) :=
  concatenate arrays.

End Np.

(** ** Cluster-to-label mapping ([calculate_mapping], nested in
       [evaluate_clustering]) *)

Module Mapping.

Open Scope Z_scope.

(** One iteration of the grouping loop: [mapping[cluster].append(label)]. *)
Definition add_pair (mapping : Dict.t (list Z)) (cl : Z * Z)
  : Dict.t (list Z) :=
  Dict.append_to mapping (fst cl) (snd cl).

(** The loop [for cluster, label in zip(cluster_labels, true_labels):
    mapping[cluster].append(label)]. *)
Definition group (cluster_labels true_labels : list Z) : Dict.t (list Z) :=
  fold_left add_pair (combine cluster_labels true_labels) [].

(** [np.bincount(v).argmax()]. *)
Definition bincount_argmax (v : list Z) : result Z :=
  counts <- Np.bincount v ;;
  i <- Np.argmax counts ;;
  Ok (Z.of_nat i).

(** The comprehension [{k: np.bincount(v).argmax() for k, v in items}]. *)
Fixpoint comprehension (items : Dict.t (list Z)) : result (Dict.t Z) :=
  match items with
  | [] => Ok []
  | (k, v) :: rest =>
      x <- bincount_argmax v ;;
      d <- comprehension rest ;;
      Ok ((k, x) :: d)
  end.

Definition calculate_mapping (cluster_labels true_labels : list Z)
  : result (Dict.t Z) :=
  comprehension (group cluster_labels true_labels).

(** The labels paired with key [k] in a list of (cluster, label) pairs. *)
Definition sel (k : Z) (pairs : list (Z * Z)) : list Z :=
  map snd (filter (fun cl => Z.eqb (fst cl) k) pairs).

(** The true labels of the rows assigned to cluster [c], in row order. *)
Definition members (c : Z) (cluster_labels true_labels : list Z) : list Z :=
  sel c (combine cluster_labels true_labels).

(** A dictionary entry after further labels [ms] were appended to it. *)
Definition ext (o : option (list Z)) (ms : list Z) : option (list Z) :=
  match ms with
  | [] => o
  | _ :: _ => Some (Dict.or_nil o ++ ms)
  end.

Definition occurrences (v : list Z) (l : Z) : nat := count_occ Z.eq_dec v l.

End Mapping.

(** ** Data loaders ([torch.utils.data.DataLoader] over a [TensorDataset]) *)

Module Data.

Record DataLoader (X Y : Type) : Type := {
  dataset : list (X * Y);
  batch_size : nat;
  shuffle : bool
}.

(** The batch sampler: indices are appended to the current batch, which is
    yielded once it holds [batch_size] of them; a shorter last batch is
    yielded too ([drop_last] is off). *)
Fixpoint batch_sampler (batch_size : nat) (batch sampler : list nat)
  : list (list nat) :=
  match sampler with
  | [] => match batch with
          | [] => []
          | _ :: _ => [batch]
          end
  | idx :: rest =>
      let batch' := batch ++ [idx] in
      if Nat.eqb (length batch') batch_size
      then batch' :: batch_sampler batch_size [] rest
      else batch_sampler batch_size batch' rest
  end.

(** The order in which one traversal visits the rows: the permutation [perm]
    drawn by the random sampler when [shuffle] is on, the row order
    otherwise. *)
Definition sampler {X Y : Type} (ld : DataLoader X Y) (perm : list nat)
  : list nat :=
  if shuffle ld then perm else seq 0 (length (dataset ld)).

(** The rows at the given indices.  The samplers only yield indices below
    [len(dataset)]; an index outside the dataset contributes no row. *)
Definition fetch {X Y : Type} (ds : list (X * Y)) (idxs : list nat)
  : list (X * Y) :=
  flat_map (fun i => match nth_error ds i with
                     | Some row => [row]
                     | None => []
                     end) idxs.

(** Collation of the fetched rows into a (data, label) pair of arrays. *)
Definition collate {X Y : Type} (rows : list (X * Y)) : list X * list Y :=
  (map fst rows, map snd rows).

(** The batches yielded by [for data, label in loader]. *)
Definition iter {X Y : Type} (ld : DataLoader X Y) (perm : list nat)
  : list (list X * list Y) :=
  map (fun idxs => collate (fetch (dataset ld) idxs))
      (batch_sampler (batch_size ld) [] (sampler ld perm)).

(** [len(loader)]. *)
Definition len {X Y : Type} (ld : DataLoader X Y) : nat :=
  (length (dataset ld) + batch_size ld - 1) / batch_size ld.

(** The rows in the order one traversal visits them. *)
Definition visited {X Y : Type} (ld : DataLoader X Y) (perm : list nat)
  : list (X * Y) :=
  fetch (dataset ld) (sampler ld perm).

(** The checks of [DataLoader.__init__]: the batch sampler wants a positive
    [batch_size], and with [shuffle=True] the random sampler wants a dataset
    that is not empty. *)
Definition buildable {X Y : Type} (ld : DataLoader X Y) : bool :=
  Nat.ltb 0 (batch_size ld)
  && (negb (shuffle ld) || Nat.ltb 0 (length (dataset ld))).

(** [DataLoader(dataset, batch_size=batch_size, shuffle=shuffle)]: raises
    [ValueError] when one of these checks fails. *)
Definition construct {X Y : Type} (dataset : list (X * Y))
                     (batch_size : nat) (shuffle : bool)
  : result (DataLoader X Y) :=
  let ld := {| dataset := dataset; batch_size := batch_size;
               shuffle := shuffle |} in
  if buildable ld then Ok ld else Raise ValueError.

End Data.

(** ** Embedding extraction ([get_embeddings]) *)

Module Extractor.

Section GetEmbeddings.

Variables X Y Recon Latent : Type.

(** [model(data)] on one row, in evaluation mode; the layers of the network
    act on each row of a batch separately. *)
Variable model : X -> Recon * Latent.

(** The second component of [model(data)], row by row. *)
Definition latent_of (x : X) : Latent := snd (model x).

Definition extract_batch (acc : list (list Latent) * list (list Y))
                         (b : list X * list Y)
  : list (list Latent) * list (list Y) :=
  let '(embeddings, labels) := acc in
  let '(data, label) := b in
  let embedding := map latent_of data in
  (embeddings ++ [embedding], labels ++ [label]).

Definition get_embeddings (dataloader : Data.DataLoader X Y) (perm : list nat)
  : result (list Latent * list Y) :=
  let '(embeddings, labels) :=
    fold_left extract_batch (Data.iter dataloader perm) ([], []) in
  E <- Np.vstack embeddings ;;
  L <- Np.concatenate labels ;;
  Ok (E, L).

(** Row [i] of the returned matrix is the encoding of row [i] of the
    loader's dataset. *)
Definition original_row_order (dataloader : Data.DataLoader X Y)
                              (perm : list nat) : Prop :=
  forall E L, get_embeddings dataloader perm = Ok (E, L) ->
  forall i x y, nth_error (Data.dataset dataloader) i = Some (x, y) ->
                nth_error E i = Some (latent_of x).

End GetEmbeddings.

End Extractor.

(** ** Python float arithmetic used by the training loop *)

Module PyFloat.

(** [float(n)] for a non-negative integer [n] (a batch count or a row
    count), through a 63-bit integer: faithful for [n < 2^63]. *)
Definition of_nat (n : nat) : float :=
  PrimFloat.of_uint63 (Uint63.of_Z (Z.of_nat n)).

(** [total / n] for a float [total] and an integer [n]: division by zero
    raises. *)
Definition div_int (total : float) (n : nat) : result float :=
  if Nat.eqb n 0 then Raise ZeroDivisionError
  else Ok (total / of_nat n)%float.

(** Left-to-right accumulation [t = 0; for x in xs: t += x]. *)
Definition sum (xs : list float) : float :=
  fold_left PrimFloat.add xs 0%float.

Definition nonfinite (x : float) : bool := negb (PrimFloat.is_finite x).

(** The same test on the specification-level view of a float. *)
Definition SFnonfinite (s : spec_float) : bool :=
  match s with
  | S754_nan | S754_infinity _ => true
  | _ => false
  end.

(** [0 <= x], which no NaN satisfies. *)
Definition nonneg (x : float) : bool := PrimFloat.leb 0%float x.

(** A finite number that is not below zero. *)
Definition finite_nonneg (x : float) : Prop :=
  PrimFloat.is_finite x = true /\ nonneg x = true.

(** The same tests on the specification-level view of a float. *)
Definition SFnonneg (s : spec_float) : bool :=
  match s with
  | S754_zero _ => true
  | S754_infinity false => true
  | S754_finite false _ _ => true
  | _ => false
  end.

Definition SFpos_finite (s : spec_float) : bool :=
  match s with
  | S754_finite false _ _ => true
  | _ => false
  end.

(** [sys.maxsize]: the largest value [len()] returns. *)
Definition maxsize : Z := 9223372036854775807.

(** The largest finite float32 number, [(2 - 2^-23) * 2^127]. *)
Definition float32_max : float := 0x1.fffffep+127%float.

(** A finite number that [.item()] can return for a float32 tensor: its
    magnitude is at most [float32_max].  No NaN and no infinity passes. *)
Definition finite32 (x : float) : bool :=
  PrimFloat.leb (PrimFloat.abs x) float32_max.

End PyFloat.

(** ** Magnitudes of IEEE 754 numbers *)

Module Ieee.

Open Scope Z_scope.

(** [|x| <= 2^K]: a zero, or a finite number [m * 2^e] with
    [m <= 2^(K - e)]. *)
Definition mag_le (K : Z) (x : spec_float) : bool :=
  match x with
  | S754_zero _ => true
  | S754_finite _ m e => Z.pos m <=? 2 ^ (K - e)
  | _ => false
  end.

(** [2^J <= |x|]: an infinity, or a finite number [m * 2^e] with
    [2^(J - e) <= m]. *)
Definition mag_ge (J : Z) (x : spec_float) : bool :=
  match x with
  | S754_infinity _ => true
  | S754_finite _ m e => 2 ^ (J - e) <=? Z.pos m
  | _ => false
  end.

(** A rounding location saying that less than one half of a unit was cut
    off. *)
Definition below_half (l : location) : bool :=
  match l with
  | loc_Exact | loc_Inexact Lt => true
  | _ => false
  end.

End Ieee.

(** ** The training loop ([train_autoencoder]) *)

Module Trainer.

Section TrainAutoencoder.

Variables X Y : Type.

(** The state the loop mutates: the model's parameters together with the
    optimizer's state. *)
Variable Params : Type.

(** [criterion(model(data)[0], data).item()] at the current parameters. *)
Variable loss_item : Params -> list X -> float.

(** [optimizer.zero_grad(); loss.backward(); optimizer.step()]. *)
Variable optimizer_step : Params -> list X -> Params.

(** The permutation the loader's sampler draws for the traversal of a given
    epoch. *)
Variable randperm : nat -> list nat.

Definition train_batch (st : Params * float) (b : list X * list Y)
  : Params * float :=
  let '(theta, total_loss) := st in
  let data := fst b in
  let loss := loss_item theta data in
  (optimizer_step theta data, (total_loss + loss)%float).

Definition train_epoch (train_loader : Data.DataLoader X Y) (theta : Params)
                       (epoch : nat) : result (Params * float) :=
  let '(theta', total_loss) :=
    fold_left train_batch (Data.iter train_loader (randperm epoch))
              (theta, 0%float) in
  avg_loss <- PyFloat.div_int total_loss (Data.len train_loader) ;;
  Ok (theta', avg_loss).

Fixpoint train_epochs (train_loader : Data.DataLoader X Y)
                      (epochs : list nat) (theta : Params)
                      (losses : list float) : result (Params * list float) :=
  match epochs with
  | [] => Ok (theta, losses)
  | epoch :: rest =>
      ' (theta', avg_loss) <- train_epoch train_loader theta epoch ;;
      train_epochs train_loader rest theta' (losses ++ [avg_loss])
  end.

(** Returns the mutated parameters together with the list [losses]. *)
Definition train_autoencoder (theta : Params)
                             (train_loader : Data.DataLoader X Y)
                             (num_epochs : Z) : result (Params * list float) :=
  train_epochs train_loader (seq 0 (Z.to_nat num_epochs)) theta [].

(** *** Quantities the statements about the loop refer to *)

(** The per-batch losses of one traversal, in order, and the parameters after
    it. *)
Fixpoint batch_losses (theta : Params) (batches : list (list X * list Y))
  : list float :=
  match batches with
  | [] => []
  | b :: rest =>
      loss_item theta (fst b)
      :: batch_losses (optimizer_step theta (fst b)) rest
  end.

Definition step_all (theta : Params) (batches : list (list X * list Y))
  : Params :=
  fold_left (fun th b => optimizer_step th (fst b)) batches theta.

(** The parameters at the start of epoch [e]. *)
Fixpoint params_at (train_loader : Data.DataLoader X Y) (theta : Params)
                   (e : nat) : Params :=
  match e with
  | O => theta
  | S e' =>
      step_all (params_at train_loader theta e')
               (Data.iter train_loader (randperm e'))
  end.

Definition epoch_losses (train_loader : Data.DataLoader X Y) (theta : Params)
                        (e : nat) : list float :=
  batch_losses (params_at train_loader theta e)
               (Data.iter train_loader (randperm e)).

Definition batch_sizes (train_loader : Data.DataLoader X Y) (e : nat)
  : list nat :=
  map (fun b => length (fst b)) (Data.iter train_loader (randperm e)).

(** The batch-size-weighted average of per-batch losses:
    [sum (n_b * loss_b) / sum n_b]. *)
Definition weighted_average (sizes : list nat) (losses : list float) : float :=
  (PyFloat.sum (map (fun sl => PyFloat.of_nat (fst sl) * snd sl)%float
                    (combine sizes losses))
   / PyFloat.of_nat (fold_right Nat.add 0%nat sizes))%float.

(** The mean of the batch losses of epoch [e]: their sum divided by
    [len(train_loader)]. *)
Definition epoch_average (train_loader : Data.DataLoader X Y) (theta : Params)
                         (e : nat) : float :=
  (PyFloat.sum (epoch_losses train_loader theta e)
   / PyFloat.of_nat (Data.len train_loader))%float.

(** *** Candidate properties of a run *)

(** Every recorded value is the batch-size-weighted average of its epoch. *)
Definition records_weighted_average (theta : Params)
                                    (train_loader : Data.DataLoader X Y)
                                    (num_epochs : Z) : Prop :=
  forall theta' losses,
    train_autoencoder theta train_loader num_epochs = Ok (theta', losses) ->
    forall e, e < Z.to_nat num_epochs ->
      nth_error losses e
      = Some (weighted_average (batch_sizes train_loader e)
                               (epoch_losses train_loader theta e)).

(** Some batch of epoch [e] has a loss that is not a finite number. *)
Definition nonfinite_loss_at (theta : Params)
                             (train_loader : Data.DataLoader X Y)
                             (e : nat) : Prop :=
  exists l, In l (epoch_losses train_loader theta e)
            /\ PyFloat.nonfinite l = true.

(** The run is aborted when a loss that is not finite occurs. *)
Definition stops_on_nonfinite (theta : Params)
                              (train_loader : Data.DataLoader X Y)
                              (num_epochs : Z) : Prop :=
  forall e, e < Z.to_nat num_epochs ->
    nonfinite_loss_at theta train_loader e ->
    exists err, train_autoencoder theta train_loader num_epochs = Raise err.

(** The run returns one finite non-negative value per epoch. *)
Definition returns_finite_losses (theta : Params)
                                 (train_loader : Data.DataLoader X Y)
                                 (num_epochs : Z) : Prop :=
  exists theta' losses,
    train_autoencoder theta train_loader num_epochs = Ok (theta', losses) /\
    length losses = Z.to_nat num_epochs /\
    Forall PyFloat.finite_nonneg losses.

End TrainAutoencoder.

End Trainer.

(** ** A small training run used to evaluate the loop

    Rows have a single feature.  The model is the one whose parameters are
    all zero, so that every reconstructed component is [sigmoid 0 = 0.5]; the
    optimizer leaves the parameters as they are, and the state records how
    many optimizer steps were taken. *)

Module Example.

(** [MSELoss] between the constant reconstruction [0.5] and the batch. *)
Definition half_mse (data : list float) : float :=
  (PyFloat.sum (map (fun x => (0.5 - x) * (0.5 - x)) data)
   / PyFloat.of_nat (length data))%float.

Definition loss_item (steps : nat) (data : list float) : float :=
  half_mse data.

Definition optimizer_step (steps : nat) (data : list float) : nat := S steps.

(** The sampler draws the identity permutation of three rows. *)
Definition randperm (epoch : nat) : list nat := [0; 1; 2].

Definition loader (rows : list (float * Z)) : Data.DataLoader float Z :=
  {| Data.dataset := rows; Data.batch_size := 2; Data.shuffle := true |}.

(** Three rows in batches of two: the last batch is smaller. *)
Definition three_rows : list (float * Z) :=
  [(0.5%float, 0%Z); (0.5%float, 0%Z); (1%float, 1%Z)].

(** A split whose second row carries a NaN feature. *)
Definition nan_rows : list (float * Z) :=
  [(0.5%float, 0%Z); (nan, 0%Z); (1%float, 1%Z)].

Definition train (rows : list (float * Z)) (num_epochs : Z)
  : result (nat * list float) :=
  Trainer.train_autoencoder loss_item optimizer_step randperm 0
                            (loader rows) num_epochs.

End Example.

(** ** The network ([class Autoencoder(nn.Module)]) *)

Module Nn.

Open Scope R_scope.

(** The layers the notebook uses.  [Linear] carries its [in_features],
    [out_features], weight matrix (row [j], column [i]) and bias. *)
Inductive Layer : Type :=
| Linear (in_features out_features : nat)
         (weight : nat -> nat -> R) (bias : nat -> R)
| ReLU
| Sigmoid.

(** [nn.Sequential]. *)
Definition Sequential : Type := list Layer.

Definition relu (x : R) : R := Rmax 0 x.

Definition sigmoid (x : R) : R := / (1 + exp (- x)).

Definition dot (w : nat -> R) (x : list R) : R :=
  fold_right Rplus 0
             (map (fun ix => w (fst ix) * snd ix) (combine (seq 0 (length x)) x)).

(** The affine transform [x W^T + b] of a row. *)
Definition affine (out_features : nat) (weight : nat -> nat -> R)
                  (bias : nat -> R) (x : list R) : list R :=
  map (fun j => dot (weight j) x + bias j) (seq 0 out_features).

(** One layer applied to one row.  A [Linear] layer raises on a row whose
    length is not its [in_features]. *)
Definition apply_layer (l : Layer) (x : list R) : result (list R) :=
  match l with
  | Linear in_features out_features weight bias =>
      if Nat.eqb (length x) in_features
      then Ok (affine out_features weight bias x)
      else Raise RuntimeError
  | ReLU => Ok (map relu x)
  | Sigmoid => Ok (map sigmoid x)
  end.

Fixpoint run (s : Sequential) (x : list R) : result (list R) :=
  match s with
  | [] => Ok x
  | l :: s' => y <- apply_layer l x ;; run s' y
  end.

Record Autoencoder : Type := {
  encoder : Sequential;
  decoder : Sequential
}.

(** [Autoencoder.__init__].  [W k] and [b k] are the initial weight and bias
    of the [k]-th linear layer, numbered in the order of creation. *)
Definition init (input_dim encoding_dim latent_dim : nat)
                (W : nat -> nat -> nat -> R) (b : nat -> nat -> R)
  : Autoencoder :=
  {| encoder :=
       [ Linear input_dim encoding_dim (W 0%nat) (b 0%nat);
         ReLU;
         Linear encoding_dim (encoding_dim / 2) (W 1%nat) (b 1%nat);
         ReLU;
         Linear (encoding_dim / 2) latent_dim (W 2%nat) (b 2%nat) ];
     decoder :=
       [ Linear latent_dim (encoding_dim / 2) (W 3%nat) (b 3%nat);
         ReLU;
         Linear (encoding_dim / 2) encoding_dim (W 4%nat) (b 4%nat);
         ReLU;
         Linear encoding_dim input_dim (W 5%nat) (b 5%nat);
         Sigmoid ] |}.

(** The notebook's defaults: [input_dim=784, encoding_dim=128,
    latent_dim=10]. *)
Definition default_input_dim : nat := 784.
Definition default_encoding_dim : nat := 128.
Definition default_latent_dim : nat := 10.

Definition forward (m : Autoencoder) (x : list R)
  : result (list R * list R) :=
  z <- run (encoder m) x ;;
  x_recon <- run (decoder m) z ;;
  Ok (x_recon, z).

Definition encode (m : Autoencoder) (x : list R) : result (list R) :=
  run (encoder m) x.

(** *** Shape of a [Sequential] *)

Definition is_affine (l : Layer) : bool :=
  match l with
  | Linear _ _ _ _ => true
  | _ => false
  end.

Definition is_rectifier (l : Layer) : bool :=
  match l with
  | ReLU => true
  | _ => false
  end.

Definition affine_count (s : Sequential) : nat :=
  length (filter is_affine s).

Definition rectifier_count (s : Sequential) : nat :=
  length (filter is_rectifier s).

(** The widths a row goes through: the input width of the first affine layer
    followed by the output width of every affine layer. *)
Fixpoint out_widths (s : Sequential) : list nat :=
  match s with
  | [] => []
  | Linear _ o _ _ :: s' => o :: out_widths s'
  | _ :: s' => out_widths s'
  end.

Fixpoint widths (s : Sequential) : list nat :=
  match s with
  | [] => []
  | Linear i o _ _ :: s' => i :: o :: out_widths s'
  | _ :: s' => widths s'
  end.

(** The layer kinds, parameters erased. *)
Inductive Kind : Set := KLinear (i o : nat) | KReLU | KSigmoid.

Definition kind (l : Layer) : Kind :=
  match l with
  | Linear i o _ _ => KLinear i o
  | ReLU => KReLU
  | Sigmoid => KSigmoid
  end.

(** An encoder with a single hidden layer: two affine transforms separated
    by one rectifier, taking [input_dim] to [hidden] to [latent_dim]. *)
Definition single_hidden_layer (s : Sequential)
                               (input_dim hidden latent_dim : nat) : Prop :=
  map kind s = [KLinear input_dim hidden; KReLU; KLinear hidden latent_dim]
  /\ affine_count s = 2%nat
  /\ rectifier_count s = 1%nat
  /\ widths s = [input_dim; hidden; latent_dim].

Definition in_unit_interval (y : R) : Prop := 0 <= y <= 1.

Definition zero_weights : nat -> nat -> nat -> R := fun _ _ _ => 0.
Definition zero_biases : nat -> nat -> R := fun _ _ => 0.

End Nn.

(** ** float32 arithmetic ([torch.FloatTensor])

    IEEE 754 binary32: 24 bits of precision, exponents up to 128, rounding
    to nearest even. *)

Module F32.

Open Scope Z_scope.

Definition prec : Z := 24.
Definition emax : Z := 128.

Definition add : spec_float -> spec_float -> spec_float := SFadd prec emax.
Definition mul : spec_float -> spec_float -> spec_float := SFmul prec emax.
Definition div : spec_float -> spec_float -> spec_float := SFdiv prec emax.
Definition neg : spec_float -> spec_float := SFopp.

Definition zero : spec_float := S754_zero false.
Definition one : spec_float := S754_finite false 8388608 (-23).


(** [0 <= x <= 1]; neither NaN nor an infinity passes. *)
Definition in_unit_interval (x : spec_float) : bool :=
  PyFloat.SFnonneg x && Ieee.mag_le 0 x.

End F32.

(** ** The network in float32 arithmetic

    The same class as in [Nn], with float32 parameters and rows.  The
    exponential the sigmoid calls is the library's and is a parameter. *)

Module Nn32.

Inductive Layer : Type :=
| Linear (in_features out_features : nat)
         (weight : nat -> nat -> spec_float) (bias : nat -> spec_float)
| ReLU
| Sigmoid.

Definition Sequential : Type := list Layer.

(** [max(x, 0)], which lets NaN through. *)
Definition relu (x : spec_float) : spec_float :=
  match x with
  | S754_nan => S754_nan
  | S754_infinity false | S754_finite false _ _ => x
  | _ => F32.zero
  end.

(** The products [w_i * x_i] accumulated from the left.  The order in which
    the library accumulates them is its own; no statement below depends on
    it. *)
Definition dot (w : nat -> spec_float) (x : list spec_float) : spec_float :=
  fold_left (fun acc ix => F32.add acc (F32.mul (w (fst ix)) (snd ix)))
            (combine (seq 0 (length x)) x) F32.zero.

(** The affine transform [x W^T + b] of a row. *)
Definition affine (out_features : nat) (weight : nat -> nat -> spec_float)
                  (bias : nat -> spec_float) (x : list spec_float)
  : list spec_float :=
  map (fun j => F32.add (dot (weight j) x) (bias j)) (seq 0 out_features).

Record Autoencoder : Type := {
  encoder : Sequential;
  decoder : Sequential
}.

(** [Autoencoder.__init__], as in [Nn.init]. *)
Definition init (input_dim encoding_dim latent_dim : nat)
                (W : nat -> nat -> nat -> spec_float)
                (b : nat -> nat -> spec_float)
  : Autoencoder :=
  {| encoder :=
       [ Linear input_dim encoding_dim (W 0%nat) (b 0%nat);
         ReLU;
         Linear encoding_dim (encoding_dim / 2) (W 1%nat) (b 1%nat);
         ReLU;
         Linear (encoding_dim / 2) latent_dim (W 2%nat) (b 2%nat) ];
     decoder :=
       [ Linear latent_dim (encoding_dim / 2) (W 3%nat) (b 3%nat);
         ReLU;
         Linear (encoding_dim / 2) encoding_dim (W 4%nat) (b 4%nat);
         ReLU;
         Linear encoding_dim input_dim (W 5%nat) (b 5%nat);
         Sigmoid ] |}.

Section Forward.

(** [exp] on float32 numbers. *)
Variable exp : spec_float -> spec_float.

(** [1 / (1 + exp(-x))]. *)
Definition sigmoid (x : spec_float) : spec_float :=
  F32.div F32.one (F32.add F32.one (exp (F32.neg x))).

Definition apply_layer (l : Layer) (x : list spec_float)
  : result (list spec_float) :=
  match l with
  | Linear in_features out_features weight bias =>
      if Nat.eqb (length x) in_features
      then Ok (affine out_features weight bias x)
      else Raise RuntimeError
  | ReLU => Ok (map relu x)
  | Sigmoid => Ok (map sigmoid x)
  end.

Fixpoint run (s : Sequential) (x : list spec_float)
  : result (list spec_float) :=
  match s with
  | [] => Ok x
  | l :: s' => y <- apply_layer l x ;; run s' y
  end.

Definition forward (m : Autoencoder) (x : list spec_float)
  : result (list spec_float * list spec_float) :=
  z <- run (encoder m) x ;;
  x_recon <- run (decoder m) z ;;
  Ok (x_recon, z).




End Forward.


Definition zero_weights : nat -> nat -> nat -> spec_float :=
  fun _ _ _ => F32.zero.
Definition zero_biases : nat -> nat -> spec_float := fun _ _ => F32.zero.


End Nn32.

(** ** Clustering evaluation ([evaluate_clustering]) *)

Module Evaluator.

Open Scope Z_scope.

(** The check every scikit-learn scorer used here performs on its labels
    ([check_number_of_labels]): the number of distinct labels must lie between
    [2] and [n_samples - 1]. *)
Definition check_number_of_labels (n_labels n_samples : nat) : bool :=
  Nat.ltb 1 n_labels && Nat.ltb n_labels n_samples.

(** At least two distinct cluster identifiers occur in an assignment. *)
Definition two_distinct (labels : list Z) : Prop :=
  exists a b : Z, In a labels /\ In b labels /\ a <> b.

Section EvaluateClustering.

(** Rows of the embedding matrix, and the scores the metric functions
    return. *)
Variables V Score : Type.

(** [KMeans(n_clusters=n_clusters, random_state=42, n_init=10).fit_predict]
    and [DBSCAN(eps=3, min_samples=5).fit_predict]. *)
Variable KMeans_fit_predict : Z -> list V -> result (list Z).
Variable DBSCAN_fit_predict : list V -> result (list Z).

Variables silhouette_score davies_bouldin_score calinski_harabasz_score
  : list V -> list Z -> result Score.

Definition Metrics : Type := list (string * Score).

Record Results : Type := {
  kmeans_labels : list Z;
  kmeans_metrics : Metrics;
  kmeans_mapping : Dict.t Z;
  dbscan_labels : list Z;
  dbscan_metrics : Metrics
}.

(** The three-entry dictionary literal built from the scorers. *)
Definition metrics_of (embeddings : list V) (labels : list Z)
  : result Metrics :=
  s <- silhouette_score embeddings labels ;;
  d <- davies_bouldin_score embeddings labels ;;
  c <- calinski_harabasz_score embeddings labels ;;
  Ok [("silhouette"%string, s); ("davies_bouldin"%string, d);
      ("calinski_harabasz"%string, c)].

Definition evaluate_clustering (embeddings : list V) (true_labels : list Z)
                               (n_clusters : Z) : result Results :=
  kmeans_labels <- KMeans_fit_predict n_clusters embeddings ;;
  dbscan_labels <- DBSCAN_fit_predict embeddings ;;
  kmeans_metrics <- metrics_of embeddings kmeans_labels ;;
  dbscan_metrics <-
    (if Nat.ltb 1 (length (Np.unique dbscan_labels))
     then metrics_of embeddings dbscan_labels
     else Ok []) ;;
  kmeans_mapping <- Mapping.calculate_mapping kmeans_labels true_labels ;;
  Ok {| kmeans_labels := kmeans_labels;
        kmeans_metrics := kmeans_metrics;
        kmeans_mapping := kmeans_mapping;
        dbscan_labels := dbscan_labels;
        dbscan_metrics := dbscan_metrics |}.

(** *** Candidate properties of the evaluator *)

(** In a returned result, each metrics dictionary is filled exactly when its
    assignment holds two distinct identifiers. *)
Definition metrics_iff_two_distinct (embeddings : list V)
                                    (true_labels : list Z)
                                    (n_clusters : Z) : Prop :=
  forall r, evaluate_clustering embeddings true_labels n_clusters = Ok r ->
    (kmeans_metrics r <> [] <-> two_distinct (kmeans_labels r)) /\
    (dbscan_metrics r <> [] <-> two_distinct (dbscan_labels r)).

(** A degenerate density-based assignment is returned with empty metrics and
    without error. *)
Definition omits_degenerate_metrics (embeddings : list V)
                                    (true_labels : list Z)
                                    (n_clusters : Z) : Prop :=
  forall dl, DBSCAN_fit_predict embeddings = Ok dl -> ~ two_distinct dl ->
    exists r, evaluate_clustering embeddings true_labels n_clusters = Ok r /\
              dbscan_metrics r = [] /\ dbscan_labels r = dl.

End EvaluateClustering.

Definition default_n_clusters : Z := 10.

(** What k-means returns when a single cluster is requested: every row is in
    cluster 0. *)
Definition kmeans_one_cluster {V : Type} (n_clusters : Z)
                              (embeddings : list V) : result (list Z) :=
  Ok (map (fun _ => 0) embeddings).

(** What k-means returns on three distinct rows when two clusters are
    requested and the first two rows are the closest pair. *)
Definition kmeans_two_clusters {V : Type} (n_clusters : Z)
                               (embeddings : list V) : result (list Z) :=
  Ok [0; 0; 1].

(** What the density-based clusterer returns when no row has [min_samples]
    neighbours within [eps]: every row is noise. *)
Definition dbscan_all_noise {V : Type} (embeddings : list V)
  : result (list Z) :=
  Ok (map (fun _ => -1) embeddings).

(** A scorer that behaves as the library documents on its label check and
    returns the given score otherwise. *)
Definition checked_scorer {V Score : Type} (score : Score)
                          (embeddings : list V) (labels : list Z)
  : result Score :=
  if check_number_of_labels (length (Np.unique labels)) (length embeddings)
  then Ok score
  else Raise ValueError.

End Evaluator.

(** ** The loaders and the model the notebook builds *)

Module Notebook.

(** [DataLoader(train_dataset, batch_size=256, shuffle=True)]. *)
Definition train_loader {X Y : Type} (train_dataset : list (X * Y))
  : Data.DataLoader X Y :=
  {| Data.dataset := train_dataset;
     Data.batch_size := 256;
     Data.shuffle := true |}.

(** [DataLoader(test_dataset, batch_size=256, shuffle=False)]. *)
Definition test_loader {X Y : Type} (test_dataset : list (X * Y))
  : Data.DataLoader X Y :=
  {| Data.dataset := test_dataset;
     Data.batch_size := 256;
     Data.shuffle := false |}.

(** [Autoencoder(input_dim=input_dim, latent_dim=latent_dim)] with
    [latent_dim = 10]; [encoding_dim] keeps its default. *)
Definition model (input_dim : nat) (W : nat -> nat -> nat -> R)
                 (b : nat -> nat -> R) : Nn.Autoencoder :=
  Nn.init input_dim Nn.default_encoding_dim 10 W b.

(** [num_epochs=30], the default of [train_autoencoder]. *)
Definition default_num_epochs : Z := 30.

End Notebook.

(** ** Data preparation ([prepare_data]) *)

Module Prepare.

Open Scope R_scope.

(** [np.array(img)]: a two-dimensional array of pixel intensities, as its
    list of rows. *)
Definition Image : Type := list (list Z).

(** One split of the dataset: the ['image'] and ['label'] columns. *)
Record Split : Type := {
  image : list Image;
  label : list Z
}.

Record Dataset : Type := {
  train : Split;
  test : Split
}.

(** The slice [l[:n]]: the first [n] elements, or all but the last [-n] when
    [n] is negative. *)
Definition slice_to {A : Type} (n : Z) (l : list A) : list A :=
  if (0 <=? n)%Z then firstn (Z.to_nat n) l
  else firstn (length l - Z.to_nat (- n)) l.

Definition shape2 (img : Image) : nat * nat :=
  (length img, match img with
               | [] => O
               | row :: _ => length row
               end).

Definition same_shape (a b : Image) : bool :=
  Nat.eqb (fst (shape2 a)) (fst (shape2 b))
  && Nat.eqb (snd (shape2 a)) (snd (shape2 b)).

(** [np.array([np.array(img) for img in images])]: images of different
    shapes cannot be stacked. *)
Definition np_array (images : list Image) : result (list Image) :=
  match images with
  | [] => Ok []
  | first :: rest =>
      if forallb (same_shape first) rest then Ok images
      else Raise ValueError
  end.

(** [a.reshape(a.shape[0], -1)]: every image is flattened row after row;
    with no image at all the free dimension cannot be inferred and the call
    raises. *)
Definition reshape_rows (a : list Image) : result (list (list Z)) :=
  match a with
  | [] => Raise ValueError
  | _ :: _ => Ok (map (@concat Z) a)
  end.

(** [rows / 255.0]. *)
Definition normalize (rows : list (list Z)) : list (list R) :=
  map (map (fun p => IZR p / 255)) rows.

Record Prepared : Type := {
  train_images : list (list R);
  train_labels : list Z;
  test_images : list (list R);
  test_labels : list Z
}.

Definition prepare_data (dataset : Dataset) (num_samples test_samples : Z)
  : result Prepared :=
  let train_images := slice_to num_samples (image (train dataset)) in
  let train_labels := slice_to num_samples (label (train dataset)) in
  let test_images := slice_to test_samples (image (test dataset)) in
  let test_labels := slice_to test_samples (label (test dataset)) in
  train_images_np <- np_array train_images ;;
  test_images_np <- np_array test_images ;;
  train_rows <- reshape_rows train_images_np ;;
  test_rows <- reshape_rows test_images_np ;;
  Ok {| train_images := normalize train_rows;
        train_labels := train_labels;
        test_images := normalize test_rows;
        test_labels := test_labels |}.

(** The defaults [num_samples=10000, test_samples=2000]. *)
Definition default_num_samples : Z := 10000.
Definition default_test_samples : Z := 2000.

(** [a.shape[1]] of a two-dimensional array with at least one row. *)
Definition shape1 {A : Type} (rows : list (list A)) : nat :=
  match rows with
  | [] => O
  | row :: _ => length row
  end.

(** An image whose rows all have [w] pixels in the 8-bit range. *)
Definition well_formed (h w : nat) (img : Image) : Prop :=
  length img = h /\
  Forall (fun row => length row = w
                     /\ Forall (fun p => (0 <= p <= 255)%Z) row) img.

(** A small dataset of 2 x 2 images, used to evaluate [prepare_data]. *)
Definition tiny : Dataset :=
  {| train := {| image := [ [[0; 255]; [51; 102]]; [[255; 0]; [0; 0]];
                            [[1; 2]; [3; 4]] ]%Z;
                 label := [7; 3; 7]%Z |};
     test := {| image := [ [[10; 20]; [30; 40]] ]%Z;
                label := [1]%Z |} |}.

(** What [prepare_data(tiny, 2, 1)] returns. *)
Definition tiny_prepared : Prepared :=
  {| train_images :=
       normalize [[0; 255; 51; 102]; [255; 0; 0; 0]]%Z;
     train_labels := [7; 3]%Z;
     test_images := normalize [[10; 20; 30; 40]]%Z;
     test_labels := [1]%Z |}.

(** The same dataset with a test image of another size. *)
Definition tiny_mismatched : Dataset :=
  {| train := train tiny;
     test := {| image := [ [[10; 20; 30]] ]%Z; label := [1]%Z |} |}.

Definition tiny_mismatched_prepared : Prepared :=
  {| train_images :=
       normalize [[0; 255; 51; 102]; [255; 0; 0; 0]]%Z;
     train_labels := [7; 3]%Z;
     test_images := normalize [[10; 20; 30]]%Z;
     test_labels := [1]%Z |}.

End Prepare.

(** ** Reporting ([print_metrics]) *)

Module Report.

Import Ascii.
Open Scope string_scope.

Definition is_upper (c : Ascii.ascii) : bool :=
  Nat.leb 65 (Ascii.nat_of_ascii c) && Nat.leb (Ascii.nat_of_ascii c) 90.

Definition is_lower (c : Ascii.ascii) : bool :=
  Nat.leb 97 (Ascii.nat_of_ascii c) && Nat.leb (Ascii.nat_of_ascii c) 122.

Definition upper (c : Ascii.ascii) : Ascii.ascii :=
  if is_lower c then Ascii.ascii_of_nat (Ascii.nat_of_ascii c - 32) else c.

Definition lower (c : Ascii.ascii) : Ascii.ascii :=
  if is_upper c then Ascii.ascii_of_nat (Ascii.nat_of_ascii c + 32) else c.

(** [s.replace('_', ' ')]. *)
Fixpoint replace_underscore (s : string) : string :=
  match s with
  | EmptyString => EmptyString
  | String c s' =>
      String (if Ascii.eqb c "_"%char then " "%char else c)
             (replace_underscore s')
  end.

(** [s.title()] on ASCII text: a letter that follows a letter is lowered,
    any other letter is raised, other characters are kept. *)
Fixpoint title_from (previous_is_cased : bool) (s : string) : string :=
  match s with
  | EmptyString => EmptyString
  | String c s' =>
      if is_upper c || is_lower c
      then String (if previous_is_cased then lower c else upper c)
                  (title_from true s')
      else String c (title_from false s')
  end.

Definition title (s : string) : string := title_from false s.

Definition newline : string := String (Ascii.ascii_of_nat 10) EmptyString.

Section PrintMetrics.

Variable Score : Type.

(** The rendering [f"{value:.4f}"] of a score. *)
Variable format_4f : Score -> string.

(** One line per metric: [f"{metric.replace('_', ' ').title()}: {value:.4f}"]. *)
Definition metric_line (entry : string * Score) : string :=
  title (replace_underscore (fst entry)) ++ ": " ++ format_4f (snd entry).

(** The strings printed, one per call of [print]. *)
Definition print_metrics (results : Evaluator.Results Score)
                         (set_name : string) : list string :=
  [newline ++ set_name ++ " Set Metrics:"; "K-Means:"]
  ++ map metric_line (Evaluator.kmeans_metrics results)
  ++ match Evaluator.dbscan_metrics results with
     | _ :: _ =>
         (newline ++ "DBSCAN:")
         :: map metric_line (Evaluator.dbscan_metrics results)
     | [] => [newline ++ "DBSCAN: Only one cluster found"]
     end.

End PrintMetrics.

End Report.

(** ** What a lookup in the cluster-to-label mapping returns *)

Module Vote.

(** The value bound to a cluster whose rows carry the labels [ms]: nothing
    for a cluster without rows, otherwise [np.bincount(ms).argmax()]. *)
Definition vote (ms : list Z) : option Z :=
  match ms with
  | [] => None
  | _ :: _ =>
      match Mapping.bincount_argmax ms with
      | Ok v => Some v
      | Raise _ => None
      end
  end.

(** The (cluster, label) pairs the grouping loop iterates over. *)
Definition zipped (cluster_labels true_labels : list Z) : list (Z * Z) :=
  combine cluster_labels true_labels.

End Vote.

(* ===================================================================== *)
(** * Properties *)
(* ===================================================================== *)

Unset Implicit Arguments.

(** ** Error-monad inversion *)

Lemma bind_ok_inv (A B : Type) (r : result A) (k : A -> result B) (b : B) :
  Py.bind r k = Ok b -> exists a, r = Ok a /\ k a = Ok b.
Proof. destruct r as [a|e]; simpl; intros H; [eauto | discriminate]. Qed.

Lemma bind_ok (A B : Type) (r : result A) (k : A -> result B) (a : A) :
  r = Ok a -> Py.bind r k = k a.
Proof. intros ->. reflexivity. Qed.

Lemma bind_raise (A B : Type) (r : result A) (k : A -> result B) (e : exn) :
  r = Raise e -> Py.bind r k = Raise e.
Proof. intros ->. reflexivity. Qed.

Ltac inv_bind H :=
  let a := fresh "a" in
  let Ha := fresh "Ha" in
  apply bind_ok_inv in H; destruct H as (a & Ha & H).

(** ** Dictionaries *)

Module DictFacts.

Open Scope Z_scope.

Lemma get_append_to (d : Dict.t (list Z)) (k x k' : Z) :
  Dict.get (Dict.append_to d k x) k'
  = if k' =? k then Some (Dict.or_nil (Dict.get d k) ++ [x]) else Dict.get d k'.
Proof.
  induction d as [|[k0 vs] d IH]; simpl.
  - destruct (k' =? k); reflexivity.
  - destruct (k =? k0) eqn:Ek; simpl.
    + apply Z.eqb_eq in Ek. subst k0.
      destruct (k' =? k); reflexivity.
    + destruct (k' =? k0) eqn:Ek'.
      * apply Z.eqb_eq in Ek'. subst k0.
        rewrite Z.eqb_sym in Ek. rewrite Ek. reflexivity.
      * exact IH.
Qed.

Lemma keys_append_to (d : Dict.t (list Z)) (k x k' : Z) :
  In k' (Dict.keys (Dict.append_to d k x)) <-> k' = k \/ In k' (Dict.keys d).
Proof.
  induction d as [|[k0 vs] d IH]; simpl.
  - intuition.
  - destruct (k =? k0) eqn:Ek; simpl.
    + apply Z.eqb_eq in Ek. subst k0. intuition.
    + rewrite IH. intuition.
Qed.

Lemma nodup_append_to (d : Dict.t (list Z)) (k x : Z) :
  NoDup (Dict.keys d) -> NoDup (Dict.keys (Dict.append_to d k x)).
Proof.
  induction d as [|[k0 vs] d IH]; simpl; intros Hnd.
  - constructor; [intros [] | constructor].
  - inversion Hnd as [|? ? Hnotin Hnd']; subst.
    destruct (k =? k0) eqn:Ek; simpl.
    + constructor; assumption.
    + constructor; [|auto].
      intros Hin. apply keys_append_to in Hin. destruct Hin as [->|Hin].
      * rewrite Z.eqb_refl in Ek. discriminate.
      * contradiction.
Qed.

Lemma get_some_in_keys (V : Type) (d : Dict.t V) (k : Z) (v : V) :
  Dict.get d k = Some v -> In k (Dict.keys d).
Proof.
  induction d as [|[k0 v0] d IH]; simpl; [discriminate|].
  destruct (k =? k0) eqn:Ek.
  - apply Z.eqb_eq in Ek. auto.
  - auto.
Qed.

Lemma in_keys_get_some (V : Type) (d : Dict.t V) (k : Z) :
  In k (Dict.keys d) -> exists v, Dict.get d k = Some v.
Proof.
  induction d as [|[k0 v0] d IH]; simpl; [intros []|].
  intros [->|Hin].
  - rewrite Z.eqb_refl. eauto.
  - destruct (k =? k0); eauto.
Qed.

End DictFacts.

(** ** numpy helpers *)

Module NpFacts.

Open Scope Z_scope.

Lemma in_insert_sorted (x y : Z) (l : list Z) :
  In y (Np.insert_sorted x l) <-> y = x \/ In y l.
Proof.
  induction l as [|z l IH]; simpl.
  - intuition.
  - destruct (x <? z) eqn:Elt; simpl; [intuition|].
    destruct (x =? z) eqn:Eeq; simpl.
    + apply Z.eqb_eq in Eeq. subst z. intuition.
    + rewrite IH. intuition.
Qed.

Lemma in_unique (a : list Z) (y : Z) : In y (Np.unique a) <-> In y a.
Proof.
  induction a as [|x a IH]; simpl; [tauto|].
  unfold Np.unique in *. simpl. rewrite in_insert_sorted, IH. intuition.
Qed.

Lemma increasing_insert_sorted (x : Z) (l : list Z) :
  Np.increasing l -> Np.increasing (Np.insert_sorted x l).
Proof.
  induction l as [|z l IH]; simpl; intros Hinc.
  - split; [intros y []|exact I].
  - destruct Hinc as [Hz Hinc].
    destruct (x <? z) eqn:Elt.
    + apply Z.ltb_lt in Elt. simpl. split; [|split; assumption].
      intros y [<-|Hy]; [lia|]. specialize (Hz y Hy). lia.
    + destruct (x =? z) eqn:Eeq; simpl; [split; assumption|].
      apply Z.ltb_ge in Elt. apply Z.eqb_neq in Eeq.
      split; [|auto].
      intros y Hy. apply in_insert_sorted in Hy. destruct Hy as [->|Hy].
      * lia.
      * auto.
Qed.

Lemma increasing_unique (a : list Z) : Np.increasing (Np.unique a).
Proof.
  induction a as [|x a IH]; simpl; [exact I|].
  apply increasing_insert_sorted. exact IH.
Qed.

(** [len(np.unique(a)) > 1] says exactly that two distinct values occur. *)
Lemma unique_gt_1 (a : list Z) :
  (1 < length (Np.unique a))%nat
  <-> exists x y, In x a /\ In y a /\ x <> y.
Proof.
  pose proof (increasing_unique a) as Hinc.
  pose proof (in_unique a) as Hin.
  destruct (Np.unique a) as [|u [|w l]] eqn:Eu; simpl in *.
  - split; [lia|]. intros (x & y & Hx & _). apply Hin in Hx. destruct Hx.
  - split; [lia|]. intros (x & y & Hx & Hy & Hne).
    apply Hin in Hx. apply Hin in Hy. intuition congruence.
  - split; [|lia]. intros _. exists u, w.
    destruct Hinc as [Hu _]. specialize (Hu w (or_introl eq_refl)).
    repeat split; [apply Hin; auto | apply Hin; auto | lia].
Qed.

Lemma unique_le_1 (a : list Z) :
  Nat.ltb 1 (length (Np.unique a)) = false
  <-> forall x y, In x a -> In y a -> x = y.
Proof.
  rewrite Nat.ltb_ge. split.
  - intros Hle x y Hx Hy. destruct (Z.eq_dec x y) as [|Hne]; [assumption|].
    assert (1 < length (Np.unique a))%nat by (apply unique_gt_1; eauto).
    lia.
  - intros Hall.
    destruct (Nat.le_gt_cases (length (Np.unique a)) 1) as [|Hgt];
      [assumption|].
    apply unique_gt_1 in Hgt. destruct Hgt as (x & y & Hx & Hy & Hne).
    elim Hne. auto.
Qed.

(** *** [argmax] *)

Lemma argmax_from_spec (suf pre : list nat) (best_i best : nat) :
  (best_i < length pre)%nat ->
  nth best_i pre O = best ->
  (forall j, j < length pre -> nth j pre O <= best)%nat ->
  (forall j, j < best_i -> nth j pre O < best)%nat ->
  let r := Np.argmax_from best_i best (length pre) suf in
  (r < length (pre ++ suf))%nat /\
  (forall j, j < length (pre ++ suf) ->
             nth j (pre ++ suf) O <= nth r (pre ++ suf) O)%nat /\
  (forall j, j < r -> nth j (pre ++ suf) O < nth r (pre ++ suf) O)%nat.
Proof.
  revert pre best_i best.
  induction suf as [|x suf IH]; intros pre best_i best Hlt Hnth Hmax Hfirst;
    simpl.
  - rewrite app_nil_r. subst best. auto.
  - assert (Hlen : length (pre ++ [x]) = S (length pre))
      by (rewrite length_app; simpl; lia).
    assert (Hx : nth (length pre) (pre ++ [x]) O = x)
      by (rewrite app_nth2 by lia; rewrite Nat.sub_diag; reflexivity).
    assert (Hold : forall j, (j < length pre)%nat ->
                             nth j (pre ++ [x]) O = nth j pre O)
      by (intros j Hj; apply app_nth1; exact Hj).
    replace (pre ++ x :: suf) with ((pre ++ [x]) ++ suf)
      by (rewrite <- app_assoc; reflexivity).
    destruct (Nat.ltb best x) eqn:Ebx.
    + apply Nat.ltb_lt in Ebx.
      pose proof (IH (pre ++ [x]) (length pre) x) as IH'.
      rewrite Hlen in IH'. apply IH'.
      * lia.
      * exact Hx.
      * intros j Hj.
        destruct (Nat.eq_dec j (length pre)) as [->|Hne].
        -- rewrite Hx. lia.
        -- rewrite Hold by lia. specialize (Hmax j). lia.
      * intros j Hj. rewrite Hold by lia. specialize (Hmax j). lia.
    + apply Nat.ltb_ge in Ebx.
      pose proof (IH (pre ++ [x]) best_i best) as IH'.
      rewrite Hlen in IH'. apply IH'.
      * lia.
      * rewrite Hold by lia. exact Hnth.
      * intros j Hj.
        destruct (Nat.eq_dec j (length pre)) as [->|Hne].
        -- rewrite Hx. lia.
        -- rewrite Hold by lia. apply Hmax. lia.
      * intros j Hj. rewrite Hold by lia. apply Hfirst. exact Hj.
Qed.

Lemma argmax_spec (a : list nat) :
  a <> [] ->
  exists r, Np.argmax a = Ok r /\
    (r < length a)%nat /\
    (forall j, j < length a -> nth j a O <= nth r a O)%nat /\
    (forall j, j < r -> nth j a O < nth r a O)%nat.
Proof.
  destruct a as [|x a]; [congruence|]. intros _.
  exists (Np.argmax_from 0 x 1 a). split; [reflexivity|].
  apply (argmax_from_spec a [x] 0%nat x); simpl.
  - lia.
  - reflexivity.
  - intros [|j] Hj; [lia|lia].
  - intros j Hj. lia.
Qed.

End NpFacts.

(** ** [np.bincount(v).argmax()] is the lowest most frequent value *)

Module MajorityFacts.

Import Mapping.
Open Scope Z_scope.

Lemma nth_map_seq (A : Type) (f : nat -> A) (n j : nat) (d : A) :
  (j < n)%nat -> nth j (map f (seq 0 n)) d = f j.
Proof.
  intros Hj.
  rewrite (nth_indep _ d (f O)) by (rewrite length_map, length_seq; exact Hj).
  rewrite map_nth. rewrite seq_nth by exact Hj. reflexivity.
Qed.

Lemma le_fold_max (v : list Z) (x : Z) :
  In x v -> x <= fold_right Z.max 0 v.
Proof.
  induction v as [|y v IH]; simpl; [intros []|].
  intros [->|Hin]; [lia|]. specialize (IH Hin). lia.
Qed.

Lemma in_bins (v : list Z) (x : Z) :
  Forall (fun l => 0 <= l) v -> In x v ->
  (Z.to_nat x < Np.nbins v)%nat /\ Z.of_nat (Z.to_nat x) = x.
Proof.
  intros Hpos Hin.
  assert (0 <= x) by (rewrite Forall_forall in Hpos; auto).
  pose proof (le_fold_max v x Hin).
  destruct v as [|y v]; [destruct Hin|].
  unfold Np.nbins. split; lia.
Qed.

Lemma forallb_nonneg (v : list Z) :
  forallb (fun x => 0 <=? x) v = true <-> Forall (fun l => 0 <= l) v.
Proof.
  rewrite forallb_forall, Forall_forall.
  split; intros H x Hx; specialize (H x Hx); lia.
Qed.

Lemma bincount_negative (v : list Z) (l : Z) :
  In l v -> l < 0 -> Np.bincount v = Raise ValueError.
Proof.
  intros Hin Hneg. unfold Np.bincount.
  destruct (forallb (fun x => 0 <=? x) v) eqn:E; [|reflexivity].
  apply forallb_nonneg in E. rewrite Forall_forall in E.
  specialize (E l Hin). lia.
Qed.

Lemma bincount_argmax_raises_value_error (v : list Z) (e : exn) :
  bincount_argmax v = Raise e -> e = ValueError.
Proof.
  unfold bincount_argmax, Np.bincount.
  destruct (forallb (fun x => 0 <=? x) v); simpl.
  - destruct (map _ _) as [|c cs]; simpl; congruence.
  - congruence.
Qed.

Lemma bincount_argmax_spec (v : list Z) :
  v <> [] -> Forall (fun l => 0 <= l) v ->
  exists x, bincount_argmax v = Ok x /\
    In x v /\
    (forall l, occurrences v l <= occurrences v x)%nat /\
    (forall l, occurrences v l = occurrences v x -> x <= l).
Proof.
  intros Hne Hpos. unfold bincount_argmax, Np.bincount.
  rewrite (proj2 (forallb_nonneg v) Hpos). simpl.
  set (counts := map (fun i => count_occ Z.eq_dec v (Z.of_nat i))
                     (seq 0 (Np.nbins v))).
  assert (Hlen : length counts = Np.nbins v)
    by (unfold counts; rewrite length_map, length_seq; reflexivity).
  assert (Hnth : forall j, (j < Np.nbins v)%nat ->
                           nth j counts O = occurrences v (Z.of_nat j))
    by (intros j Hj; unfold counts; apply nth_map_seq; exact Hj).
  assert (Hcne : counts <> []).
  { destruct v as [|y v]; [congruence|].
    intros Hc. apply (f_equal (@length nat)) in Hc.
    rewrite Hlen in Hc. simpl in Hc. discriminate. }
  destruct (NpFacts.argmax_spec counts Hcne) as (r & Hr & Hrlt & Hmax & Hfirst).
  rewrite Hr. simpl. exists (Z.of_nat r).
  rewrite Hlen in Hrlt, Hmax.
  assert (Hle : forall l, (occurrences v l <= occurrences v (Z.of_nat r))%nat).
  { intros l. destruct (in_dec Z.eq_dec l v) as [Hin|Hnin].
    - destruct (in_bins v l Hpos Hin) as [Hb Hid].
      specialize (Hmax _ Hb). rewrite !Hnth in Hmax by assumption.
      rewrite Hid in Hmax. exact Hmax.
    - unfold occurrences at 1.
      rewrite (proj1 (count_occ_not_In Z.eq_dec v l) Hnin). lia. }
  assert (Hone : (1 <= occurrences v (Z.of_nat r))%nat).
  { destruct v as [|y v]; [congruence|].
    specialize (Hle y).
    assert (occurrences (y :: v) y > 0)%nat
      by (apply count_occ_In; left; reflexivity).
    lia. }
  split; [reflexivity|]. split; [|split].
  - apply (count_occ_In Z.eq_dec). unfold occurrences in Hone. lia.
  - exact Hle.
  - intros l Heq.
    assert (Hin : In l v).
    { apply (count_occ_In Z.eq_dec). unfold occurrences in *. lia. }
    destruct (in_bins v l Hpos Hin) as [Hb Hid].
    destruct (Nat.lt_ge_cases (Z.to_nat l) r) as [Hlt|Hge]; [|lia].
    specialize (Hfirst _ Hlt). rewrite !Hnth in Hfirst by assumption.
    rewrite Hid in Hfirst. lia.
Qed.

End MajorityFacts.

(** ** [calculate_mapping] *)

Module MappingFacts.

Import Mapping.
Open Scope Z_scope.

Lemma get_fold (pairs : list (Z * Z)) (d : Dict.t (list Z)) (k : Z) :
  Dict.get (fold_left add_pair pairs d) k = ext (Dict.get d k) (sel k pairs).
Proof.
  revert d. induction pairs as [|[c l] pairs IH]; intros d; simpl.
  - reflexivity.
  - rewrite IH. unfold add_pair at 1. simpl.
    rewrite DictFacts.get_append_to. unfold sel. simpl.
    rewrite (Z.eqb_sym c k).
    destruct (k =? c) eqn:Ek; simpl.
    + apply Z.eqb_eq in Ek. subst c.
      fold (sel k pairs). destruct (sel k pairs) as [|m ms]; simpl.
      * reflexivity.
      * rewrite <- app_assoc. reflexivity.
    + reflexivity.
Qed.

Lemma keys_fold (pairs : list (Z * Z)) (d : Dict.t (list Z)) (k : Z) :
  In k (Dict.keys (fold_left add_pair pairs d))
  <-> In k (Dict.keys d) \/ In k (map fst pairs).
Proof.
  revert d. induction pairs as [|[c l] pairs IH]; intros d; simpl.
  - tauto.
  - rewrite IH. unfold add_pair. simpl.
    rewrite DictFacts.keys_append_to. intuition.
Qed.

Lemma nodup_fold (pairs : list (Z * Z)) (d : Dict.t (list Z)) :
  NoDup (Dict.keys d) -> NoDup (Dict.keys (fold_left add_pair pairs d)).
Proof.
  revert d. induction pairs as [|[c l] pairs IH]; intros d Hnd; simpl.
  - exact Hnd.
  - apply IH. apply DictFacts.nodup_append_to. exact Hnd.
Qed.

Lemma in_nodup_get (V : Type) (d : Dict.t V) (k : Z) (v : V) :
  NoDup (Dict.keys d) -> In (k, v) d -> Dict.get d k = Some v.
Proof.
  induction d as [|[k0 v0] d IH]; simpl; intros Hnd Hin; [destruct Hin|].
  inversion Hnd as [|? ? Hnotin Hnd']; subst.
  destruct Hin as [Heq|Hin].
  - inversion Heq; subst. rewrite Z.eqb_refl. reflexivity.
  - destruct (k =? k0) eqn:Ek.
    + apply Z.eqb_eq in Ek. subst k0. elim Hnotin.
      change k with (fst (k, v)). apply in_map. exact Hin.
    + auto.
Qed.

Lemma get_some_in (V : Type) (d : Dict.t V) (k : Z) (v : V) :
  Dict.get d k = Some v -> In (k, v) d.
Proof.
  induction d as [|[k0 v0] d IH]; simpl; [discriminate|].
  destruct (k =? k0) eqn:Ek.
  - apply Z.eqb_eq in Ek. intros [= ->]. left. congruence.
  - auto.
Qed.

Lemma map_fst_combine (l l' : list Z) :
  length l = length l' -> map fst (combine l l') = l.
Proof.
  revert l'. induction l as [|x l IH]; intros [|y l'] Hlen; simpl in *;
    try discriminate; [reflexivity|].
  f_equal. apply IH. lia.
Qed.

Lemma map_snd_combine (l l' : list Z) :
  length l = length l' -> map snd (combine l l') = l'.
Proof.
  revert l'. induction l as [|x l IH]; intros [|y l'] Hlen; simpl in *;
    try discriminate; [reflexivity|].
  f_equal. apply IH. lia.
Qed.

Lemma group_fold (cl tl : list Z) :
  group cl tl = fold_left add_pair (combine cl tl) [].
Proof. reflexivity. Qed.

Lemma members_sel (c : Z) (cl tl : list Z) :
  members c cl tl = sel c (combine cl tl).
Proof. reflexivity. Qed.

(** The grouped dictionary binds each occurring cluster to its members. *)
Lemma group_entry (cl tl : list Z) (c : Z) (vs : list Z) :
  In (c, vs) (group cl tl) -> vs = members c cl tl /\ vs <> [].
Proof.
  intros Hin.
  assert (Hnd : NoDup (Dict.keys (group cl tl)))
    by (rewrite group_fold; apply nodup_fold; constructor).
  apply (in_nodup_get _ _ _ _ Hnd) in Hin.
  rewrite group_fold, get_fold in Hin. simpl in Hin.
  rewrite members_sel.
  destruct (sel c (combine cl tl)) as [|m ms]; simpl in Hin.
  - discriminate.
  - inversion Hin; subst. split; [reflexivity|discriminate].
Qed.

Lemma members_incl (c : Z) (cl tl : list Z) (l : Z) :
  In l (members c cl tl) -> In l tl.
Proof.
  unfold members, sel. rewrite in_map_iff. intros ([c' l'] & <- & Hin).
  apply filter_In in Hin. destruct Hin as [Hin _].
  apply in_combine_r in Hin. exact Hin.
Qed.

Lemma in_sel (c l : Z) (pairs : list (Z * Z)) :
  In (c, l) pairs -> In l (sel c pairs).
Proof.
  intros Hin. unfold sel. change l with (snd (c, l)). apply in_map.
  apply filter_In. split; [exact Hin|]. simpl. apply Z.eqb_refl.
Qed.

(** *** The comprehension *)

Lemma comprehension_ok (items : Dict.t (list Z)) (m : Dict.t Z) :
  comprehension items = Ok m ->
  Forall2 (fun kv kx => fst kv = fst kx /\ bincount_argmax (snd kv) = Ok (snd kx))
          items m.
Proof.
  revert m. induction items as [|[k v] items IH]; intros m H; simpl in H.
  - inversion H. constructor.
  - inv_bind H. inv_bind H. inversion H; subst.
    constructor; [split; [reflexivity|assumption]|]. apply IH. assumption.
Qed.

Lemma comprehension_total (items : Dict.t (list Z)) :
  (forall k vs, In (k, vs) items -> exists x, bincount_argmax vs = Ok x) ->
  exists m, comprehension items = Ok m.
Proof.
  induction items as [|[k v] items IH]; intros Hall; simpl.
  - eauto.
  - destruct (Hall k v (or_introl eq_refl)) as [x Hx]. rewrite Hx. simpl.
    destruct IH as [m Hm]; [intros; eapply Hall; right; eassumption|].
    rewrite Hm. simpl. eauto.
Qed.

Lemma comprehension_raises_value_error (items : Dict.t (list Z)) (e : exn) :
  comprehension items = Raise e -> e = ValueError.
Proof.
  induction items as [|[k v] items IH]; simpl; [discriminate|].
  destruct (bincount_argmax v) as [x|e'] eqn:Ex; simpl.
  - destruct (comprehension items) as [m|e'']; simpl; [discriminate|].
    intros [= <-]. apply IH. reflexivity.
  - intros [= <-].
    apply (MajorityFacts.bincount_argmax_raises_value_error v). exact Ex.
Qed.

Lemma forall2_keys (items : Dict.t (list Z)) (m : Dict.t Z) :
  Forall2 (fun kv kx => fst kv = fst kx /\ bincount_argmax (snd kv) = Ok (snd kx))
          items m ->
  Dict.keys m = Dict.keys items.
Proof.
  induction 1 as [|[k v] [k' x] items m [Hk _] _ IH]; simpl in *.
  - reflexivity.
  - subst. f_equal. exact IH.
Qed.

Lemma forall2_entry (items : Dict.t (list Z)) (m : Dict.t Z) (c x : Z) :
  Forall2 (fun kv kx => fst kv = fst kx /\ bincount_argmax (snd kv) = Ok (snd kx))
          items m ->
  In (c, x) m ->
  exists vs, In (c, vs) items /\ bincount_argmax vs = Ok x.
Proof.
  induction 1 as [|[k v] [k' x'] items m [Hk Hv] _ IH]; simpl in *;
    intros Hin; [destruct Hin|].
  destruct Hin as [Heq|Hin].
  - inversion Heq; subst. eauto.
  - destruct (IH Hin) as (vs & Hvs & Hx). eauto.
Qed.

Lemma forall2_source (items : Dict.t (list Z)) (m : Dict.t Z) (c : Z)
                     (vs : list Z) :
  Forall2 (fun kv kx => fst kv = fst kx /\ bincount_argmax (snd kv) = Ok (snd kx))
          items m ->
  In (c, vs) items ->
  exists x, bincount_argmax vs = Ok x.
Proof.
  induction 1 as [|[k v] [k' x'] items m [Hk Hv] _ IH]; simpl in *;
    intros Hin; [destruct Hin|].
  destruct Hin as [Heq|Hin].
  - inversion Heq; subst. eauto.
  - auto.
Qed.

End MappingFacts.

Module MappingCorrect.

Import Mapping MappingFacts.
Open Scope Z_scope.

Lemma group_keys (cl tl : list Z) (c : Z) :
  length cl = length tl ->
  (In c (Dict.keys (group cl tl)) <-> In c cl).
Proof.
  intros Hlen. rewrite group_fold, keys_fold. simpl.
  rewrite (map_fst_combine cl tl Hlen). tauto.
Qed.

Lemma group_nodup (cl tl : list Z) : NoDup (Dict.keys (group cl tl)).
Proof. rewrite group_fold. apply nodup_fold. constructor. Qed.

Lemma members_nonneg (c : Z) (cl tl : list Z) :
  Forall (fun l => 0 <= l) tl -> Forall (fun l => 0 <= l) (members c cl tl).
Proof.
  rewrite !Forall_forall. intros H l Hl. apply H.
  apply (members_incl c cl tl). exact Hl.
Qed.

(** With non-negative labels the function returns a dictionary. *)
Lemma calculate_mapping_returns (cl tl : list Z) :
  Forall (fun l => 0 <= l) tl ->
  exists mapping, calculate_mapping cl tl = Ok mapping.
Proof.
  intros Hpos. unfold calculate_mapping. apply comprehension_total.
  intros k vs Hin. apply group_entry in Hin. destruct Hin as [-> Hne].
  destruct (MajorityFacts.bincount_argmax_spec _ Hne
              (members_nonneg k cl tl Hpos)) as (x & Hx & _).
  eauto.
Qed.

(** The returned dictionary has the keys of the grouped one, in the same
    order. *)
Lemma mapping_keys (cl tl : list Z) (mapping : Dict.t Z) :
  calculate_mapping cl tl = Ok mapping ->
  Dict.keys mapping = Dict.keys (group cl tl).
Proof.
  unfold calculate_mapping. intros Hm. apply comprehension_ok in Hm.
  apply forall2_keys. exact Hm.
Qed.

(** C2.  For index-aligned arrays of cluster identifiers and non-negative
    true labels, [calculate_mapping] returns a dictionary with exactly one
    entry per cluster identifier occurring in the assignment and none for any
    other identifier; the value of each entry occurs among the labels of the
    rows assigned to that cluster, no label is more frequent there, and every
    equally frequent label is at least as large. *)
Theorem calculate_mapping_majority (cluster_labels true_labels : list Z) :
  length cluster_labels = length true_labels ->
  Forall (fun l => 0 <= l) true_labels ->
  exists mapping,
    calculate_mapping cluster_labels true_labels = Ok mapping /\
    NoDup (Dict.keys mapping) /\
    (forall c, In c (Dict.keys mapping) <-> In c cluster_labels) /\
    (forall c v, In (c, v) mapping ->
       In v (members c cluster_labels true_labels) /\
       (forall l, Nat.le (occurrences (members c cluster_labels true_labels) l)
                         (occurrences (members c cluster_labels true_labels) v)) /\
       (forall l, occurrences (members c cluster_labels true_labels) l
                  = occurrences (members c cluster_labels true_labels) v ->
                  v <= l)).
Proof.
  intros Hlen Hpos.
  destruct (calculate_mapping_returns cluster_labels true_labels Hpos)
    as [mapping Hm].
  exists mapping. split; [exact Hm|].
  unfold calculate_mapping in Hm. apply comprehension_ok in Hm.
  pose proof (forall2_keys _ _ Hm) as Hkeys.
  split; [|split].
  - rewrite Hkeys. apply group_nodup.
  - intros c. rewrite Hkeys. apply group_keys. exact Hlen.
  - intros c v Hin.
    destruct (forall2_entry _ _ c v Hm Hin) as (vs & Hvs & Hv).
    apply group_entry in Hvs. destruct Hvs as [-> Hne].
    destruct (MajorityFacts.bincount_argmax_spec _ Hne
                (members_nonneg c cluster_labels true_labels Hpos))
      as (x & Hx & Hin' & Hmax & Hlow).
    rewrite Hx in Hv. inversion Hv; subst x. auto.
Qed.

Lemma calculate_mapping_majority_witness :
  exists mapping,
    calculate_mapping [0; 1; 0; 1; 0] [3; 5; 3; 7; 5] = Ok mapping /\
    NoDup (Dict.keys mapping) /\
    (forall c, In c (Dict.keys mapping) <-> In c [0; 1; 0; 1; 0]) /\
    (forall c v, In (c, v) mapping ->
       In v (members c [0; 1; 0; 1; 0] [3; 5; 3; 7; 5]) /\
       (forall l, Nat.le (occurrences (members c [0; 1; 0; 1; 0] [3; 5; 3; 7; 5]) l)
                         (occurrences (members c [0; 1; 0; 1; 0] [3; 5; 3; 7; 5]) v)) /\
       (forall l, occurrences (members c [0; 1; 0; 1; 0] [3; 5; 3; 7; 5]) l
                  = occurrences (members c [0; 1; 0; 1; 0] [3; 5; 3; 7; 5]) v ->
                  v <= l)).
Proof.
  apply (calculate_mapping_majority [0; 1; 0; 1; 0] [3; 5; 3; 7; 5]).
  - reflexivity.
  - repeat constructor; lia.
Defined.

(** The mapping on a small assignment: cluster 0 holds labels 3, 3, 5 and
    cluster 1 holds the tie 5, 7. *)
Example calculate_mapping_small :
  calculate_mapping [0; 1; 0; 1; 0] [3; 5; 3; 7; 5] = Ok [(0, 3); (1, 5)].
Proof. reflexivity. Qed.

Lemma in_combine_of_snd (cl tl : list Z) (l : Z) :
  length cl = length tl -> In l tl -> exists c, In (c, l) (combine cl tl).
Proof.
  revert tl. induction cl as [|c cl IH]; intros [|t tl] Hlen Hin;
    simpl in *; try discriminate; [destruct Hin|].
  destruct Hin as [->|Hin].
  - exists c. left. reflexivity.
  - destruct (IH tl) as [c' Hc']; [lia|exact Hin|]. exists c'. right. exact Hc'.
Qed.

(** C10.  On index-aligned arrays, [calculate_mapping] raises [ValueError] as
    soon as some true label is negative; when every true label is
    non-negative it raises nothing and the dictionary it returns is defined
    at every cluster identifier of the assignment, the noise identifier [-1]
    included. *)
Theorem calculate_mapping_label_domain (cluster_labels true_labels : list Z) :
  length cluster_labels = length true_labels ->
  ((exists l, In l true_labels /\ l < 0) ->
   calculate_mapping cluster_labels true_labels = Raise ValueError) /\
  (Forall (fun l => 0 <= l) true_labels ->
   exists mapping,
     calculate_mapping cluster_labels true_labels = Ok mapping /\
     (forall c, In c cluster_labels ->
                exists v, Dict.get mapping c = Some v) /\
     (In (-1) cluster_labels -> exists v, Dict.get mapping (-1) = Some v)).
Proof.
  intros Hlen. split.
  - intros (l & Hin & Hneg).
    destruct (in_combine_of_snd cluster_labels true_labels l Hlen Hin)
      as [c Hc].
    assert (Hmem : In l (members c cluster_labels true_labels))
      by (rewrite members_sel; apply in_sel; exact Hc).
    assert (Hget : Dict.get (group cluster_labels true_labels) c
                   = Some (members c cluster_labels true_labels)).
    { rewrite group_fold, get_fold, <- members_sel. simpl.
      destruct (members c cluster_labels true_labels); [destruct Hmem|].
      reflexivity. }
    apply get_some_in in Hget.
    unfold calculate_mapping.
    destruct (comprehension (group cluster_labels true_labels))
      as [m|e] eqn:Ec.
    + apply comprehension_ok in Ec.
      destruct (forall2_source _ _ c _ Ec Hget) as [x Hx].
      unfold bincount_argmax in Hx.
      rewrite (MajorityFacts.bincount_negative _ l Hmem Hneg) in Hx.
      discriminate.
    + f_equal. apply (comprehension_raises_value_error _ e Ec).
  - intros Hpos.
    destruct (calculate_mapping_returns cluster_labels true_labels Hpos)
      as [mapping Hm].
    exists mapping. split; [exact Hm|].
    assert (Hdef : forall c, In c cluster_labels ->
                             exists v, Dict.get mapping c = Some v).
    { intros c Hc. apply DictFacts.in_keys_get_some.
      rewrite (mapping_keys _ _ _ Hm). apply group_keys; assumption. }
    split; [exact Hdef|]. apply Hdef.
Qed.

Lemma calculate_mapping_label_domain_witness :
  ((exists l, In l [2; 2; 4] /\ l < 0) ->
   calculate_mapping [-1; 0; -1] [2; 2; 4] = Raise ValueError) /\
  (Forall (fun l => 0 <= l) [2; 2; 4] ->
   exists mapping,
     calculate_mapping [-1; 0; -1] [2; 2; 4] = Ok mapping /\
     (forall c, In c [-1; 0; -1] ->
                exists v, Dict.get mapping c = Some v) /\
     (In (-1) [-1; 0; -1] -> exists v, Dict.get mapping (-1) = Some v)).
Proof.
  apply (calculate_mapping_label_domain [-1; 0; -1] [2; 2; 4]).
  reflexivity.
Defined.

(** A negative label makes the call raise; the noise identifier as a key
    does not. *)
Example calculate_mapping_negative_label :
  calculate_mapping [0; 0; 1] [2; -3; 4] = Raise ValueError.
Proof. reflexivity. Qed.

Example calculate_mapping_noise_key :
  calculate_mapping [-1; 0; -1] [2; 2; 4] = Ok [(-1, 2); (0, 2)].
Proof. reflexivity. Qed.

End MappingCorrect.

(** ** Data loaders *)

Module DataFacts.

Import Data.

Lemma concat_batch_sampler (bs : nat) (s batch : list nat) :
  concat (batch_sampler bs batch s) = batch ++ s.
Proof.
  revert batch. induction s as [|idx s IH]; intros batch; simpl.
  - destruct batch; simpl; [reflexivity|].
    rewrite !app_nil_r. reflexivity.
  - destruct (Nat.eqb (length (batch ++ [idx])) bs); simpl.
    + rewrite IH. simpl. rewrite <- app_assoc. reflexivity.
    + rewrite IH. rewrite <- app_assoc. reflexivity.
Qed.

Lemma batch_sampler_nonempty (bs : nat) (s batch : list nat) :
  batch ++ s <> [] -> batch_sampler bs batch s <> [].
Proof.
  intros Hne Hnil. apply Hne. rewrite <- (concat_batch_sampler bs s batch).
  rewrite Hnil. reflexivity.
Qed.

Lemma fetch_app (X Y : Type) (ds : list (X * Y)) (a b : list nat) :
  fetch ds (a ++ b) = fetch ds a ++ fetch ds b.
Proof. unfold fetch. apply flat_map_app. Qed.

Lemma fetch_concat (X Y : Type) (ds : list (X * Y)) (bss : list (list nat)) :
  fetch ds (concat bss) = concat (map (fetch ds) bss).
Proof.
  induction bss as [|b bss IH]; simpl; [reflexivity|].
  rewrite fetch_app, IH. reflexivity.
Qed.

(** The rows of the yielded batches, put end to end, are the visited rows. *)
Lemma iter_data (X Y : Type) (ld : DataLoader X Y) (perm : list nat) :
  concat (map fst (iter ld perm)) = map fst (visited ld perm).
Proof.
  unfold iter, visited.
  rewrite <- (concat_batch_sampler (batch_size ld) (sampler ld perm) []) at 2.
  simpl. rewrite fetch_concat, map_map. simpl.
  rewrite concat_map, map_map. reflexivity.
Qed.

Lemma iter_labels (X Y : Type) (ld : DataLoader X Y) (perm : list nat) :
  concat (map snd (iter ld perm)) = map snd (visited ld perm).
Proof.
  unfold iter, visited.
  rewrite <- (concat_batch_sampler (batch_size ld) (sampler ld perm) []) at 2.
  simpl. rewrite fetch_concat, map_map. simpl.
  rewrite concat_map, map_map. reflexivity.
Qed.

Lemma iter_nonempty (X Y : Type) (ld : DataLoader X Y) (perm : list nat) :
  sampler ld perm <> [] -> iter ld perm <> [].
Proof.
  intros Hne Hnil. unfold iter in Hnil. apply map_eq_nil in Hnil.
  revert Hnil. apply batch_sampler_nonempty. exact Hne.
Qed.

Lemma iter_empty (X Y : Type) (ld : DataLoader X Y) (perm : list nat) :
  sampler ld perm = [] -> iter ld perm = [].
Proof. intros H. unfold iter. rewrite H. reflexivity. Qed.

Lemma fetch_nth (X Y : Type) (ds : list (X * Y)) (idxs : list nat) :
  Forall (fun j => j < length ds) idxs ->
  forall i j, nth_error idxs i = Some j ->
              nth_error (fetch ds idxs) i = nth_error ds j.
Proof.
  induction 1 as [|j0 idxs Hj0 _ IH]; intros i j Hi.
  - destruct i; discriminate.
  - apply nth_error_Some in Hj0.
    destruct (nth_error ds j0) as [row|] eqn:Erow; [|congruence].
    unfold fetch. simpl. rewrite Erow. simpl.
    destruct i as [|i]; simpl in *.
    + inversion Hi; subst. symmetry. exact Erow.
    + apply IH. exact Hi.
Qed.

Lemma fetch_length (X Y : Type) (ds : list (X * Y)) (idxs : list nat) :
  Forall (fun j => j < length ds) idxs ->
  length (fetch ds idxs) = length idxs.
Proof.
  induction 1 as [|j0 idxs Hj0 _ IH]; [reflexivity|].
  apply nth_error_Some in Hj0.
  destruct (nth_error ds j0) as [row|] eqn:Erow; [|congruence].
  unfold fetch in *. simpl. rewrite Erow. simpl. f_equal. exact IH.
Qed.

Lemma fetch_seq_from (X Y : Type) (l pre : list (X * Y)) :
  fetch (pre ++ l) (seq (length pre) (length l)) = l.
Proof.
  revert pre. induction l as [|row l IH]; intros pre; simpl; [reflexivity|].
  unfold fetch. simpl.
  rewrite nth_error_app2 by lia. rewrite Nat.sub_diag. simpl. f_equal.
  specialize (IH (pre ++ [row])).
  rewrite <- app_assoc, length_app in IH. simpl in IH.
  rewrite Nat.add_1_r in IH. exact IH.
Qed.

Lemma fetch_seq (X Y : Type) (ds : list (X * Y)) :
  fetch ds (seq 0 (length ds)) = ds.
Proof. apply (fetch_seq_from X Y ds []). Qed.

Lemma fetch_permutation (X Y : Type) (ds : list (X * Y)) (s : list nat) :
  Permutation s (seq 0 (length ds)) -> Permutation (fetch ds s) ds.
Proof.
  intros Hp. rewrite <- (fetch_seq X Y ds) at 2.
  unfold fetch. apply Permutation_flat_map. exact Hp.
Qed.

Lemma visited_unshuffled (X Y : Type) (ld : DataLoader X Y) (perm : list nat) :
  shuffle ld = false -> visited ld perm = dataset ld.
Proof.
  intros Hs. unfold visited, sampler. rewrite Hs. apply fetch_seq.
Qed.

End DataFacts.

(** ** [get_embeddings] *)

Module ExtractorFacts.

Import Data Extractor.

Section Facts.

Variables X Y Recon Latent : Type.
Variable model : X -> Recon * Latent.

Local Abbreviation enc := (latent_of model).

Lemma fold_extract (batches : list (list X * list Y))
                   (es : list (list Latent)) (ls : list (list Y)) :
  fold_left (extract_batch model) batches (es, ls)
  = (es ++ map (fun b => map enc (fst b)) batches, ls ++ map snd batches).
Proof.
  revert es ls. induction batches as [|[data label] batches IH];
    intros es ls; simpl.
  - rewrite !app_nil_r. reflexivity.
  - rewrite IH. rewrite <- !app_assoc. reflexivity.
Qed.

Lemma concat_map_enc (batches : list (list X * list Y)) :
  concat (map (fun b => map enc (fst b)) batches)
  = map enc (concat (map fst batches)).
Proof.
  induction batches as [|b batches IH]; simpl; [reflexivity|].
  rewrite map_app, IH. reflexivity.
Qed.

(** On a loader that yields at least one row the call returns the encodings
    and the labels of the visited rows, in the order visited. *)
Lemma get_embeddings_visited (ld : DataLoader X Y) (perm : list nat) :
  sampler ld perm <> [] ->
  get_embeddings model ld perm
  = Ok (map enc (map fst (visited ld perm)), map snd (visited ld perm)).
Proof.
  intros Hne. unfold get_embeddings. rewrite fold_extract. simpl.
  pose proof (iter_data := DataFacts.iter_data X Y ld perm).
  pose proof (iter_labels := DataFacts.iter_labels X Y ld perm).
  pose proof (Hit := DataFacts.iter_nonempty X Y ld perm Hne).
  destruct (iter ld perm) as [|b batches] eqn:Eit; [congruence|].
  cbn [map Np.vstack Np.concatenate Py.bind].
  change (map enc (fst b) :: map (fun b0 => map enc (fst b0)) batches)
    with (map (fun b0 => map enc (fst b0)) (b :: batches)).
  change (snd b :: map snd batches) with (map snd (b :: batches)).
  rewrite concat_map_enc, iter_data, iter_labels. reflexivity.
Qed.

(** On a loader that yields nothing, stacking the empty list of arrays
    raises. *)
Lemma get_embeddings_empty (ld : DataLoader X Y) (perm : list nat) :
  sampler ld perm = [] ->
  get_embeddings model ld perm = Raise ValueError.
Proof.
  intros He. unfold get_embeddings.
  rewrite (DataFacts.iter_empty X Y ld perm He). reflexivity.
Qed.

Lemma visited_row (ld : DataLoader X Y) (perm : list nat) :
  Forall (fun j => j < length (dataset ld)) (sampler ld perm) ->
  forall i j x y,
    nth_error (sampler ld perm) i = Some j ->
    nth_error (dataset ld) j = Some (x, y) ->
    nth_error (map enc (map fst (visited ld perm))) i = Some (enc x) /\
    nth_error (map snd (visited ld perm)) i = Some y.
Proof.
  intros Hvalid i j x y Hi Hj. unfold visited.
  rewrite !nth_error_map.
  rewrite (DataFacts.fetch_nth X Y _ _ Hvalid i j Hi), Hj. simpl. auto.
Qed.

End Facts.

End ExtractorFacts.

Module ExtractorCorrect.

Import Data Extractor ExtractorFacts.

(** C9.  Whatever order the loader visits the rows in (the sampler's
    permutation for a shuffling loader, the row order otherwise), the two
    arrays returned by [get_embeddings] have the same number of rows, one per
    visited row, and at every index [i] the embedding is the latent vector of
    the input row whose true label is the label at index [i]. *)
Theorem get_embeddings_aligned
    (X Y Recon Latent : Type) (model : X -> Recon * Latent)
    (dataloader : DataLoader X Y) (perm : list nat) :
  sampler dataloader perm <> [] ->
  Forall (fun j => j < length (dataset dataloader)) (sampler dataloader perm) ->
  exists E L,
    get_embeddings model dataloader perm = Ok (E, L) /\
    length E = length L /\
    length E = length (sampler dataloader perm) /\
    forall i j, nth_error (sampler dataloader perm) i = Some j ->
      exists x y,
        nth_error (dataset dataloader) j = Some (x, y) /\
        nth_error E i = Some (latent_of model x) /\
        nth_error L i = Some y.
Proof.
  intros Hne Hvalid.
  exists (map (latent_of model) (map fst (visited dataloader perm))),
         (map snd (visited dataloader perm)).
  split; [apply get_embeddings_visited; exact Hne|].
  split; [rewrite !length_map; reflexivity|].
  split.
  - rewrite !length_map. unfold visited.
    apply DataFacts.fetch_length. exact Hvalid.
  - intros i j Hi.
    assert (Hj : j < length (dataset dataloader)).
    { rewrite Forall_forall in Hvalid. apply Hvalid.
      apply nth_error_In with i. exact Hi. }
    apply nth_error_Some in Hj.
    destruct (nth_error (dataset dataloader) j) as [[x y]|] eqn:Erow;
      [|congruence].
    exists x, y. split; [reflexivity|].
    apply (visited_row X Y Recon Latent model dataloader perm Hvalid i j x y Hi
                       Erow).
Qed.

Lemma get_embeddings_aligned_witness :
  exists E L,
    get_embeddings (fun x : Z => (x, (2 * x)%Z))
                   (Notebook.train_loader [(1, 10); (2, 20); (3, 30)]%Z)
                   [2; 0; 1] = Ok (E, L) /\
    length E = length L /\
    length E = length (sampler (Notebook.train_loader
                                  [(1, 10); (2, 20); (3, 30)]%Z) [2; 0; 1]) /\
    forall i j,
      nth_error (sampler (Notebook.train_loader
                            [(1, 10); (2, 20); (3, 30)]%Z) [2; 0; 1]) i
      = Some j ->
      exists x y,
        nth_error (dataset (Notebook.train_loader
                              [(1, 10); (2, 20); (3, 30)]%Z)) j = Some (x, y) /\
        nth_error E i = Some (latent_of (fun x : Z => (x, (2 * x)%Z)) x) /\
        nth_error L i = Some y.
Proof.
  apply (get_embeddings_aligned Z Z Z Z (fun x : Z => (x, (2 * x)%Z))
           (Notebook.train_loader [(1, 10); (2, 20); (3, 30)]%Z) [2; 0; 1]).
  - discriminate.
  - simpl. repeat constructor.
Defined.

(** C3, as stated, fails on the shuffling train loader: with the sampler's
    permutation [1; 0] of a two-row split, row 0 of the output is the encoding
    of input row 1, not of input row 0. *)
Lemma get_embeddings_train_order_counterexample :
  Permutation [1; 0] (seq 0 2) /\
  get_embeddings (fun x : Z => (x, (2 * x)%Z))
                 (Notebook.train_loader [(1, 10); (2, 20)]%Z) [1; 0]
  = Ok ([4; 2]%Z, [20; 10]%Z) /\
  ~ original_row_order (fun x : Z => (x, (2 * x)%Z))
                       (Notebook.train_loader [(1, 10); (2, 20)]%Z) [1; 0].
Proof.
  split; [apply perm_swap|].
  split; [reflexivity|].
  intros Hclaim.
  specialize (Hclaim [4; 2]%Z [20; 10]%Z eq_refl 0 1%Z 10%Z eq_refl).
  unfold latent_of in Hclaim. simpl in Hclaim. inversion Hclaim.
Qed.

(** C3, amended.  The returned embedding matrix lists the latent vectors in
    the order the loader visits the rows: row [i] of the output is the
    encoding of the [i]-th row visited.  When the visiting order is a
    permutation of the row indices there is one latent vector per input row.
    For a loader that does not shuffle (the test split) the output is in the
    original row order. *)
Theorem get_embeddings_traversal_order
    (X Y Recon Latent : Type) (model : X -> Recon * Latent)
    (dataloader : DataLoader X Y) (perm : list nat) :
  sampler dataloader perm <> [] ->
  Forall (fun j => j < length (dataset dataloader)) (sampler dataloader perm) ->
  exists E L,
    get_embeddings model dataloader perm = Ok (E, L) /\
    (forall i j x y,
       nth_error (sampler dataloader perm) i = Some j ->
       nth_error (dataset dataloader) j = Some (x, y) ->
       nth_error E i = Some (latent_of model x)) /\
    (Permutation (sampler dataloader perm)
                 (seq 0 (length (dataset dataloader))) ->
     length E = length (dataset dataloader) /\
     Permutation E (map (fun row => latent_of model (fst row))
                        (dataset dataloader))) /\
    (shuffle dataloader = false ->
     E = map (fun row => latent_of model (fst row)) (dataset dataloader)).
Proof.
  intros Hne Hvalid.
  exists (map (latent_of model) (map fst (visited dataloader perm))),
         (map snd (visited dataloader perm)).
  split; [apply get_embeddings_visited; exact Hne|].
  split; [|split].
  - intros i j x y Hi Hj.
    apply (visited_row X Y Recon Latent model dataloader perm Hvalid i j x y Hi
                       Hj).
  - intros Hperm.
    assert (Hp : Permutation (visited dataloader perm) (dataset dataloader))
      by (apply DataFacts.fetch_permutation; exact Hperm).
    split.
    + rewrite !length_map. apply Permutation_length. exact Hp.
    + rewrite map_map. apply Permutation_map. exact Hp.
  - intros Hs. rewrite (DataFacts.visited_unshuffled X Y dataloader perm Hs).
    apply map_map.
Qed.

Lemma get_embeddings_traversal_order_witness :
  exists E L,
    get_embeddings (fun x : Z => (x, (2 * x)%Z))
                   (Notebook.test_loader [(1, 10); (2, 20)]%Z) [] = Ok (E, L) /\
    (forall i j x y,
       nth_error (sampler (Notebook.test_loader [(1, 10); (2, 20)]%Z) []) i
       = Some j ->
       nth_error (dataset (Notebook.test_loader [(1, 10); (2, 20)]%Z)) j
       = Some (x, y) ->
       nth_error E i = Some (latent_of (fun x : Z => (x, (2 * x)%Z)) x)) /\
    (Permutation (sampler (Notebook.test_loader [(1, 10); (2, 20)]%Z) [])
                 (seq 0 (length (dataset (Notebook.test_loader
                                            [(1, 10); (2, 20)]%Z)))) ->
     length E = length (dataset (Notebook.test_loader [(1, 10); (2, 20)]%Z)) /\
     Permutation E (map (fun row => latent_of (fun x : Z => (x, (2 * x)%Z))
                                              (fst row))
                        (dataset (Notebook.test_loader
                                    [(1, 10); (2, 20)]%Z)))) /\
    (shuffle (Notebook.test_loader [(1, 10); (2, 20)]%Z) = false ->
     E = map (fun row => latent_of (fun x : Z => (x, (2 * x)%Z)) (fst row))
             (dataset (Notebook.test_loader [(1, 10); (2, 20)]%Z))).
Proof.
  apply (get_embeddings_traversal_order Z Z Z Z (fun x : Z => (x, (2 * x)%Z))
           (Notebook.test_loader [(1, 10); (2, 20)]%Z) []).
  - discriminate.
  - simpl. repeat constructor.
Defined.

End ExtractorCorrect.

(** ** The network *)

Module NnFacts.

Import Nn.
Open Scope R_scope.


Lemma relu_nonneg (x : R) : 0 <= relu x.
Proof. unfold relu. apply Rmax_l. Qed.

Lemma length_affine (o : nat) (W : nat -> nat -> R) (b : nat -> R)
                    (x : list R) :
  length (affine o W b x) = o.
Proof. unfold affine. rewrite length_map, length_seq. reflexivity. Qed.

Lemma apply_linear (i o : nat) (W : nat -> nat -> R) (b : nat -> R)
                   (x : list R) :
  length x = i -> apply_layer (Linear i o W b) x = Ok (affine o W b x).
Proof. intros <-. simpl. rewrite Nat.eqb_refl. reflexivity. Qed.

Lemma apply_linear_mismatch (i o : nat) (W : nat -> nat -> R) (b : nat -> R)
                            (x : list R) :
  length x <> i -> apply_layer (Linear i o W b) x = Raise RuntimeError.
Proof.
  intros Hne. simpl. destruct (Nat.eqb (length x) i) eqn:E; [|reflexivity].
  apply Nat.eqb_eq in E. contradiction.
Qed.

Lemma apply_relu (x : list R) : apply_layer ReLU x = Ok (map relu x).
Proof. reflexivity. Qed.


Ltac step_linear :=
  rewrite apply_linear
    by first [ assumption
             | apply length_affine
             | rewrite length_map; apply length_affine ];
  cbn [Py.bind].

Ltac step_relu := rewrite apply_relu; cbn [Py.bind].

(** The value the encoder computes: three affine transforms with a rectifier
    after the first and after the second. *)
Lemma run_encoder (i e l : nat) (W : nat -> nat -> nat -> R)
                  (b : nat -> nat -> R) (x : list R) :
  length x = i ->
  run (encoder (init i e l W b)) x
  = Ok (affine l (W 2%nat) (b 2%nat)
          (map relu (affine (e / 2) (W 1%nat) (b 1%nat)
             (map relu (affine e (W 0%nat) (b 0%nat) x))))).
Proof.
  intros Hx. cbn [init encoder run].
  step_linear. step_relu. step_linear. step_relu. step_linear.
  reflexivity.
Qed.



End NnFacts.

Module NnCorrect.

Import Nn NnFacts.
Open Scope R_scope.

(** C6, as stated, fails on the notebook's model: its encoder is not a
    single-hidden-layer network; it has three affine layers and two
    rectifiers, and a row goes through the widths 784, 128, 64, 10. *)
Lemma encoder_single_hidden_layer_counterexample :
  ~ single_hidden_layer
      (encoder (Notebook.model default_input_dim zero_weights zero_biases))
      default_input_dim default_encoding_dim 10
  /\ affine_count
       (encoder (Notebook.model default_input_dim zero_weights zero_biases))
     = 3%nat
  /\ rectifier_count
       (encoder (Notebook.model default_input_dim zero_weights zero_biases))
     = 2%nat
  /\ widths
       (encoder (Notebook.model default_input_dim zero_weights zero_biases))
     = [784; 128; 64; 10]%nat.
Proof.
  split; [|repeat split; reflexivity].
  intros (_ & Hcount & _). vm_compute in Hcount. discriminate.
Qed.

(** C6, amended.  The encoder is a composition of exactly three affine
    transforms, with one rectifying activation after the first and one after
    the second (two hidden layers); the dimensionality path is input
    dimension, intermediate width, half the intermediate width (integer
    division), latent width; on a row of the input dimension it returns the
    value of that composition. *)
Theorem encoder_architecture
    (input_dim encoding_dim latent_dim : nat)
    (W : nat -> nat -> nat -> R) (b : nat -> nat -> R) :
  map kind (encoder (init input_dim encoding_dim latent_dim W b))
  = [KLinear input_dim encoding_dim; KReLU;
     KLinear encoding_dim (encoding_dim / 2); KReLU;
     KLinear (encoding_dim / 2) latent_dim]
  /\ affine_count (encoder (init input_dim encoding_dim latent_dim W b)) = 3%nat
  /\ rectifier_count (encoder (init input_dim encoding_dim latent_dim W b))
     = 2%nat
  /\ widths (encoder (init input_dim encoding_dim latent_dim W b))
     = [input_dim; encoding_dim; (encoding_dim / 2)%nat; latent_dim]
  /\ forall x, length x = input_dim ->
       encode (init input_dim encoding_dim latent_dim W b) x
       = Ok (affine latent_dim (W 2%nat) (b 2%nat)
               (map relu (affine (encoding_dim / 2) (W 1%nat) (b 1%nat)
                  (map relu (affine encoding_dim (W 0%nat) (b 0%nat) x))))).
Proof.
  repeat split.
  intros x Hx. unfold encode. apply run_encoder. exact Hx.
Qed.

End NnCorrect.

(** ** Float arithmetic: values that are not finite propagate *)

Module PyFloatFacts.

Import PyFloat.

Lemma SFeqb_refl (s : spec_float) : s <> S754_nan -> SFeqb s s = true.
Proof.
  destruct s as [sz|si| |sf m e]; intros Hs; try congruence.
  - reflexivity.
  - destruct si; reflexivity.
  - unfold SFeqb, SFcompare.
    change (Pos.compare_cont Eq m m) with (Pos.compare m m).
    rewrite Z.compare_refl, Pos.compare_refl. destruct sf; reflexivity.
Qed.

Lemma nonfinite_spec (x : float) : nonfinite x = SFnonfinite (Prim2SF x).
Proof.
  unfold nonfinite, PrimFloat.is_finite, is_nan, is_infinity.
  rewrite !eqb_spec, abs_spec.
  change (Prim2SF infinity) with (S754_infinity false).
  destruct (Prim2SF x) as [sz|si| |sf m e] eqn:E.
  - reflexivity.
  - destruct si; reflexivity.
  - reflexivity.
  - rewrite SFeqb_refl by discriminate. reflexivity.
Qed.

Lemma SFadd_nonfinite_l (a b : spec_float) :
  SFnonfinite a = true -> SFnonfinite (SF64add a b) = true.
Proof.
  destruct a as [sa|sa| |sa ma ea]; simpl; try discriminate; intros _.
  - destruct b as [sb|sb| |sb mb eb]; destruct sa; try destruct sb;
      reflexivity.
  - reflexivity.
Qed.

Lemma SFadd_nonfinite_r (a b : spec_float) :
  SFnonfinite b = true -> SFnonfinite (SF64add a b) = true.
Proof.
  destruct b as [sb|sb| |sb mb eb]; simpl; try discriminate; intros _.
  - destruct a as [sa|sa| |sa ma ea]; destruct sb; try destruct sa;
      reflexivity.
  - destruct a; reflexivity.
Qed.

Lemma SFdiv_nonfinite_l (a b : spec_float) :
  SFnonfinite a = true -> SFnonfinite (SF64div a b) = true.
Proof.
  destruct a as [sa|sa| |sa ma ea]; simpl; try discriminate; intros _.
  - destruct b; reflexivity.
  - reflexivity.
Qed.

Lemma add_nonfinite_l (x y : float) :
  nonfinite x = true -> nonfinite (x + y)%float = true.
Proof.
  rewrite !nonfinite_spec, add_spec. apply SFadd_nonfinite_l.
Qed.

Lemma add_nonfinite_r (x y : float) :
  nonfinite y = true -> nonfinite (x + y)%float = true.
Proof.
  rewrite !nonfinite_spec, add_spec. apply SFadd_nonfinite_r.
Qed.

Lemma div_nonfinite_l (x y : float) :
  nonfinite x = true -> nonfinite (x / y)%float = true.
Proof.
  rewrite !nonfinite_spec, div_spec. apply SFdiv_nonfinite_l.
Qed.

Lemma fold_add_nonfinite_acc (xs : list float) (t : float) :
  nonfinite t = true -> nonfinite (fold_left PrimFloat.add xs t) = true.
Proof.
  revert t. induction xs as [|x xs IH]; intros t Ht; simpl; [exact Ht|].
  apply IH. apply add_nonfinite_l. exact Ht.
Qed.

Lemma fold_add_nonfinite (xs : list float) (t x : float) :
  In x xs -> nonfinite x = true ->
  nonfinite (fold_left PrimFloat.add xs t) = true.
Proof.
  revert t. induction xs as [|y xs IH]; intros t Hin Hx; [destruct Hin|].
  simpl. destruct Hin as [->|Hin].
  - apply fold_add_nonfinite_acc. apply add_nonfinite_r. exact Hx.
  - apply IH; assumption.
Qed.

(** One loss that is not finite makes the accumulated sum, and its quotient
    by any divisor, not finite. *)
Lemma sum_nonfinite (xs : list float) (x : float) :
  In x xs -> nonfinite x = true -> nonfinite (sum xs) = true.
Proof. apply fold_add_nonfinite. Qed.

Lemma finite_nonneg_not_nonfinite (x : float) :
  finite_nonneg x -> nonfinite x = false.
Proof. intros [Hf _]. unfold nonfinite. rewrite Hf. reflexivity. Qed.

End PyFloatFacts.

(** ** Float arithmetic: sums and means of non-negative values *)

Module PyFloatSign.

Open Scope Z_scope.

Lemma shr_1_nonneg (mrs : shr_record) : 0 <= shr_m mrs -> 0 <= shr_m (shr_1 mrs).
Proof.
  destruct mrs as [m r s]. simpl. destruct m as [|p|p]; simpl; try lia.
  - destruct p; simpl; lia.
Qed.

Lemma iter_pos_nonneg (p : positive) (mrs : shr_record) :
  0 <= shr_m mrs -> 0 <= shr_m (SpecFloat.iter_pos shr_1 p mrs).
Proof.
  revert mrs. induction p as [p IH|p IH|]; intros mrs H; simpl.
  - apply IH, IH, shr_1_nonneg, H.
  - apply IH, IH, H.
  - apply shr_1_nonneg, H.
Qed.

Lemma shr_nonneg (mrs : shr_record) (e n : Z) :
  0 <= shr_m mrs -> 0 <= shr_m (fst (shr mrs e n)).
Proof.
  intros H. unfold shr. destruct n; simpl; try exact H.
  apply iter_pos_nonneg, H.
Qed.

Lemma shr_record_of_loc_m (m : Z) (l : location) : shr_m (shr_record_of_loc m l) = m.
Proof. destruct l as [|[]]; reflexivity. Qed.

Lemma shr_fexp_nonneg (prec emax m e : Z) (l : location) :
  0 <= m -> 0 <= shr_m (fst (shr_fexp prec emax m e l)).
Proof.
  intros H. unfold shr_fexp. apply shr_nonneg. rewrite shr_record_of_loc_m. exact H.
Qed.

Lemma round_nearest_even_nonneg (m : Z) (l : location) :
  0 <= m -> 0 <= round_nearest_even m l.
Proof.
  intros H. unfold round_nearest_even. destruct l as [|[]]; try lia.
  destruct (Z.even m); lia.
Qed.

Lemma binary_round_aux_nonneg (prec emax mx ex : Z) (lx : location) :
  0 <= mx -> PyFloat.SFnonneg (binary_round_aux prec emax false mx ex lx) = true.
Proof.
  intros H. unfold binary_round_aux.
  pose proof (shr_fexp_nonneg prec emax mx ex lx H) as H1.
  destruct (shr_fexp prec emax mx ex lx) as [mrs' e']. simpl in H1.
  pose proof (shr_fexp_nonneg prec emax _ e' loc_Exact
                (round_nearest_even_nonneg _ (loc_of_shr_record mrs') H1)) as H2.
  destruct (shr_fexp prec emax _ e' loc_Exact) as [mrs'' e'']. simpl in H2.
  destruct (shr_m mrs'') as [|p|p]; try reflexivity.
  - destruct (e'' <=? emax - prec); reflexivity.
  - lia.
Qed.

Lemma SFadd_nonneg (a b : spec_float) :
  PyFloat.SFnonneg a = true -> PyFloat.SFnonneg b = true -> PyFloat.SFnonneg (SF64add a b) = true.
Proof.
  destruct a as [sa|sa| |sa ma ea]; destruct b as [sb|sb| |sb mb eb]; simpl;
    try discriminate; try (destruct sa; try discriminate); try (destruct sb; try discriminate);
    try reflexivity; intros _ _.
  unfold SF64add, SFadd. cbn [cond_Zopp].
  set (ez := Z.min ea eb).
  change (Z.pos (fst (shl_align ma ea ez)) + Z.pos (fst (shl_align mb eb ez)))
    with (Z.pos (fst (shl_align ma ea ez) + fst (shl_align mb eb ez))).
  cbn [binary_normalize]. unfold binary_round.
  destruct (shl_align _ _ _) as [mz ez']. apply binary_round_aux_nonneg. lia.
Qed.

Lemma SFdiv_nonneg (a d : spec_float) :
  PyFloat.SFnonneg a = true -> PyFloat.SFpos_finite d = true -> PyFloat.SFnonneg (SF64div a d) = true.
Proof.
  destruct d as [sd|sd| |sd md ed]; simpl; try discriminate.
  destruct sd; try discriminate. intros Ha _.
  destruct a as [sa|sa| |sa ma ea]; simpl in *; try discriminate.
  - reflexivity.
  - destruct sa; [discriminate|reflexivity].
  - destruct sa; [discriminate|].
    unfold SF64div, SFdiv. cbn [xorb].
    unfold SFdiv_core_binary.
    set (m' := match _ with Zpos _ => _ | Z0 => _ | Zneg _ => _ end).
    assert (Hm' : 0 <= m').
    { subst m'. destruct (ea - ed - _); try lia. apply Z.shiftl_nonneg. lia. }
    pose proof (Z.div_pos m' (Zpos md) Hm' ltac:(lia)) as Hq.
    unfold Z.div in Hq.
    destruct (Z.div_eucl m' (Z.pos md)) as [q r].
    apply binary_round_aux_nonneg. exact Hq.
Qed.

Lemma digits2_pos_size (m : positive) : digits2_pos m = Pos.size m.
Proof. induction m; simpl; congruence. Qed.

Lemma nonneg_spec (x : float) :
  PyFloat.nonneg x = PyFloat.SFnonneg (Prim2SF x).
Proof.
  unfold PyFloat.nonneg. rewrite leb_spec.
  change (Prim2SF 0%float) with (S754_zero false).
  destruct (Prim2SF x) as [sz|si| |sf m e]; try reflexivity.
  - destruct si; reflexivity.
  - destruct sf; reflexivity.
Qed.

Lemma add_nonneg (x y : float) :
  PyFloat.nonneg x = true -> PyFloat.nonneg y = true ->
  PyFloat.nonneg (x + y)%float = true.
Proof. rewrite !nonneg_spec, add_spec. apply SFadd_nonneg. Qed.

Lemma fold_add_nonneg (xs : list float) (t : float) :
  PyFloat.nonneg t = true ->
  (forall x, In x xs -> PyFloat.nonneg x = true) ->
  PyFloat.nonneg (fold_left PrimFloat.add xs t) = true.
Proof.
  revert t. induction xs as [|x xs IH]; intros t Ht Hall; simpl; [exact Ht|].
  apply IH.
  - apply add_nonneg; [exact Ht|]. apply Hall. left. reflexivity.
  - intros y Hy. apply Hall. right. exact Hy.
Qed.

Lemma sum_nonneg (xs : list float) :
  (forall x, In x xs -> PyFloat.nonneg x = true) ->
  PyFloat.nonneg (PyFloat.sum xs) = true.
Proof. apply fold_add_nonneg. reflexivity. Qed.

End PyFloatSign.

(** ** Float arithmetic: rounding keeps magnitudes within powers of two *)

Module Rounding.

Open Scope Z_scope.

Lemma pow2_pos (a : Z) : 0 <= a -> 0 < 2 ^ a.
Proof. intros H. apply Z.pow_pos_nonneg; lia. Qed.

Lemma pow2_nonneg (a : Z) : 0 <= 2 ^ a.
Proof. apply Z.pow_nonneg. lia. Qed.

Lemma pow2_neg (a : Z) : a < 0 -> 2 ^ a = 0.
Proof. apply Z.pow_neg_r. Qed.

Lemma pow2_add (a b : Z) : 0 <= a -> 0 <= b -> 2 ^ (a + b) = 2 ^ a * 2 ^ b.
Proof. intros. apply Z.pow_add_r; assumption. Qed.

Lemma pow2_le (a b : Z) : a <= b -> 2 ^ a <= 2 ^ b.
Proof.
  intros H. destruct (Z_lt_le_dec a 0) as [Ha|Ha].
  - rewrite (pow2_neg a Ha). apply pow2_nonneg.
  - apply Z.pow_le_mono_r; lia.
Qed.

Lemma pow2_lt (a b : Z) : 0 <= b -> a < b -> 2 ^ a < 2 ^ b.
Proof.
  intros Hb H. destruct (Z_lt_le_dec a 0) as [Ha|Ha].
  - rewrite (pow2_neg a Ha). apply pow2_pos. exact Hb.
  - apply Z.pow_lt_mono_r; lia.
Qed.

Lemma pow2_le_inv (a b : Z) : 0 <= a -> 2 ^ a <= 2 ^ b -> a <= b.
Proof.
  intros Ha H. destruct (Z_lt_le_dec b a) as [Hlt|]; [exfalso|assumption].
  pose proof (pow2_lt b a Ha Hlt). lia.
Qed.

Lemma pow2_lt_inv (a b : Z) : 2 ^ a < 2 ^ b -> a < b.
Proof.
  intros H. destruct (Z_lt_le_dec a b) as [|Hle]; [assumption|exfalso].
  pose proof (pow2_le b a Hle). lia.
Qed.

Lemma pow2_succ (a : Z) : 0 <= a -> 2 ^ (a + 1) = 2 * 2 ^ a.
Proof. intros H. rewrite pow2_add by lia. change (2 ^ 1) with 2. lia. Qed.

(** Division of a power of two by a smaller one. *)
Lemma pow2_div (a n : Z) : 0 <= n <= a -> 2 ^ a / 2 ^ n = 2 ^ (a - n).
Proof.
  intros H. replace a with ((a - n) + n) at 1 by lia.
  rewrite pow2_add by lia. apply Z.div_mul.
  pose proof (pow2_pos n). lia.
Qed.

Lemma div_pow2_ge (m a n : Z) :
  0 <= n -> 2 ^ a <= m -> 2 ^ (a - n) <= m / 2 ^ n.
Proof.
  intros Hn Hm. destruct (Z_lt_le_dec a n) as [Hlt|Hle].
  - rewrite (pow2_neg (a - n)) by lia.
    apply Z.div_pos; [|apply pow2_pos; lia].
    pose proof (pow2_nonneg a). lia.
  - rewrite <- pow2_div by lia.
    apply Z.div_le_mono; [apply pow2_pos; lia|exact Hm].
Qed.

Lemma div_pow2_lt (m a n : Z) :
  0 <= n <= a -> m < 2 ^ a -> m / 2 ^ n < 2 ^ (a - n).
Proof.
  intros Hn Hm. apply Z.div_lt_upper_bound; [apply pow2_pos; lia|].
  rewrite <- pow2_add by lia. replace (n + (a - n)) with a by lia. exact Hm.
Qed.

(** *** Number of binary digits *)

Lemma Zdigits2_log2 (m : Z) : 0 < m -> Zdigits2 m = Z.log2 m + 1.
Proof.
  destruct m as [|p|p]; try lia. intros _. simpl.
  destruct p; simpl; rewrite ?PyFloatSign.digits2_pos_size; lia.
Qed.

Lemma Zdigits2_nonneg (m : Z) : 0 <= Zdigits2 m.
Proof. destruct m; simpl; lia. Qed.

Lemma Zdigits2_bounds (m : Z) :
  0 < m -> 2 ^ (Zdigits2 m - 1) <= m < 2 ^ Zdigits2 m.
Proof.
  intros Hm. rewrite (Zdigits2_log2 m Hm).
  replace (Z.log2 m + 1 - 1) with (Z.log2 m) by lia.
  pose proof (Z.log2_spec m Hm) as H. unfold Z.succ in H. exact H.
Qed.

Lemma Zdigits2_le (m a : Z) : 0 < m -> m < 2 ^ a -> Zdigits2 m <= a.
Proof.
  intros Hm H. pose proof (Zdigits2_bounds m Hm) as [Hlo _].
  assert (Hlt : 2 ^ (Zdigits2 m - 1) < 2 ^ a) by lia.
  apply pow2_lt_inv in Hlt. lia.
Qed.

Lemma Zdigits2_ge (m a : Z) : 0 < m -> 2 ^ a <= m -> a + 1 <= Zdigits2 m.
Proof.
  intros Hm H. pose proof (Zdigits2_bounds m Hm) as [_ Hhi].
  assert (Hlt : 2 ^ a < 2 ^ Zdigits2 m) by lia.
  apply pow2_lt_inv in Hlt. lia.
Qed.

(** *** Right shifts with a rounding record *)

Lemma shr_1_m (mrs : shr_record) :
  0 <= shr_m mrs -> shr_m (shr_1 mrs) = shr_m mrs / 2.
Proof.
  destruct mrs as [m r s]. cbn [shr_m]. intros Hm.
  destruct m as [|p|p]; try lia; [reflexivity|].
  destruct p as [p|p|]; cbn [shr_1 shr_m].
  - rewrite Pos2Z.inj_xI. apply (Z.div_unique _ _ _ 1); lia.
  - rewrite Pos2Z.inj_xO. apply (Z.div_unique _ _ _ 0); lia.
  - reflexivity.
Qed.

Lemma shr_1_r (mrs : shr_record) :
  0 <= shr_m mrs -> shr_r (shr_1 mrs) = Z.testbit (shr_m mrs) 0.
Proof.
  destruct mrs as [m r s]. cbn [shr_m]. intros Hm.
  destruct m as [|p|p]; try lia; [reflexivity|].
  destruct p as [p|p|]; reflexivity.
Qed.

Lemma iter_shr_1 (p : positive) (mrs : shr_record) :
  0 <= shr_m mrs ->
  shr_m (SpecFloat.iter_pos shr_1 p mrs) = shr_m mrs / 2 ^ Z.pos p /\
  shr_r (SpecFloat.iter_pos shr_1 p mrs) = Z.testbit (shr_m mrs) (Z.pos p - 1).
Proof.
  revert mrs. induction p as [p IH|p IH|]; intros mrs Hm; cbn [SpecFloat.iter_pos].
  - pose proof (shr_1_m mrs Hm) as H1.
    assert (H1pos : 0 <= shr_m (shr_1 mrs))
      by (rewrite H1; apply Z.div_pos; lia).
    destruct (IH (shr_1 mrs) H1pos) as [Hm2 Hr2].
    assert (H2pos : 0 <= shr_m (SpecFloat.iter_pos shr_1 p (shr_1 mrs))).
    { rewrite Hm2. apply Z.div_pos; [lia|apply pow2_pos; lia]. }
    destruct (IH _ H2pos) as [Hm3 Hr3].
    pose proof (pow2_pos (Z.pos p) ltac:(lia)) as Hp.
    split.
    + rewrite Hm3, Hm2, H1.
      rewrite !Z.div_div by lia.
      f_equal.
      assert (E : 2 ^ Z.pos p~1 = 2 * 2 ^ Z.pos p * 2 ^ Z.pos p).
      { replace (Z.pos p~1) with (1 + Z.pos p + Z.pos p) by lia.
        rewrite !pow2_add by lia. reflexivity. }
      rewrite E. lia.
    + rewrite Hr3, Hm2, H1.
      rewrite Z.div_pow2_bits by lia.
      change 2 with (2 ^ 1) at 1. rewrite Z.div_pow2_bits by lia.
      f_equal. lia.
  - destruct (IH mrs Hm) as [Hm2 Hr2].
    assert (H2pos : 0 <= shr_m (SpecFloat.iter_pos shr_1 p mrs)).
    { rewrite Hm2. apply Z.div_pos; [lia|apply pow2_pos; lia]. }
    destruct (IH _ H2pos) as [Hm3 Hr3].
    pose proof (pow2_pos (Z.pos p) ltac:(lia)) as Hp.
    split.
    + rewrite Hm3, Hm2. rewrite Z.div_div by lia.
      f_equal.
      assert (E : 2 ^ Z.pos p~0 = 2 ^ Z.pos p * 2 ^ Z.pos p).
      { replace (Z.pos p~0) with (Z.pos p + Z.pos p) by lia.
        rewrite pow2_add by lia. reflexivity. }
      rewrite E. reflexivity.
    + rewrite Hr3, Hm2. rewrite Z.div_pow2_bits by lia. f_equal. lia.
  - split.
    + rewrite shr_1_m by exact Hm. reflexivity.
    + rewrite shr_1_r by exact Hm. reflexivity.
Qed.

Lemma shr_spec (mrs : shr_record) (e n : Z) :
  0 <= shr_m mrs -> 0 <= n ->
  snd (shr mrs e n) = e + n /\
  shr_m (fst (shr mrs e n)) = shr_m mrs / 2 ^ n /\
  (0 < n -> shr_r (fst (shr mrs e n)) = Z.testbit (shr_m mrs) (n - 1)) /\
  (n = 0 -> fst (shr mrs e n) = mrs).
Proof.
  intros Hm Hn. destruct n as [|p|p]; try lia; cbn [shr fst snd].
  - repeat split; try lia. rewrite Z.div_1_r. reflexivity.
  - destruct (iter_shr_1 p mrs Hm) as [H1 H2].
    repeat split; try assumption; try lia. intros _. exact H2.
Qed.

Lemma rne_bounds (mrs : shr_record) :
  shr_m mrs <= round_nearest_even (shr_m mrs) (loc_of_shr_record mrs)
            <= shr_m mrs + 1.
Proof.
  destruct mrs as [m [] []]; cbn [shr_m loc_of_shr_record round_nearest_even];
    try destruct (Z.even m); lia.
Qed.

Lemma rne_low (mrs : shr_record) :
  shr_r mrs = false ->
  round_nearest_even (shr_m mrs) (loc_of_shr_record mrs) = shr_m mrs.
Proof.
  destruct mrs as [m [] []]; cbn [shr_r]; intros H; try discriminate;
    reflexivity.
Qed.

Lemma shr_record_of_loc_r (m : Z) (l : location) :
  Ieee.below_half l = true -> shr_r (shr_record_of_loc m l) = false.
Proof. destruct l as [|[]]; simpl; congruence. Qed.

Section Bounds.

Variables prc emx : Z.
Hypothesis prc_pos : 0 < prc.
Hypothesis emx_gt : prc < emx.

Local Abbreviation emin := (SpecFloat.emin prc emx).
Local Abbreviation fexp := (SpecFloat.fexp prc emx).

Lemma fexp_ge_emin (e : Z) : emin <= fexp e.
Proof. unfold SpecFloat.fexp. lia. Qed.

Lemma fexp_mono (e e' : Z) : e <= e' -> fexp e <= fexp e'.
Proof. unfold SpecFloat.fexp. lia. Qed.

(** Second stage of [binary_round_aux]: the rounded mantissa is renormalised
    when the rounding carried into a new digit. *)
Lemma second_stage (s : bool) (m_r fe : Z) :
  0 <= m_r <= 2 ^ prc -> emin <= fe ->
  let res :=
    let '(mrs'', e'') := shr_fexp prc emx m_r fe loc_Exact in
    match shr_m mrs'' with
    | Z0 => S754_zero s
    | Zpos m => if e'' <=? emx - prc then S754_finite s m e''
                else S754_infinity s
    | Zneg _ => S754_nan
    end in
  (m_r = 0 /\ res = S754_zero s) \/
  (exists m e,
     Z.pos m * 2 ^ (e - fe) = m_r /\ fe <= e /\
     (e = fe \/ 2 ^ (prc - 1) <= Z.pos m) /\
     res = if e <=? emx - prc then S754_finite s m e else S754_infinity s).
Proof.
  intros Hm Hfe. cbv zeta. unfold shr_fexp. cbn [shr_record_of_loc].
  pose proof (pow2_pos prc ltac:(lia)) as Hpp.
  destruct (Z.eq_dec m_r 0) as [H0|H0].
  - left. split; [exact H0|]. subst m_r. cbn [Zdigits2].
    assert (Hn : SpecFloat.fexp prc emx (0 + fe) - fe <= 0)
      by (unfold SpecFloat.fexp; lia).
    destruct (SpecFloat.fexp prc emx (0 + fe) - fe) as [|p|p]; try lia;
      reflexivity.
  - right. assert (Hpos : 0 < m_r) by lia.
    destruct (Z.eq_dec m_r (2 ^ prc)) as [Hc|Hc].
    + (* carry *)
      assert (Hd : Zdigits2 m_r = prc + 1).
      { pose proof (Zdigits2_ge m_r prc Hpos ltac:(lia)).
        pose proof (Zdigits2_le m_r (prc + 1) Hpos
                      ltac:(rewrite pow2_succ by lia; lia)). lia. }
      rewrite Hd.
      assert (Hn : SpecFloat.fexp prc emx (prc + 1 + fe) - fe = 1)
        by (unfold SpecFloat.fexp; lia).
      rewrite Hn. cbn [shr SpecFloat.iter_pos].
      rewrite shr_1_m by (cbn [shr_m]; lia). cbn [shr_m].
      assert (Hhalf : m_r / 2 = 2 ^ (prc - 1)).
      { rewrite Hc. change 2 with (2 ^ 1) at 2. rewrite pow2_div by lia.
        reflexivity. }
      rewrite Hhalf.
      pose proof (pow2_pos (prc - 1) ltac:(lia)) as Hh.
      destruct (2 ^ (prc - 1)) as [|m|m] eqn:Em; try lia.
      exists m, (fe + 1). replace (fe + 1 - fe) with 1 by lia.
      change (2 ^ 1) with 2.
      repeat split; try lia.
      rewrite Hc. replace prc with ((prc - 1) + 1) at 1 by lia.
      rewrite pow2_succ by lia. lia.
    + assert (Hd : Zdigits2 m_r <= prc)
        by (apply Zdigits2_le; [exact Hpos|lia]).
      assert (Hn : SpecFloat.fexp prc emx (Zdigits2 m_r + fe) - fe <= 0)
        by (unfold SpecFloat.fexp; lia).
      destruct m_r as [|m|m]; try lia.
      exists m, fe. rewrite Z.sub_diag. change (2 ^ 0) with 1.
      repeat split; try lia.
      destruct (SpecFloat.fexp prc emx (Zdigits2 (Z.pos m) + fe) - fe)
        as [|p|p]; try lia; reflexivity.
Qed.

(** The shape of the result of [binary_round_aux] on a mantissa that is
    aligned ([ex] is not above the exponent its magnitude asks for): with
    [fe] that exponent and [m'] the mantissa cut to it, the result is the
    number [m_r * 2^fe] for a rounded mantissa [m_r] that is [m'] or
    [m' + 1], and [m'] when less than one half was cut off. *)
Lemma binary_round_aux_shape (s : bool) (mx ex : Z) (lx : location) :
  0 <= mx ->
  ex <= fexp (Zdigits2 mx + ex) ->
  exists m_r,
    mx / 2 ^ (fexp (Zdigits2 mx + ex) - ex) <= m_r
      <= mx / 2 ^ (fexp (Zdigits2 mx + ex) - ex) + 1 /\
    ((if fexp (Zdigits2 mx + ex) - ex =? 0 then Ieee.below_half lx
      else negb (Z.testbit mx (fexp (Zdigits2 mx + ex) - ex - 1))) = true ->
     m_r = mx / 2 ^ (fexp (Zdigits2 mx + ex) - ex)) /\
    ((m_r = 0 /\ binary_round_aux prc emx s mx ex lx = S754_zero s) \/
     (exists m e,
        Z.pos m * 2 ^ (e - fexp (Zdigits2 mx + ex)) = m_r /\
        fexp (Zdigits2 mx + ex) <= e /\
        (e = emin \/ 2 ^ (prc - 1) <= Z.pos m) /\
        binary_round_aux prc emx s mx ex lx
        = if e <=? emx - prc then S754_finite s m e else S754_infinity s)).
Proof.
  intros Hmx Hal.
  set (fe := fexp (Zdigits2 mx + ex)) in *.
  set (n := fe - ex).
  assert (Hn : 0 <= n) by (unfold n; lia).
  destruct (shr_spec (shr_record_of_loc mx lx) ex n
              ltac:(rewrite PyFloatSign.shr_record_of_loc_m; exact Hmx) Hn)
    as (He' & Hm' & Hr' & Hid).
  rewrite PyFloatSign.shr_record_of_loc_m in Hm', Hr'.
  set (mrs' := fst (shr (shr_record_of_loc mx lx) ex n)) in *.
  assert (Hshr : shr_fexp prc emx mx ex lx = (mrs', fe)).
  { unfold shr_fexp. fold fe. fold n. unfold mrs'.
    rewrite (surjective_pairing (shr (shr_record_of_loc mx lx) ex n)) at 1.
    f_equal. rewrite He'. unfold n. lia. }
  unfold binary_round_aux. rewrite Hshr. clear He' Hshr.
  set (m_r := round_nearest_even (shr_m mrs') (loc_of_shr_record mrs')).
  pose proof (rne_bounds mrs') as Hb. fold m_r in Hb. rewrite Hm' in Hb.
  pose proof (pow2_pos n Hn) as Hpn.
  assert (Hm'pos : 0 <= mx / 2 ^ n) by (apply Z.div_pos; lia).
  (* the cut mantissa has at most [prc] digits *)
  assert (Hm'lt : mx / 2 ^ n < 2 ^ prc).
  { destruct (Z.eq_dec mx 0) as [->|Hnz].
    - rewrite Z.div_0_l by lia. apply pow2_pos. lia.
    - pose proof (Zdigits2_bounds mx ltac:(lia)) as [_ Hhi].
      pose proof (Zdigits2_nonneg mx) as Hd0.
      assert (Hfe1 : Zdigits2 mx + ex - prc <= fe)
        by (unfold fe, SpecFloat.fexp; lia).
      destruct (Z_lt_le_dec (Zdigits2 mx) n) as [Hlt|Hle].
      + rewrite Z.div_small; [apply pow2_pos; lia|].
        split; [lia|]. pose proof (pow2_le (Zdigits2 mx) n ltac:(lia)). lia.
      + pose proof (div_pow2_lt mx (Zdigits2 mx) n ltac:(lia) Hhi) as H.
        pose proof (pow2_le (Zdigits2 mx - n) prc ltac:(unfold n; lia)). lia. }
  (* normal results keep [prc] digits *)
  assert (Hnorm : fe = emin \/ 2 ^ (prc - 1) <= mx / 2 ^ n).
  { destruct (Z.eq_dec fe emin) as [|Hne]; [left; assumption|right].
    assert (Hfe : fe = Zdigits2 mx + ex - prc)
      by (unfold fe, SpecFloat.fexp in *; lia).
    destruct (Z.eq_dec mx 0) as [->|Hnz].
    - exfalso. cbn [Zdigits2] in Hfe. unfold n in Hn. lia.
    - pose proof (Zdigits2_bounds mx ltac:(lia)) as [Hlo _].
      pose proof (div_pow2_ge mx (Zdigits2 mx - 1) n Hn Hlo) as H.
      replace (Zdigits2 mx - 1 - n) with (prc - 1) in H by (unfold n; lia).
      exact H. }
  exists m_r. split; [exact Hb|]. split.
  - intros Hlow. unfold m_r. rewrite <- Hm'. apply rne_low.
    destruct (n =? 0) eqn:En.
    + apply Z.eqb_eq in En. rewrite (Hid En).
      apply shr_record_of_loc_r. exact Hlow.
    + apply Z.eqb_neq in En. rewrite Hr' by lia.
      apply negb_true_iff in Hlow. exact Hlow.
  - destruct (second_stage s m_r fe ltac:(lia) (fexp_ge_emin _))
      as [[H0 Hres]|(m & e & Hv & Hle & Hcan & Hres)].
    + left. split; [exact H0|exact Hres].
    + right. exists m, e. split; [exact Hv|]. split; [exact Hle|].
      split; [|exact Hres].
      destruct Hcan as [->|Hbig]; [|right; exact Hbig].
      rewrite Z.sub_diag in Hv. change (2 ^ 0) with 1 in Hv.
      destruct Hnorm as [|Hbig]; [left; assumption|right]. lia.
Qed.


Lemma emin_le_emax : emin <= emx - prc.
Proof. unfold SpecFloat.emin. lia. Qed.

(** What is left to show once the rounded mantissa is bounded. *)
Lemma packed_le (s : bool) (m : positive) (e fe K : Z) :
  K <= emx - 1 -> fe <= e ->
  (e = emin \/ 2 ^ (prc - 1) <= Z.pos m) ->
  Z.pos m * 2 ^ (e - fe) <= 2 ^ (K - fe) ->
  Ieee.mag_le K (if e <=? emx - prc then S754_finite s m e
                 else S754_infinity s) = true.
Proof.
  intros HK Hle Hcan Hb.
  pose proof (pow2_pos (e - fe) ltac:(lia)) as Hp.
  assert (HeK : e <= K).
  { destruct (Z_lt_le_dec K e) as [Hlt|]; [exfalso|assumption].
    pose proof (pow2_lt (K - fe) (e - fe) ltac:(lia) ltac:(lia)). nia. }
  assert (Hm : Z.pos m <= 2 ^ (K - e)).
  { replace (K - fe) with ((K - e) + (e - fe)) in Hb by lia.
    rewrite pow2_add in Hb by lia.
    apply (Z.mul_le_mono_pos_r _ _ (2 ^ (e - fe))); assumption. }
  assert (Hfin : e <= emx - prc).
  { destruct Hcan as [->|Hbig]; [apply emin_le_emax|].
    assert (H : 2 ^ (prc - 1) <= 2 ^ (K - e)) by lia.
    apply pow2_le_inv in H; lia. }
  apply Z.leb_le in Hfin. rewrite Hfin. cbn [Ieee.mag_le].
  apply Z.leb_le. exact Hm.
Qed.

Lemma testbit_pow2_plus (a k d : Z) :
  0 <= k < a -> 0 <= d < 2 ^ k -> Z.testbit (2 ^ a + d) k = false.
Proof.
  intros Hk Hd. rewrite Z.testbit_odd, Z.shiftr_div_pow2 by lia.
  assert (E : (2 ^ a + d) / 2 ^ k = 2 ^ (a - k)).
  { symmetry. apply (Z.div_unique _ _ _ d); [left; exact Hd|].
    rewrite <- pow2_add by lia. f_equal. f_equal. lia. }
  rewrite E. rewrite <- Z.negb_even. rewrite Z.even_pow by lia. reflexivity.
Qed.

(** Rounding does not go above a power of two that is a normal number: a
    value below [2^K] is rounded to at most [2^K], and so is an exactly known
    value that exceeds [2^K] by at most a quarter of the spacing above
    it. *)
Lemma binary_round_aux_le (s : bool) (mx ex : Z) (lx : location) (K : Z) :
  0 <= mx ->
  ex <= fexp (Zdigits2 mx + ex) ->
  emin + prc - 1 <= K <= emx - 1 ->
  (mx < 2 ^ (K - ex) \/
   (lx = loc_Exact /\ mx <= 2 ^ (K - ex) + 2 ^ (K - ex - prc - 1))) ->
  Ieee.mag_le K (binary_round_aux prc emx s mx ex lx) = true.
Proof.
  intros Hmx Hal HK Hb.
  destruct (binary_round_aux_shape s mx ex lx Hmx Hal)
    as (m_r & Hr & Hlow & Hres).
  set (fe := fexp (Zdigits2 mx + ex)) in *.
  set (n := fe - ex) in *.
  assert (Hn : 0 <= n) by (unfold n; lia).
  assert (Hemin : emin <= fe) by apply fexp_ge_emin.
  assert (Hgoal : m_r = 0 \/ (fe <= K /\ m_r <= 2 ^ (K - fe))).
  { destruct (Z_lt_le_dec mx (2 ^ (K - ex))) as [Hlt|Hge].
    - (* below the bound *)
      right.
      assert (Ha : 0 <= K - ex).
      { destruct (Z_lt_le_dec (K - ex) 0) as [Hneg|]; [|assumption].
        rewrite (pow2_neg _ Hneg) in Hlt. lia. }
      assert (HfeK : fe <= K).
      { destruct (Z.eq_dec mx 0) as [E0|Hnz].
        - unfold fe. rewrite E0. cbn [Zdigits2]. unfold SpecFloat.fexp. lia.
        - pose proof (Zdigits2_le mx (K - ex) ltac:(lia) Hlt).
          unfold fe, SpecFloat.fexp. lia. }
      split; [exact HfeK|].
      pose proof (div_pow2_lt mx (K - ex) n ltac:(unfold n; lia) Hlt) as H.
      replace (K - ex - n) with (K - fe) in H by (unfold n; lia). lia.
    - destruct Hb as [Hlt|[-> Hb]]; [lia|].
      destruct (Z_lt_le_dec (K - ex) 0) as [Hneg|Ha].
      + (* the mantissa is zero *)
        left. rewrite (pow2_neg _ Hneg) in Hb.
        rewrite (pow2_neg (K - ex - prc - 1)) in Hb by lia.
        assert (E0 : mx = 0) by lia.
        rewrite Hlow; [rewrite E0; apply Z.div_0_l;
                       pose proof (pow2_pos n Hn); lia|].
        destruct (n =? 0); [reflexivity|].
        rewrite E0, Z.testbit_0_l. reflexivity.
      + (* just above the bound *)
        right.
        pose proof (pow2_pos (K - ex) Ha) as Hpa.
        assert (Hq : 2 ^ (K - ex - prc - 1) < 2 ^ (K - ex))
          by (apply pow2_lt; lia).
        assert (Hd : Zdigits2 mx = K - ex + 1).
        { pose proof (Zdigits2_ge mx (K - ex) ltac:(lia) Hge).
          pose proof (Zdigits2_le mx (K - ex + 1) ltac:(lia)
                        ltac:(rewrite pow2_succ by lia; lia)). lia. }
        assert (Hfe : fe = K + 1 - prc)
          by (unfold fe, SpecFloat.fexp; rewrite Hd; lia).
        assert (En : n = K - ex + 1 - prc) by (unfold n; lia).
        split; [lia|].
        replace (K - fe) with (prc - 1) by lia.
        set (d := mx - 2 ^ (K - ex)).
        assert (Hd0 : 0 <= d) by (unfold d; lia).
        assert (Hd1 : d <= 2 ^ (n - 2))
          by (unfold d; replace (n - 2) with (K - ex - prc - 1) by lia; lia).
        assert (Hdn : forall k, n - 1 <= k -> 0 <= k -> d < 2 ^ k).
        { intros k Hk Hk0. destruct (Z_lt_le_dec (n - 2) 0) as [Hs|Hs].
          - rewrite (pow2_neg _ Hs) in Hd1.
            pose proof (pow2_pos k Hk0). lia.
          - pose proof (pow2_lt (n - 2) k Hk0 ltac:(lia)). lia. }
        assert (Em' : mx / 2 ^ n = 2 ^ (prc - 1)).
        { symmetry. apply (Z.div_unique _ _ _ d).
          - left. split; [exact Hd0|]. apply Hdn; lia.
          - rewrite <- pow2_add by lia.
            replace (n + (prc - 1)) with (K - ex) by lia. unfold d. lia. }
        rewrite Hlow; [lia|].
        destruct (n =? 0) eqn:E0; [reflexivity|].
        apply Z.eqb_neq in E0. apply negb_true_iff.
        replace mx with (2 ^ (K - ex) + d) by (unfold d; lia).
        apply testbit_pow2_plus; [lia|].
        split; [exact Hd0|]. apply Hdn; lia. }
  destruct Hres as [[_ ->]|(m & e & Hv & Hle & Hcan & ->)]; [reflexivity|].
  destruct Hgoal as [H0|[HfeK Hm]].
  - exfalso. pose proof (pow2_pos (e - fe) ltac:(lia)). nia.
  - apply (packed_le s m e fe K); try assumption; lia.
Qed.

(** Rounding does not go below a power of two that is at least the least
    positive number. *)
Lemma binary_round_aux_ge (s : bool) (mx ex : Z) (lx : location) (J : Z) :
  0 < mx ->
  ex <= fexp (Zdigits2 mx + ex) ->
  emin <= J ->
  2 ^ (J - ex) <= mx ->
  Ieee.mag_ge J (binary_round_aux prc emx s mx ex lx) = true.
Proof.
  intros Hmx Hal HJ Hb.
  destruct (binary_round_aux_shape s mx ex lx ltac:(lia) Hal)
    as (m_r & Hr & _ & Hres).
  set (fe := fexp (Zdigits2 mx + ex)) in *.
  set (n := fe - ex) in *.
  assert (Hn : 0 <= n) by (unfold n; lia).
  pose proof (div_pow2_ge mx (J - ex) n Hn Hb) as H1.
  replace (J - ex - n) with (J - fe) in H1 by (unfold n; lia).
  assert (Hpos : 1 <= mx / 2 ^ n).
  { destruct (Z_lt_le_dec J fe) as [Hlt|Hle].
    - assert (Hfe : fe = Zdigits2 mx + ex - prc)
        by (unfold fe, SpecFloat.fexp in *; lia).
      pose proof (Zdigits2_bounds mx Hmx) as [Hlo _].
      pose proof (div_pow2_ge mx (Zdigits2 mx - 1) n Hn Hlo) as H.
      replace (Zdigits2 mx - 1 - n) with (prc - 1) in H by (unfold n; lia).
      pose proof (pow2_pos (prc - 1) ltac:(lia)). lia.
    - pose proof (pow2_pos (J - fe) ltac:(lia)). lia. }
  destruct Hres as [[H0 _]|(m & e & Hv & Hle & _ & ->)]; [lia|].
  destruct (e <=? emx - prc); [|reflexivity].
  cbn [Ieee.mag_ge]. apply Z.leb_le.
  destruct (Z_lt_le_dec (J - e) 0) as [Hneg|Hge].
  - rewrite (pow2_neg _ Hneg). lia.
  - pose proof (pow2_pos (e - fe) ltac:(lia)) as Hp.
    apply (Z.mul_le_mono_pos_r _ _ (2 ^ (e - fe))); [exact Hp|].
    rewrite <- pow2_add by lia.
    replace (J - e + (e - fe)) with (J - fe) by lia. lia.
Qed.


(** *** Alignment *)

Lemma iter_xO_value (m d : positive) :
  Z.pos (Pos.iter xO m d) = Z.pos m * 2 ^ Z.pos d.
Proof.
  induction d as [|d IH] using Pos.peano_ind.
  - cbn [Pos.iter]. change (2 ^ 1) with 2. lia.
  - rewrite Pos.iter_succ, Pos2Z.inj_xO, IH, Pos2Z.inj_succ.
    unfold Z.succ. rewrite pow2_succ by lia. lia.
Qed.

Lemma shl_align_spec (mx : positive) (ex ex' : Z) :
  snd (shl_align mx ex ex') = Z.min ex ex' /\
  Z.pos (fst (shl_align mx ex ex'))
  = Z.pos mx * 2 ^ (ex - Z.min ex ex').
Proof.
  unfold shl_align. destruct (ex' - ex) as [|d|d] eqn:E; cbn [fst snd].
  - replace (Z.min ex ex') with ex by lia. rewrite Z.sub_diag. lia.
  - replace (Z.min ex ex') with ex by lia. rewrite Z.sub_diag. lia.
  - replace (Z.min ex ex') with ex' by lia.
    replace (ex - ex') with (Z.pos d) by lia.
    split; [reflexivity|apply iter_xO_value].
Qed.

Lemma Zdigits2_shift (m k : Z) :
  0 < m -> 0 <= k -> Zdigits2 (m * 2 ^ k) = Zdigits2 m + k.
Proof.
  intros Hm Hk. pose proof (Zdigits2_bounds m Hm) as [Hlo Hhi].
  pose proof (pow2_pos k Hk) as Hp.
  pose proof (Zdigits2_nonneg m) as Hd.
  assert (Hd1 : 1 <= Zdigits2 m)
    by (destruct m; try lia; simpl; lia).
  assert (Hpos : 0 < m * 2 ^ k) by nia.
  pose proof (Zdigits2_ge (m * 2 ^ k) (Zdigits2 m - 1 + k) Hpos
                ltac:(rewrite pow2_add by lia; nia)).
  pose proof (Zdigits2_le (m * 2 ^ k) (Zdigits2 m + k) Hpos
                ltac:(rewrite pow2_add by lia; nia)).
  lia.
Qed.

Lemma pow2_mul_le (a k : Z) : 0 <= k -> 2 ^ a * 2 ^ k <= 2 ^ (a + k).
Proof.
  intros Hk. destruct (Z_lt_le_dec a 0) as [Ha|Ha].
  - rewrite (pow2_neg a Ha). pose proof (pow2_nonneg (a + k)). lia.
  - rewrite pow2_add by lia. lia.
Qed.

(** The mantissa and exponent [binary_round] hands to [binary_round_aux]. *)
Lemma binary_round_aligned (s : bool) (m : positive) (e : Z) :
  exists mz ez,
    binary_round prc emx s m e
    = binary_round_aux prc emx s (Z.pos mz) ez loc_Exact /\
    ez <= e /\
    Z.pos mz = Z.pos m * 2 ^ (e - ez) /\
    ez <= fexp (Zdigits2 (Z.pos mz) + ez).
Proof.
  unfold binary_round.
  pose proof (shl_align_spec m e (fexp (Z.pos (digits2_pos m) + e)))
    as [He Hm].
  destruct (shl_align m e (fexp (Z.pos (digits2_pos m) + e))) as [mz ez].
  cbn [fst snd] in He, Hm.
  exists mz, ez. split; [reflexivity|]. split; [lia|].
  split; [rewrite Hm, He; reflexivity|].
  rewrite Hm, Zdigits2_shift by lia.
  change (Zdigits2 (Z.pos m)) with (Z.pos (digits2_pos m)).
  replace (Z.pos (digits2_pos m) + (e - Z.min e (fexp (Z.pos (digits2_pos m) + e)))
           + ez)
    with (Z.pos (digits2_pos m) + e) by lia.
  lia.
Qed.

Lemma binary_round_le (s : bool) (m : positive) (e K : Z) :
  emin + prc - 1 <= K <= emx - 1 ->
  Z.pos m <= 2 ^ (K - e) + 2 ^ (K - e - prc - 1) ->
  Ieee.mag_le K (binary_round prc emx s m e) = true.
Proof.
  intros HK Hb.
  destruct (binary_round_aligned s m e) as (mz & ez & -> & Hez & Hmz & Hal).
  apply binary_round_aux_le; [lia|exact Hal|exact HK|].
  right. split; [reflexivity|]. rewrite Hmz.
  pose proof (pow2_pos (e - ez) ltac:(lia)) as Hp.
  pose proof (pow2_mul_le (K - e) (e - ez) ltac:(lia)) as H1.
  pose proof (pow2_mul_le (K - e - prc - 1) (e - ez) ltac:(lia)) as H2.
  replace (K - e + (e - ez)) with (K - ez) in H1 by lia.
  replace (K - e - prc - 1 + (e - ez)) with (K - ez - prc - 1) in H2 by lia.
  nia.
Qed.

Lemma pow2_mul_ge (m a k : Z) :
  1 <= m -> 0 <= k -> 2 ^ a <= m -> 2 ^ (a + k) <= m * 2 ^ k.
Proof.
  intros Hm Hk H. pose proof (pow2_pos k Hk) as Hp.
  destruct (Z_lt_le_dec a 0) as [Ha|Ha].
  - pose proof (pow2_le (a + k) k ltac:(lia)). nia.
  - rewrite pow2_add by lia. nia.
Qed.

Lemma binary_round_ge (s : bool) (m : positive) (e J : Z) :
  emin <= J ->
  2 ^ (J - e) <= Z.pos m ->
  Ieee.mag_ge J (binary_round prc emx s m e) = true.
Proof.
  intros HJ Hb.
  destruct (binary_round_aligned s m e) as (mz & ez & -> & Hez & Hmz & Hal).
  apply binary_round_aux_ge; [lia|exact Hal|exact HJ|].
  rewrite Hmz.
  pose proof (pow2_mul_ge (Z.pos m) (J - e) (e - ez) ltac:(lia) ltac:(lia) Hb)
    as H.
  replace (J - e + (e - ez)) with (J - ez) in H by lia. exact H.
Qed.

Lemma binary_normalize_le (m e : Z) (szero : bool) (K : Z) :
  emin + prc - 1 <= K <= emx - 1 ->
  Z.abs m <= 2 ^ (K - e) + 2 ^ (K - e - prc - 1) ->
  Ieee.mag_le K (binary_normalize prc emx m e szero) = true.
Proof.
  intros HK Hb. destruct m as [|p|p]; cbn [binary_normalize].
  - reflexivity.
  - apply binary_round_le; [exact HK|]. exact Hb.
  - apply binary_round_le; [exact HK|]. exact Hb.
Qed.

(** *** Sums *)

(** The magnitude of a sum whose first operand is at most [2^K] and whose
    second is at most [2^(K - prc - 1)], a quarter of the spacing of the
    numbers above [2^K], is at most [2^K]: the sum is never rounded past
    [2^K]. *)
Lemma SFadd_le (x y : spec_float) (K : Z) :
  emin + prc - 1 <= K <= emx - 1 ->
  Ieee.mag_le K x = true ->
  Ieee.mag_le (K - prc - 1) y = true ->
  Ieee.mag_le K (SFadd prc emx x y) = true.
Proof.
  intros HK Hx Hy.
  destruct x as [sx|sx| |sx mx ex]; try discriminate;
    destruct y as [sy|sy| |sy my ey]; try discriminate.
  - destruct sx, sy; reflexivity.
  - cbn [SFadd Ieee.mag_le] in *. apply Z.leb_le in Hy. apply Z.leb_le.
    pose proof (pow2_le (K - prc - 1 - ey) (K - ey) ltac:(lia)). lia.
  - exact Hx.
  - cbn [Ieee.mag_le] in Hx, Hy. apply Z.leb_le in Hx, Hy.
    cbn [SFadd].
    pose proof (shl_align_spec mx ex (Z.min ex ey)) as [_ Hmx].
    pose proof (shl_align_spec my ey (Z.min ex ey)) as [_ Hmy].
    replace (Z.min ex (Z.min ex ey)) with (Z.min ex ey) in Hmx by lia.
    replace (Z.min ey (Z.min ex ey)) with (Z.min ex ey) in Hmy by lia.
    set (ez := Z.min ex ey) in *.
    apply binary_normalize_le; [exact HK|].
    pose proof (pow2_pos (ex - ez) ltac:(unfold ez; lia)) as Hp1.
    pose proof (pow2_pos (ey - ez) ltac:(unfold ez; lia)) as Hp2.
    pose proof (pow2_mul_le (K - ex) (ex - ez) ltac:(unfold ez; lia)) as H1.
    pose proof (pow2_mul_le (K - prc - 1 - ey) (ey - ez)
                  ltac:(unfold ez; lia)) as H2.
    replace (K - ex + (ex - ez)) with (K - ez) in H1 by lia.
    replace (K - prc - 1 - ey + (ey - ez)) with (K - ez - prc - 1) in H2
      by lia.
    assert (Ha : Z.pos (fst (shl_align mx ex ez)) <= 2 ^ (K - ez))
      by (rewrite Hmx; nia).
    assert (Hb : Z.pos (fst (shl_align my ey ez)) <= 2 ^ (K - ez - prc - 1))
      by (rewrite Hmy; nia).
    destruct sx, sy; cbn [cond_Zopp]; lia.
Qed.



(** *** Quotients *)

Lemma new_location_exact (nb_steps : Z) : new_location nb_steps 0 = loc_Exact.
Proof. unfold new_location. destruct (Z.even nb_steps); reflexivity. Qed.

(** The quotient, exponent and location [SFdiv] hands to
    [binary_round_aux]. *)
Lemma SFdiv_core_binary_spec (m1 m2 : positive) (e1 e2 : Z) :
  exists q e' l s r,
    SFdiv_core_binary prc emx (Z.pos m1) e1 (Z.pos m2) e2 = (q, e', l) /\
    0 <= s /\ e' = e1 - e2 - s /\
    Z.pos m1 * 2 ^ s = Z.pos m2 * q + r /\ 0 <= r < Z.pos m2 /\ 0 <= q /\
    (r = 0 -> l = loc_Exact) /\
    e' <= fexp (Zdigits2 q + e').
Proof.
  unfold SFdiv_core_binary.
  set (d1 := Zdigits2 (Z.pos m1)). set (d2 := Zdigits2 (Z.pos m2)).
  set (E := d1 + e1 - (d2 + e2)).
  set (e' := Z.min (fexp E) (e1 - e2)).
  set (s := e1 - e2 - e').
  assert (Hs : 0 <= s) by (unfold s, e'; lia).
  set (m' := match s with
             | 0 => Z.pos m1
             | Z.pos _ => Z.shiftl (Z.pos m1) s
             | Z.neg _ => 0
             end).
  assert (Hm' : m' = Z.pos m1 * 2 ^ s).
  { unfold m'. destruct s as [|p|p] eqn:Es; try lia.
    rewrite Z.shiftl_mul_pow2 by lia. reflexivity. }
  pose proof (Z_div_mod m' (Z.pos m2) ltac:(lia)) as Hdiv.
  destruct (Z.div_eucl m' (Z.pos m2)) as [q r]. destruct Hdiv as [Heq Hr].
  pose proof (pow2_pos s Hs) as Hps.
  assert (Hq : 0 <= q) by nia.
  exists q, e', (new_location (Z.pos m2) r), s, r.
  split; [reflexivity|]. split; [exact Hs|]. split; [unfold s; lia|].
  split; [rewrite <- Hm'; exact Heq|]. split; [exact Hr|].
  split; [exact Hq|]. split; [intros ->; apply new_location_exact|].
  (* alignment *)
  assert (HE : E <= Zdigits2 q + e').
  { pose proof (Zdigits2_bounds (Z.pos m1) ltac:(lia)) as [Hlo1 _].
    pose proof (Zdigits2_bounds (Z.pos m2) ltac:(lia)) as [_ Hhi2].
    fold d1 in Hlo1. fold d2 in Hhi2.
    assert (Hd1 : 1 <= d1) by (unfold d1; simpl; lia).
    assert (Hd2 : 1 <= d2) by (unfold d2; simpl; lia).
    assert (Hlo : 2 ^ (d1 - 1 + s) <= m')
      by (rewrite Hm', pow2_add by lia; nia).
    destruct (Z_lt_le_dec (d1 + s - d2) 1) as [Hsmall|Hbig].
    - (* the quotient may be zero *)
      destruct (Z.eq_dec q 0) as [->|Hnz].
      + cbn [Zdigits2].
        assert (Hlt : 2 ^ (d1 - 1 + s) < 2 ^ d2) by nia.
        apply pow2_lt_inv in Hlt. unfold E, s in *. lia.
      + assert (H1 : 1 <= Zdigits2 q)
          by (destruct q; try lia; simpl; lia).
        unfold E, s in *. lia.
    - assert (Hql : 2 ^ (d1 + s - 1 - d2) <= q).
      { assert (Hsplit : 2 ^ (d1 - 1 + s) = 2 ^ (d1 + s - 1 - d2) * 2 ^ d2).
        { rewrite <- pow2_add by lia. f_equal. lia. }
        pose proof (pow2_pos (d1 + s - 1 - d2) ltac:(lia)) as Hp.
        destruct (Z_lt_le_dec q (2 ^ (d1 + s - 1 - d2))) as [Hlt|];
          [exfalso|assumption].
        nia. }
      pose proof (pow2_pos (d1 + s - 1 - d2) ltac:(lia)) as Hp.
      pose proof (Zdigits2_ge q (d1 + s - 1 - d2) ltac:(lia) Hql).
      unfold E, s in *. lia. }
  pose proof (fexp_mono _ _ HE). unfold e' at 1. lia.
Qed.

(** Dividing a number of magnitude at most [2^K] by one of magnitude at
    least [1] gives a number of magnitude at most [2^K]. *)
Lemma SFdiv_le (x y : spec_float) (K : Z) :
  emin + prc - 1 <= K <= emx - 1 ->
  Ieee.mag_le K x = true ->
  Ieee.mag_ge 0 y = true ->
  Ieee.mag_le K (SFdiv prc emx x y) = true.
Proof.
  intros HK Hx Hy.
  destruct x as [sx|sx| |sx mx ex]; try discriminate;
    destruct y as [sy|sy| |sy my ey]; try discriminate; try reflexivity.
  cbn [Ieee.mag_le Ieee.mag_ge] in Hx, Hy.
  apply Z.leb_le in Hx, Hy. cbn [SFdiv].
  destruct (SFdiv_core_binary_spec mx my ex ey)
    as (q & e' & l & s & r & -> & Hs & He' & Heq & Hr & Hq & Hl & Hal).
  apply binary_round_aux_le; [exact Hq|exact Hal|exact HK|].
  assert (HA : 0 <= K - ex).
  { destruct (Z_lt_le_dec (K - ex) 0) as [Hneg|]; [|assumption].
    rewrite (pow2_neg _ Hneg) in Hx. lia. }
  pose proof (pow2_pos s Hs) as Hps.
  assert (HB : Z.pos mx * 2 ^ s <= 2 ^ (K - ex + s))
    by (rewrite pow2_add by lia; nia).
  replace (K - e') with (K - ex + s + ey) by lia.
  destruct (Z_lt_le_dec 0 ey) as [Hpos|Hneg].
  - left.
    pose proof (pow2_lt (K - ex + s) (K - ex + s + ey) ltac:(lia) ltac:(lia)).
    nia.
  - replace (0 - ey) with (- ey) in Hy by lia.
    pose proof (pow2_pos (- ey) ltac:(lia)) as Hpe.
    destruct (Z_lt_le_dec (K - ex + s + ey) 0) as [Hlt|Hge].
    + exfalso.
      assert (Hq0 : q = 0).
      { pose proof (pow2_lt (K - ex + s) (- ey) ltac:(lia) ltac:(lia)). nia. }
      subst q. cbn [Zdigits2] in Hal. unfold SpecFloat.fexp in Hal.
      unfold SpecFloat.emin in *. lia.
    + assert (Hsplit : 2 ^ (K - ex + s) = 2 ^ (K - ex + s + ey) * 2 ^ (- ey)).
      { rewrite <- pow2_add by lia. f_equal. lia. }
      destruct (Z_lt_le_dec q (2 ^ (K - ex + s + ey))) as [Hlt|Hle];
        [left; exact Hlt|right].
      assert (Hr0 : r = 0) by nia.
      split; [apply Hl; exact Hr0|].
      assert (Hqe : q = 2 ^ (K - ex + s + ey)) by nia.
      pose proof (pow2_nonneg (K - ex + s + ey - prc - 1)). lia.
Qed.


(** *** Signs *)



End Bounds.

End Rounding.

(** ** Float arithmetic: sums and means of float32 losses stay finite *)

Module PyFloatRange.

Open Scope Z_scope.

Lemma prec_pos : 0 < prec.
Proof. reflexivity. Qed.

Lemma prec_lt_emax : prec < emax.
Proof. reflexivity. Qed.

Lemma mag_le_finite (K : Z) (s : spec_float) :
  Ieee.mag_le K s = true -> PyFloat.SFnonfinite s = false.
Proof. destruct s; simpl; congruence. Qed.

Lemma valid_mantissa (s : bool) (m : positive) (e : Z) :
  valid_binary (S754_finite s m e) = true -> Z.pos m < 2 ^ 53.
Proof.
  cbn [valid_binary]. unfold bounded, canonical_mantissa. intros H.
  apply andb_prop in H. destruct H as [Hc _]. apply Z.eqb_eq in Hc.
  pose proof (Rounding.Zdigits2_bounds (Z.pos m) ltac:(lia)) as [_ Hhi].
  cbn [Zdigits2] in Hhi.
  assert (Hd : Z.pos (digits2_pos m) <= 53)
    by (unfold fexp, emin, prec, emax in Hc; lia).
  pose proof (Rounding.pow2_le _ _ Hd). lia.
Qed.

(** A finite float32 number has magnitude below [2^128]. *)
Lemma finite32_mag (x : float) :
  PyFloat.finite32 x = true -> Ieee.mag_le 128 (Prim2SF x) = true.
Proof.
  unfold PyFloat.finite32. rewrite leb_spec, abs_spec.
  change (Prim2SF PyFloat.float32_max)
    with (S754_finite false 9007198717870080 75).
  pose proof (Prim2SF_valid x) as Hv.
  destruct (Prim2SF x) as [s|s| |s m e]; cbn [SFabs]; try discriminate;
    [reflexivity|].
  pose proof (valid_mantissa s m e Hv) as Hm.
  unfold SFleb, SFcompare. cbn [Ieee.mag_le].
  destruct (Z.compare_spec e 75) as [->|Hlt|Hgt]; try discriminate.
  - intros _. apply Z.leb_le. change (128 - 75) with 53. lia.
  - intros _. apply Z.leb_le.
    pose proof (Rounding.pow2_le 53 (128 - e) ltac:(lia)). lia.
Qed.

Lemma add_mag (t x : float) :
  Ieee.mag_le 182 (Prim2SF t) = true ->
  Ieee.mag_le 128 (Prim2SF x) = true ->
  Ieee.mag_le 182 (Prim2SF (t + x)%float) = true.
Proof.
  intros Ht Hx. rewrite add_spec.
  apply (Rounding.SFadd_le prec emax prec_pos prec_lt_emax _ _ 182);
    [unfold emin, prec, emax; lia|exact Ht|exact Hx].
Qed.

Lemma fold_add_mag (xs : list float) (t : float) :
  Ieee.mag_le 182 (Prim2SF t) = true ->
  (forall x, In x xs -> PyFloat.finite32 x = true) ->
  Ieee.mag_le 182 (Prim2SF (fold_left PrimFloat.add xs t)) = true.
Proof.
  revert t. induction xs as [|x xs IH]; intros t Ht Hall; cbn [fold_left];
    [exact Ht|].
  apply IH.
  - apply add_mag; [exact Ht|]. apply finite32_mag. apply Hall. left.
    reflexivity.
  - intros y Hy. apply Hall. right. exact Hy.
Qed.

(** The running total of finite float32 losses never exceeds [2^182], however
    many of them are added. *)
Lemma sum_mag (xs : list float) :
  (forall x, In x xs -> PyFloat.finite32 x = true) ->
  Ieee.mag_le 182 (Prim2SF (PyFloat.sum xs)) = true.
Proof. apply fold_add_mag. reflexivity. Qed.

(** [float(n)] for a positive length [n] is a finite number that is at
    least one. *)
Lemma of_nat_range (n : nat) :
  (0 < n)%nat -> Z.of_nat n <= PyFloat.maxsize ->
  PyFloat.SFpos_finite (Prim2SF (PyFloat.of_nat n)) = true /\
  Ieee.mag_ge 0 (Prim2SF (PyFloat.of_nat n)) = true.
Proof.
  intros Hn Hmax. unfold PyFloat.of_nat. rewrite of_uint63_spec.
  rewrite Uint63.of_Z_spec. unfold PyFloat.maxsize in Hmax.
  assert (HwB : wB = 9223372036854775808) by reflexivity.
  rewrite Z.mod_small by lia.
  destruct (Z.of_nat n) as [|m|m] eqn:En; try lia.
  cbn [binary_normalize].
  pose proof (Rounding.binary_round_ge prec emax prec_pos false m 0 0
                ltac:(unfold emin, prec, emax; lia)
                ltac:(change (2 ^ (0 - 0)) with 1; lia)) as Hge.
  pose proof (Rounding.binary_round_le prec emax prec_pos prec_lt_emax
                false m 0 63
                ltac:(unfold emin, prec, emax; lia)
                ltac:(change (2 ^ (63 - 0)) with 9223372036854775808;
                      pose proof (Rounding.pow2_nonneg (63 - 0 - prec - 1));
                      lia)) as Hle.
  assert (Hsign : PyFloat.SFnonneg (binary_round prec emax false m 0) = true).
  { unfold binary_round. destruct (shl_align _ _ _) as [mz ez].
    apply PyFloatSign.binary_round_aux_nonneg. lia. }
  destruct (binary_round prec emax false m 0) as [s|s| |s m' e'];
    try discriminate.
  destruct s; [discriminate|]. split; [reflexivity|exact Hge].
Qed.

(** The mean of finite float32 losses over a positive length is finite. *)
Lemma mean_finite (xs : list float) (n : nat) :
  (0 < n)%nat -> Z.of_nat n <= PyFloat.maxsize ->
  (forall x, In x xs -> PyFloat.finite32 x = true) ->
  PyFloat.nonfinite (PyFloat.sum xs / PyFloat.of_nat n)%float = false.
Proof.
  intros Hn Hmax Hall.
  destruct (of_nat_range n Hn Hmax) as [_ Hge].
  rewrite PyFloatFacts.nonfinite_spec, div_spec.
  apply (mag_le_finite 182).
  apply (Rounding.SFdiv_le prec emax prec_pos prec_lt_emax _ _ 182);
    [unfold emin, prec, emax; lia|apply sum_mag; exact Hall|exact Hge].
Qed.

(** The mean of non-negative losses over a positive length is
    non-negative. *)
Lemma mean_nonneg_len (xs : list float) (n : nat) :
  (0 < n)%nat -> Z.of_nat n <= PyFloat.maxsize ->
  (forall x, In x xs -> PyFloat.nonneg x = true) ->
  PyFloat.nonneg (PyFloat.sum xs / PyFloat.of_nat n)%float = true.
Proof.
  intros Hn Hmax Hall.
  destruct (of_nat_range n Hn Hmax) as [Hpos _].
  rewrite PyFloatSign.nonneg_spec, div_spec.
  apply PyFloatSign.SFdiv_nonneg.
  - rewrite <- PyFloatSign.nonneg_spec. apply PyFloatSign.sum_nonneg.
    exact Hall.
  - exact Hpos.
Qed.

End PyFloatRange.

(** ** The network in float32 arithmetic *)

Module Nn32Facts.

Import Nn32.




Section Facts.

Variable exp : spec_float -> spec_float.









(** What is used of the library's exponential: it maps NaN to NaN, and any
    other number or infinity to a number that is not below zero, or to
    [+inf]. *)
Hypothesis exp_nan : exp S754_nan = S754_nan.
Hypothesis exp_nonneg :
  forall v, v <> S754_nan -> PyFloat.SFnonneg (exp v) = true.





End Facts.

End Nn32Facts.

Module Nn32Correct.

Import Nn32 Nn32Facts.




End Nn32Correct.

(** ** Number of batches *)

Module LoaderLength.

Import Data.

Lemma div_up_step (bs n : nat) :
  0 < bs -> (bs + n + bs - 1) / bs = S ((n + bs - 1) / bs).
Proof.
  intros Hbs.
  replace (bs + n + bs - 1) with (1 * bs + (n + bs - 1)) by lia.
  rewrite Nat.div_add_l by lia. lia.
Qed.

Lemma length_batch_sampler (bs : nat) (s batch : list nat) :
  0 < bs -> length batch < bs ->
  length (batch_sampler bs batch s) = (length batch + length s + bs - 1) / bs.
Proof.
  intros Hbs. revert batch.
  induction s as [|idx s IH]; intros batch Hlt; cbn [batch_sampler length].
  - destruct batch as [|i batch]; cbn [length].
    + rewrite Nat.div_small by lia. reflexivity.
    + cbn [length] in Hlt.
      apply (Nat.div_unique _ bs 1 (length batch)); lia.
  - assert (Hlen : length (batch ++ [idx]) = S (length batch))
      by (rewrite length_app; cbn [length]; lia).
    destruct (Nat.eqb (length (batch ++ [idx])) bs) eqn:E.
    + apply Nat.eqb_eq in E. cbn [length].
      rewrite IH by (cbn [length]; lia). cbn [length].
      rewrite <- div_up_step by exact Hbs. f_equal. lia.
    + apply Nat.eqb_neq in E. rewrite IH by lia. f_equal. lia.
Qed.

(** [len(loader)] is the number of batches one traversal yields. *)
Lemma length_iter (X Y : Type) (ld : DataLoader X Y) (perm : list nat) :
  0 < batch_size ld ->
  length (sampler ld perm) = length (dataset ld) ->
  length (iter ld perm) = len ld.
Proof.
  intros Hbs Hs. unfold iter, len. rewrite length_map.
  rewrite (length_batch_sampler (batch_size ld) (sampler ld perm) [] Hbs Hbs).
  cbn [length]. rewrite Hs. reflexivity.
Qed.

Lemma len_positive (X Y : Type) (ld : DataLoader X Y) :
  0 < batch_size ld -> dataset ld <> [] -> len ld <> 0.
Proof.
  intros Hbs Hne. unfold len.
  destruct (dataset ld) as [|row rows]; [congruence|]. cbn [length].
  assert (Hle : 1 * batch_size ld <= S (length rows) + batch_size ld - 1) by lia.
  apply (Nat.Div0.div_le_mono _ _ (batch_size ld)) in Hle.
  rewrite Nat.div_mul in Hle by lia. lia.
Qed.

End LoaderLength.

(** ** The training loop *)

Module TrainerFacts.

Import Data Trainer.

Section Facts.

Variables X Y Params : Type.
Variable loss_item : Params -> list X -> float.
Variable optimizer_step : Params -> list X -> Params.
Variable randperm : nat -> list nat.

Local Abbreviation train_batch := (train_batch (Y := Y) loss_item optimizer_step).
Local Abbreviation train_epoch := (train_epoch (Y := Y) loss_item optimizer_step randperm).
Local Abbreviation train_epochs := (train_epochs (Y := Y) loss_item optimizer_step randperm).
Local Abbreviation train_autoencoder :=
  (train_autoencoder (Y := Y) loss_item optimizer_step randperm).
Local Abbreviation batch_losses := (batch_losses (Y := Y) loss_item optimizer_step).
Local Abbreviation step_all := (step_all (Y := Y) optimizer_step).
Local Abbreviation params_at := (params_at (Y := Y) optimizer_step randperm).
Local Abbreviation epoch_losses :=
  (epoch_losses (Y := Y) loss_item optimizer_step randperm).
Local Abbreviation epoch_average :=
  (epoch_average (Y := Y) loss_item optimizer_step randperm).

Lemma fold_train_batch (batches : list (list X * list Y)) (theta : Params)
                       (total : float) :
  fold_left train_batch batches (theta, total)
  = (step_all theta batches,
     fold_left PrimFloat.add (batch_losses theta batches) total).
Proof.
  revert theta total. induction batches as [|b batches IH];
    intros theta total; simpl.
  - reflexivity.
  - rewrite IH. reflexivity.
Qed.

Lemma train_epoch_ok (ld : DataLoader X Y) (theta : Params) (e : nat) :
  len ld <> 0 ->
  train_epoch ld theta e
  = Ok (step_all theta (iter ld (randperm e)),
        (PyFloat.sum (batch_losses theta (iter ld (randperm e)))
         / PyFloat.of_nat (len ld))%float).
Proof.
  intros Hlen. unfold Trainer.train_epoch. rewrite fold_train_batch.
  unfold PyFloat.div_int.
  destruct (Nat.eqb (len ld) 0) eqn:E; [apply Nat.eqb_eq in E; contradiction|].
  reflexivity.
Qed.

Lemma train_epoch_zero_len (ld : DataLoader X Y) (theta : Params) (e : nat) :
  len ld = 0 -> train_epoch ld theta e = Raise ZeroDivisionError.
Proof.
  intros Hlen. unfold Trainer.train_epoch. rewrite fold_train_batch.
  unfold PyFloat.div_int. rewrite Hlen. reflexivity.
Qed.

Lemma train_epochs_run (ld : DataLoader X Y) (theta : Params) (n k : nat)
                       (acc : list float) :
  len ld <> 0 ->
  train_epochs ld (seq k n) (params_at ld theta k) acc
  = Ok (params_at ld theta (k + n),
        acc ++ map (epoch_average ld theta) (seq k n)).
Proof.
  intros Hlen. revert k acc.
  induction n as [|n IH]; intros k acc; cbn [seq Trainer.train_epochs].
  - rewrite Nat.add_0_r, app_nil_r. reflexivity.
  - rewrite (train_epoch_ok ld _ k Hlen). cbn [Py.bind].
    change (step_all (params_at ld theta k) (iter ld (randperm k)))
      with (params_at ld theta (S k)).
    rewrite IH. rewrite <- app_assoc.
    replace (k + S n) with (S k + n) by lia. reflexivity.
Qed.

(** On a loader of positive length the loop runs every epoch and returns one
    value per epoch, the mean of that epoch's batch losses. *)
Lemma train_autoencoder_run (ld : DataLoader X Y) (theta : Params)
                            (num_epochs : Z) :
  len ld <> 0 ->
  train_autoencoder theta ld num_epochs
  = Ok (params_at ld theta (Z.to_nat num_epochs),
        map (epoch_average ld theta) (seq 0 (Z.to_nat num_epochs))).
Proof.
  intros Hlen. unfold Trainer.train_autoencoder.
  apply (train_epochs_run ld theta (Z.to_nat num_epochs) 0 [] Hlen).
Qed.

(** On a loader of length zero the first epoch divides by zero. *)
Lemma train_autoencoder_zero_len (ld : DataLoader X Y) (theta : Params)
                                 (num_epochs : Z) :
  len ld = 0 -> (0 < num_epochs)%Z ->
  train_autoencoder theta ld num_epochs = Raise ZeroDivisionError.
Proof.
  intros Hlen Hpos. unfold Trainer.train_autoencoder.
  destruct (Z.to_nat num_epochs) as [|n] eqn:En; [lia|]. simpl.
  rewrite (train_epoch_zero_len ld theta 0 Hlen). reflexivity.
Qed.

Lemma nth_error_map_seq (A : Type) (f : nat -> A) (n e : nat) :
  e < n -> nth_error (map f (seq 0 n)) e = Some (f e).
Proof.
  intros He. rewrite nth_error_map.
  rewrite nth_error_seq. apply Nat.ltb_lt in He. rewrite He. reflexivity.
Qed.

Lemma length_batch_losses (theta : Params) (batches : list (list X * list Y)) :
  length (batch_losses theta batches) = length batches.
Proof.
  revert theta. induction batches as [|b batches IH]; intros theta; simpl;
    [reflexivity|].
  f_equal. apply IH.
Qed.

End Facts.

End TrainerFacts.

Module TrainerCorrect.

Import Data Trainer TrainerFacts.

(** C4, as stated, fails when the last batch is smaller: on three rows in
    batches of two, with batch losses 0 and 0.25, the loop records 0.125 (the
    mean of the two batch losses) while the batch-size-weighted average is
    0.25 / 3. *)
Lemma train_autoencoder_weighted_average_counterexample :
  Example.train Example.three_rows 1 = Ok (2, [0.125%float]) /\
  batch_sizes Example.randperm (Example.loader Example.three_rows) 0 = [2; 1] /\
  epoch_losses Example.loss_item Example.optimizer_step Example.randperm
               (Example.loader Example.three_rows) 0 0
  = [0%float; 0.25%float] /\
  PrimFloat.ltb (weighted_average [2; 1] [0%float; 0.25%float]) 0.125%float
  = true /\
  ~ records_weighted_average Example.loss_item Example.optimizer_step
                             Example.randperm 0
                             (Example.loader Example.three_rows) 1.
Proof.
  assert (Hrun : Example.train Example.three_rows 1 = Ok (2, [0.125%float]))
    by (vm_compute; reflexivity).
  split; [exact Hrun|].
  split; [vm_compute; reflexivity|].
  split; [vm_compute; reflexivity|].
  split; [vm_compute; reflexivity|].
  intros Hclaim.
  specialize (Hclaim 2 [0.125%float] Hrun 0).
  assert (Hlt : 0 < Z.to_nat 1) by (vm_compute; lia).
  specialize (Hclaim Hlt).
  assert (Heq : PrimFloat.ltb 0.125%float 0.125%float
                = PrimFloat.ltb (weighted_average [2; 1] [0%float; 0.25%float])
                                0.125%float).
  { apply (f_equal (fun o => match o with
                             | Some x => PrimFloat.ltb x 0.125%float
                             | None => false
                             end)) in Hclaim.
    exact Hclaim. }
  vm_compute in Heq. discriminate.
Qed.

(** C4, amended.  For every epoch, the value the loop appends is the sum of
    that epoch's per-batch losses, accumulated in batch order, divided by the
    number of batches [len(train_loader)]: the unweighted mean of the batch
    losses, whatever the size of the last batch. *)
Theorem train_autoencoder_records_batch_mean
    (X Y Params : Type) (loss_item : Params -> list X -> float)
    (optimizer_step : Params -> list X -> Params) (randperm : nat -> list nat)
    (theta : Params) (train_loader : DataLoader X Y) (num_epochs : Z) :
  len train_loader <> 0 ->
  exists theta' losses,
    train_autoencoder loss_item optimizer_step randperm theta train_loader
                      num_epochs = Ok (theta', losses) /\
    forall e, e < Z.to_nat num_epochs ->
      nth_error losses e
      = Some (PyFloat.sum (epoch_losses loss_item optimizer_step randperm
                                        train_loader theta e)
              / PyFloat.of_nat (len train_loader))%float /\
      (0 < batch_size train_loader ->
       length (sampler train_loader (randperm e))
       = length (dataset train_loader) ->
       length (epoch_losses loss_item optimizer_step randperm
                            train_loader theta e) = len train_loader).
Proof.
  intros Hlen. eexists. eexists.
  split; [apply train_autoencoder_run; exact Hlen|].
  intros e He. split.
  - rewrite (nth_error_map_seq _ _ _ e He). reflexivity.
  - intros Hbs Hs. unfold epoch_losses. rewrite length_batch_losses.
    apply LoaderLength.length_iter; assumption.
Qed.

Lemma train_autoencoder_records_batch_mean_witness :
  exists theta' losses,
    train_autoencoder Example.loss_item Example.optimizer_step
                      Example.randperm 0 (Example.loader Example.three_rows) 1
    = Ok (theta', losses) /\
    forall e, e < Z.to_nat 1 ->
      nth_error losses e
      = Some (PyFloat.sum (epoch_losses Example.loss_item
                                        Example.optimizer_step Example.randperm
                                        (Example.loader Example.three_rows)
                                        0%nat e)
              / PyFloat.of_nat (len (Example.loader Example.three_rows)))%float
      /\
      (0 < batch_size (Example.loader Example.three_rows) ->
       length (sampler (Example.loader Example.three_rows) (Example.randperm e))
       = length (dataset (Example.loader Example.three_rows)) ->
       length (epoch_losses Example.loss_item Example.optimizer_step
                            Example.randperm
                            (Example.loader Example.three_rows) 0 e)
       = len (Example.loader Example.three_rows)).
Proof.
  apply (train_autoencoder_records_batch_mean
           float Z nat Example.loss_item Example.optimizer_step
           Example.randperm 0 (Example.loader Example.three_rows) 1).
  vm_compute. discriminate.
Defined.

(** C5, as stated, fails: with a NaN loss in the first batch of the first
    epoch, the run goes on through the second batch and the second epoch
    (four optimizer steps in all) and returns normally, with two recorded
    values and no report of the epoch. *)
Lemma train_autoencoder_nonfinite_counterexample :
  Example.train Example.nan_rows 2 = Ok (4, [nan; nan]) /\
  epoch_losses Example.loss_item Example.optimizer_step Example.randperm
               (Example.loader Example.nan_rows) 0 0
  = [nan; 0.25%float] /\
  nonfinite_loss_at Example.loss_item Example.optimizer_step Example.randperm
                    0 (Example.loader Example.nan_rows) 0 /\
  ~ stops_on_nonfinite Example.loss_item Example.optimizer_step
                       Example.randperm 0 (Example.loader Example.nan_rows) 2.
Proof.
  assert (Hrun : Example.train Example.nan_rows 2 = Ok (4, [nan; nan]))
    by (vm_compute; reflexivity).
  assert (Hnan : nonfinite_loss_at Example.loss_item Example.optimizer_step
                                   Example.randperm 0
                                   (Example.loader Example.nan_rows) 0).
  { exists nan. split; [vm_compute; left; reflexivity|reflexivity]. }
  split; [exact Hrun|].
  split; [vm_compute; reflexivity|].
  split; [exact Hnan|].
  intros Hclaim.
  assert (Hlt : 0 < Z.to_nat 2) by (vm_compute; lia).
  destruct (Hclaim 0 Hlt Hnan) as [err Herr].
  unfold Example.train in Hrun. rewrite Hrun in Herr. discriminate.
Qed.

(** C5, amended.  A loss that is not finite does not stop the run and is not
    reported: on a loader of positive length the loop still returns normally,
    after the optimizer step of every batch of every epoch, exactly once
    each, with one recorded value per epoch; the value recorded for the epoch
    in which such a loss occurred is itself not finite.  No retry and no
    change of the learning rate take place. *)
Theorem train_autoencoder_ignores_nonfinite
    (X Y Params : Type) (loss_item : Params -> list X -> float)
    (optimizer_step : Params -> list X -> Params) (randperm : nat -> list nat)
    (theta : Params) (train_loader : DataLoader X Y) (num_epochs : Z)
    (e : nat) :
  len train_loader <> 0 ->
  e < Z.to_nat num_epochs ->
  nonfinite_loss_at loss_item optimizer_step randperm theta train_loader e ->
  exists losses,
    train_autoencoder loss_item optimizer_step randperm theta train_loader
                      num_epochs
    = Ok (params_at optimizer_step randperm train_loader theta
                    (Z.to_nat num_epochs), losses) /\
    length losses = Z.to_nat num_epochs /\
    exists v, nth_error losses e = Some v /\ PyFloat.nonfinite v = true.
Proof.
  intros Hlen He (l & Hin & Hl). eexists.
  split; [apply train_autoencoder_run; exact Hlen|].
  split; [rewrite length_map, length_seq; reflexivity|].
  eexists. split; [apply nth_error_map_seq; exact He|].
  unfold epoch_average. apply PyFloatFacts.div_nonfinite_l.
  apply (PyFloatFacts.sum_nonfinite _ l Hin Hl).
Qed.

Lemma train_autoencoder_ignores_nonfinite_witness :
  exists losses,
    train_autoencoder Example.loss_item Example.optimizer_step
                      Example.randperm 0 (Example.loader Example.nan_rows) 2
    = Ok (params_at Example.optimizer_step Example.randperm
                    (Example.loader Example.nan_rows) 0 (Z.to_nat 2), losses) /\
    length losses = Z.to_nat 2 /\
    exists v, nth_error losses 0 = Some v /\ PyFloat.nonfinite v = true.
Proof.
  apply (train_autoencoder_ignores_nonfinite
           float Z nat Example.loss_item Example.optimizer_step
           Example.randperm 0 (Example.loader Example.nan_rows) 2 0).
  - vm_compute. discriminate.
  - vm_compute. lia.
  - exists nan. split; [vm_compute; left; reflexivity|reflexivity].
Defined.

(** C8, as stated, fails when a batch loss is not finite: on a loader that
    [DataLoader] builds, with a NaN loss in the first batch of each epoch, the
    run returns one value per epoch, and every value is NaN, which is
    neither finite nor non-negative. *)
Lemma train_autoencoder_finite_losses_counterexample :
  Data.buildable (Example.loader Example.nan_rows) = true /\
  Example.train Example.nan_rows 2 = Ok (4, [nan; nan]) /\
  ~ returns_finite_losses Example.loss_item Example.optimizer_step
                          Example.randperm 0
                          (Example.loader Example.nan_rows) 2.
Proof.
  assert (Hrun : Example.train Example.nan_rows 2 = Ok (4, [nan; nan]))
    by (vm_compute; reflexivity).
  split; [reflexivity|]. split; [exact Hrun|].
  intros (theta' & losses & Hok & _ & Hall).
  unfold Example.train in Hrun. rewrite Hrun in Hok.
  inversion Hok; subst. inversion Hall as [|v vs [Hfin _] _]; subst.
  vm_compute in Hfin. discriminate.
Qed.

(** C8, amended.  For every non-negative epoch count and every loader that
    yields at least one batch per epoch (its length being a Python length, at
    most [sys.maxsize]) the loop returns a loss sequence with one value per
    epoch: there is no early stopping.  The recorded values are not checked.
    The value of an epoch is the mean of that epoch's batch losses; it is
    non-negative whenever every batch loss of that epoch is non-negative; it
    is a finite number whenever every batch loss of that epoch is a finite
    float32 number, however many batches there are, and only if every batch
    loss of that epoch is finite. *)
Theorem train_autoencoder_loss_count
    (X Y Params : Type) (loss_item : Params -> list X -> float)
    (optimizer_step : Params -> list X -> Params) (randperm : nat -> list nat)
    (theta : Params) (train_loader : DataLoader X Y) (num_epochs : Z) :
  len train_loader <> 0 ->
  (Z.of_nat (len train_loader) <= PyFloat.maxsize)%Z ->
  (0 <= num_epochs)%Z ->
  exists theta' losses,
    train_autoencoder loss_item optimizer_step randperm theta train_loader
                      num_epochs = Ok (theta', losses) /\
    Z.of_nat (length losses) = num_epochs /\
    forall e v, nth_error losses e = Some v ->
      v = epoch_average loss_item optimizer_step randperm train_loader theta e
      /\
      ((forall l, In l (epoch_losses loss_item optimizer_step randperm
                                     train_loader theta e) ->
                  PyFloat.nonneg l = true) ->
       PyFloat.nonneg v = true)
      /\
      ((forall l, In l (epoch_losses loss_item optimizer_step randperm
                                     train_loader theta e) ->
                  PyFloat.finite32 l = true) ->
       PyFloat.nonfinite v = false)
      /\
      (PyFloat.nonfinite v = false ->
       forall l, In l (epoch_losses loss_item optimizer_step randperm
                                    train_loader theta e) ->
                 PyFloat.nonfinite l = false).
Proof.
  intros Hlen Hsmall Hpos. eexists. eexists.
  split; [apply train_autoencoder_run; exact Hlen|].
  split; [rewrite length_map, length_seq; lia|].
  intros e v Hv.
  assert (He : e < Z.to_nat num_epochs).
  { assert (Hs : nth_error
                     (map (epoch_average loss_item optimizer_step randperm
                                         train_loader theta)
                          (seq 0 (Z.to_nat num_epochs))) e <> None)
      by congruence.
    apply nth_error_Some in Hs. rewrite length_map, length_seq in Hs.
    exact Hs. }
  rewrite (nth_error_map_seq _ _ _ e He) in Hv. inversion Hv; subst v.
  split; [reflexivity|]. split; [|split].
  - intros Hall. unfold epoch_average.
    apply PyFloatRange.mean_nonneg_len; [lia|exact Hsmall|exact Hall].
  - intros Hall. unfold epoch_average.
    apply PyFloatRange.mean_finite; [lia|exact Hsmall|exact Hall].
  - intros Hfin l Hin.
    destruct (PyFloat.nonfinite l) eqn:El; [|reflexivity].
    unfold epoch_average in Hfin.
    rewrite PyFloatFacts.div_nonfinite_l in Hfin; [discriminate|].
    apply (PyFloatFacts.sum_nonfinite _ l Hin El).
Qed.

Lemma train_autoencoder_loss_count_witness :
  exists theta' losses,
    train_autoencoder Example.loss_item Example.optimizer_step
                      Example.randperm 0 (Example.loader Example.three_rows)
                      Notebook.default_num_epochs = Ok (theta', losses) /\
    Z.of_nat (length losses) = Notebook.default_num_epochs /\
    forall e v, nth_error losses e = Some v ->
      v = epoch_average Example.loss_item Example.optimizer_step
                        Example.randperm (Example.loader Example.three_rows)
                        0 e
      /\
      ((forall l, In l (epoch_losses Example.loss_item Example.optimizer_step
                                     Example.randperm
                                     (Example.loader Example.three_rows) 0 e) ->
                  PyFloat.nonneg l = true) ->
       PyFloat.nonneg v = true)
      /\
      ((forall l, In l (epoch_losses Example.loss_item Example.optimizer_step
                                     Example.randperm
                                     (Example.loader Example.three_rows) 0 e) ->
                  PyFloat.finite32 l = true) ->
       PyFloat.nonfinite v = false)
      /\
      (PyFloat.nonfinite v = false ->
       forall l, In l (epoch_losses Example.loss_item Example.optimizer_step
                                    Example.randperm
                                    (Example.loader Example.three_rows) 0 e) ->
                 PyFloat.nonfinite l = false).
Proof.
  apply (train_autoencoder_loss_count
           float Z nat Example.loss_item Example.optimizer_step
           Example.randperm 0 (Example.loader Example.three_rows)
           Notebook.default_num_epochs).
  - vm_compute. discriminate.
  - vm_compute. discriminate.
  - vm_compute. discriminate.
Defined.

End TrainerCorrect.

(** ** [evaluate_clustering] *)

Module EvaluatorCorrect.

Import Evaluator.
Open Scope Z_scope.

Lemma guard_two_distinct (labels : list Z) :
  Nat.ltb 1 (length (Np.unique labels)) = true <-> two_distinct labels.
Proof. rewrite Nat.ltb_lt. apply NpFacts.unique_gt_1. Qed.

Lemma guard_degenerate (labels : list Z) :
  ~ two_distinct labels -> Nat.ltb 1 (length (Np.unique labels)) = false.
Proof.
  intros Hdeg. destruct (Nat.ltb 1 (length (Np.unique labels))) eqn:E;
    [|reflexivity].
  elim Hdeg. apply guard_two_distinct. exact E.
Qed.

Lemma metrics_of_length (V Score : Type)
    (silhouette_score davies_bouldin_score calinski_harabasz_score
       : list V -> list Z -> result Score)
    (embeddings : list V) (labels : list Z) (m : Metrics Score) :
  metrics_of silhouette_score davies_bouldin_score calinski_harabasz_score
             embeddings labels = Ok m ->
  length m = 3%nat.
Proof.
  unfold metrics_of. intros H.
  inv_bind H. inv_bind H. inv_bind H. inversion H. reflexivity.
Qed.

(** C1, as stated, fails: on three rows, with one cluster requested and a
    density-based result that is all noise, the scorers are still called on
    the single-cluster centroid-based assignment, reject it, and the
    evaluator raises instead of returning the degenerate density-based
    assignment with empty metrics. *)
Lemma evaluate_clustering_degenerate_counterexample :
  dbscan_all_noise [1; 2; 3] = Ok [-1; -1; -1] /\
  ~ two_distinct [-1; -1; -1] /\
  evaluate_clustering kmeans_one_cluster dbscan_all_noise
                      (checked_scorer tt) (checked_scorer tt)
                      (checked_scorer tt) [1; 2; 3] [0; 1; 2] 1
  = Raise ValueError /\
  ~ omits_degenerate_metrics kmeans_one_cluster dbscan_all_noise
                             (checked_scorer tt) (checked_scorer tt)
                             (checked_scorer tt) [1; 2; 3] [0; 1; 2] 1.
Proof.
  assert (Hdeg : ~ two_distinct [-1; -1; -1]).
  { intros (a & b & Ha & Hb & Hne). simpl in Ha, Hb. intuition congruence. }
  assert (Hrun : evaluate_clustering kmeans_one_cluster dbscan_all_noise
                   (checked_scorer tt) (checked_scorer tt) (checked_scorer tt)
                   [1; 2; 3] [0; 1; 2] 1 = Raise ValueError)
    by reflexivity.
  split; [reflexivity|]. split; [exact Hdeg|]. split; [exact Hrun|].
  intros Hclaim.
  destruct (Hclaim [-1; -1; -1] eq_refl Hdeg) as (r & Hr & _).
  rewrite Hrun in Hr. discriminate.
Qed.

(** C1, amended.  Once both clusterers have returned and the centroid-based
    metrics and mapping have been computed, the density-based metrics are
    computed if and only if the density-based assignment holds at least two
    distinct identifiers: on a degenerate assignment the evaluator returns
    the assignment with an empty metrics dictionary and calls no scorer on
    it; otherwise it calls the three scorers on it and returns their three
    values, or raises what they raise.  The centroid-based metrics carry no
    such guard: their three entries are computed whatever the number of
    distinct identifiers. *)
Theorem evaluate_clustering_metrics_guard
    (V Score : Type)
    (KMeans_fit_predict : Z -> list V -> result (list Z))
    (DBSCAN_fit_predict : list V -> result (list Z))
    (silhouette_score davies_bouldin_score calinski_harabasz_score
       : list V -> list Z -> result Score)
    (embeddings : list V) (true_labels : list Z) (n_clusters : Z)
    (kl dl : list Z) (km : Metrics Score) (mp : Dict.t Z) :
  KMeans_fit_predict n_clusters embeddings = Ok kl ->
  DBSCAN_fit_predict embeddings = Ok dl ->
  metrics_of silhouette_score davies_bouldin_score calinski_harabasz_score
             embeddings kl = Ok km ->
  Mapping.calculate_mapping kl true_labels = Ok mp ->
  length km = 3%nat /\
  (~ two_distinct dl ->
   evaluate_clustering KMeans_fit_predict DBSCAN_fit_predict silhouette_score
                       davies_bouldin_score calinski_harabasz_score
                       embeddings true_labels n_clusters
   = Ok {| kmeans_labels := kl; kmeans_metrics := km; kmeans_mapping := mp;
           dbscan_labels := dl; dbscan_metrics := [] |}) /\
  (two_distinct dl ->
   (forall dm,
      metrics_of silhouette_score davies_bouldin_score calinski_harabasz_score
                 embeddings dl = Ok dm ->
      length dm = 3%nat /\
      evaluate_clustering KMeans_fit_predict DBSCAN_fit_predict
                          silhouette_score davies_bouldin_score
                          calinski_harabasz_score
                          embeddings true_labels n_clusters
      = Ok {| kmeans_labels := kl; kmeans_metrics := km;
              kmeans_mapping := mp;
              dbscan_labels := dl; dbscan_metrics := dm |}) /\
   (forall err,
      metrics_of silhouette_score davies_bouldin_score calinski_harabasz_score
                 embeddings dl = Raise err ->
      evaluate_clustering KMeans_fit_predict DBSCAN_fit_predict
                          silhouette_score davies_bouldin_score
                          calinski_harabasz_score
                          embeddings true_labels n_clusters
      = Raise err)).
Proof.
  intros Hk Hd Hkm Hmp.
  split; [apply (metrics_of_length _ _ _ _ _ _ _ _ Hkm)|].
  unfold evaluate_clustering. rewrite Hk, Hd. cbn [Py.bind].
  rewrite Hkm. cbn [Py.bind].
  split.
  - intros Hdeg. rewrite (guard_degenerate dl Hdeg). cbn [Py.bind].
    rewrite Hmp. reflexivity.
  - intros Htwo. apply guard_two_distinct in Htwo. rewrite Htwo.
    split.
    + intros dm Hdm. split; [apply (metrics_of_length _ _ _ _ _ _ _ _ Hdm)|].
      rewrite Hdm. cbn [Py.bind]. rewrite Hmp. reflexivity.
    + intros err Herr. rewrite Herr. reflexivity.
Qed.

Lemma evaluate_clustering_metrics_guard_witness :
  length [("silhouette"%string, tt); ("davies_bouldin"%string, tt);
          ("calinski_harabasz"%string, tt)] = 3%nat /\
  (~ two_distinct [-1; -1; -1] ->
   evaluate_clustering kmeans_two_clusters dbscan_all_noise
                       (checked_scorer tt) (checked_scorer tt)
                       (checked_scorer tt) [1; 2; 9] [4; 4; 7] 2
   = Ok {| kmeans_labels := [0; 0; 1];
           kmeans_metrics := [("silhouette"%string, tt);
                              ("davies_bouldin"%string, tt);
                              ("calinski_harabasz"%string, tt)];
           kmeans_mapping := [(0, 4); (1, 7)];
           dbscan_labels := [-1; -1; -1]; dbscan_metrics := [] |}) /\
  (two_distinct [-1; -1; -1] ->
   (forall dm,
      metrics_of (checked_scorer tt) (checked_scorer tt) (checked_scorer tt)
                 [1; 2; 9] [-1; -1; -1] = Ok dm ->
      length dm = 3%nat /\
      evaluate_clustering kmeans_two_clusters dbscan_all_noise
                          (checked_scorer tt) (checked_scorer tt)
                          (checked_scorer tt) [1; 2; 9] [4; 4; 7] 2
      = Ok {| kmeans_labels := [0; 0; 1];
              kmeans_metrics := [("silhouette"%string, tt);
                                 ("davies_bouldin"%string, tt);
                                 ("calinski_harabasz"%string, tt)];
              kmeans_mapping := [(0, 4); (1, 7)];
              dbscan_labels := [-1; -1; -1]; dbscan_metrics := dm |}) /\
   (forall err,
      metrics_of (checked_scorer tt) (checked_scorer tt) (checked_scorer tt)
                 [1; 2; 9] [-1; -1; -1] = Raise err ->
      evaluate_clustering kmeans_two_clusters dbscan_all_noise
                          (checked_scorer tt) (checked_scorer tt)
                          (checked_scorer tt) [1; 2; 9] [4; 4; 7] 2
      = Raise err)).
Proof.
  apply (evaluate_clustering_metrics_guard
           Z unit kmeans_two_clusters dbscan_all_noise
           (checked_scorer tt) (checked_scorer tt) (checked_scorer tt)
           [1; 2; 9] [4; 4; 7] 2 [0; 0; 1] [-1; -1; -1]);
    reflexivity.
Defined.

End EvaluatorCorrect.

(* ===================================================================== *)
(** * Further properties of the notebook's functions *)
(* ===================================================================== *)

(** ** [calculate_mapping]: truncation, lookups, row order *)

Module MappingMore.

Import Mapping MappingFacts Vote.
Open Scope Z_scope.

Lemma sel_incl (c l : Z) (pairs : list (Z * Z)) :
  In l (sel c pairs) -> In l (map snd pairs).
Proof.
  unfold sel. rewrite !in_map_iff. intros (cl & <- & Hin).
  apply filter_In in Hin. destruct Hin as [Hin _]. eauto.
Qed.

Lemma sel_nonneg (c : Z) (pairs : list (Z * Z)) :
  Forall (fun l => 0 <= l) (map snd pairs) ->
  Forall (fun l => 0 <= l) (sel c pairs).
Proof.
  rewrite !Forall_forall. intros H l Hl. apply H.
  apply (sel_incl c). exact Hl.
Qed.

Lemma group_get (cl tl : list Z) (c : Z) :
  Dict.get (group cl tl) c = ext None (members c cl tl).
Proof. rewrite group_fold, get_fold. reflexivity. Qed.

Lemma returns_of_nonneg (cl tl : list Z) :
  Forall (fun l => 0 <= l) (map snd (zipped cl tl)) ->
  exists m, calculate_mapping cl tl = Ok m.
Proof.
  intros Hpos. unfold calculate_mapping. apply comprehension_total.
  intros k vs Hin. apply group_entry in Hin. destruct Hin as [-> Hne].
  destruct (MajorityFacts.bincount_argmax_spec _ Hne
              (sel_nonneg k (zipped cl tl) Hpos)) as (x & Hx & _).
  eauto.
Qed.

Lemma nonneg_of_returns (cl tl : list Z) (m : Dict.t Z) :
  calculate_mapping cl tl = Ok m ->
  Forall (fun l => 0 <= l) (map snd (zipped cl tl)).
Proof.
  intros Hm. apply Forall_forall. intros l Hl.
  destruct (Z_lt_le_dec l 0) as [Hneg|Hok]; [exfalso|exact Hok].
  apply in_map_iff in Hl. destruct Hl as ([c l'] & Heq & Hin).
  simpl in Heq. subst l'.
  assert (Hmem : In l (members c cl tl)) by (apply in_sel; exact Hin).
  assert (Hget : Dict.get (group cl tl) c = Some (members c cl tl)).
  { rewrite group_get. destruct (members c cl tl); [destruct Hmem|].
    reflexivity. }
  apply get_some_in in Hget.
  unfold calculate_mapping in Hm. apply comprehension_ok in Hm.
  destruct (forall2_source _ _ c _ Hm Hget) as [x Hx].
  unfold bincount_argmax in Hx.
  rewrite (MajorityFacts.bincount_negative _ l Hmem Hneg) in Hx.
  discriminate.
Qed.

(** X2.  Only the rows that [zip] pairs up are read: the call gives the same
    result, value or exception, as the call on both arrays cut to the length
    of the shorter one.  Trailing cluster identifiers without a label, and
    trailing labels without a cluster identifier, are dropped silently. *)
Theorem calculate_mapping_truncates (cluster_labels true_labels : list Z) :
  calculate_mapping cluster_labels true_labels
  = calculate_mapping
      (firstn (Nat.min (length cluster_labels) (length true_labels))
              cluster_labels)
      (firstn (Nat.min (length cluster_labels) (length true_labels))
              true_labels).
Proof.
  unfold calculate_mapping, group. rewrite <- combine_firstn.
  rewrite <- (length_combine cluster_labels true_labels).
  rewrite firstn_all. reflexivity.
Qed.

Example calculate_mapping_drops_unpaired :
  calculate_mapping [0; 1; 2] [5; 5] = Ok [(0, 5); (1, 5)].
Proof. reflexivity. Qed.

Lemma forall2_get (items : Dict.t (list Z)) (m : Dict.t Z) (c : Z) :
  Forall2 (fun kv kx => fst kv = fst kx /\ bincount_argmax (snd kv) = Ok (snd kx))
          items m ->
  Dict.get m c
  = match Dict.get items c with
    | Some vs => match bincount_argmax vs with
                 | Ok v => Some v
                 | Raise _ => None
                 end
    | None => None
    end.
Proof.
  induction 1 as [|[k vs] [k' x] items m [Hk Hv] _ IH]; simpl in *.
  - reflexivity.
  - subst k'. destruct (c =? k); [rewrite Hv; reflexivity|exact IH].
Qed.

(** A lookup returns the vote of the cluster's rows. *)
Lemma get_vote (cl tl : list Z) (m : Dict.t Z) (c : Z) :
  calculate_mapping cl tl = Ok m ->
  Dict.get m c = vote (members c cl tl).
Proof.
  intros Hm. unfold calculate_mapping in Hm. apply comprehension_ok in Hm.
  rewrite (forall2_get _ _ c Hm), group_get. unfold vote.
  destruct (members c cl tl); reflexivity.
Qed.

(** X3.  Lookups in the returned dictionary: an identifier that labels no
    paired row is a missing key, and every identifier that labels a paired
    row is bound. *)
Theorem calculate_mapping_lookup (cluster_labels true_labels : list Z)
                                 (mapping : Dict.t Z) (c : Z) :
  calculate_mapping cluster_labels true_labels = Ok mapping ->
  (Dict.get mapping c = None
   <-> ~ In c (map fst (zipped cluster_labels true_labels)))
  /\ (In c (map fst (zipped cluster_labels true_labels)) ->
      exists v, Dict.get mapping c = Some v
                /\ In v (members c cluster_labels true_labels)).
Proof.
  intros Hm.
  pose proof (get_vote _ _ _ c Hm) as Hget.
  pose proof (nonneg_of_returns _ _ _ Hm) as Hpos.
  assert (Hbound : In c (map fst (zipped cluster_labels true_labels)) ->
                   exists v, Dict.get mapping c = Some v
                             /\ In v (members c cluster_labels true_labels)).
  { intros Hin. apply in_map_iff in Hin. destruct Hin as ([c' l] & Hc & Hin).
    simpl in Hc. subst c'.
    assert (Hne : members c cluster_labels true_labels <> []).
    { intros Hnil. apply in_sel in Hin. fold (zipped cluster_labels true_labels)
        in Hnil. unfold members in Hnil. unfold zipped in Hin.
      rewrite Hnil in Hin. destruct Hin. }
    destruct (MajorityFacts.bincount_argmax_spec _ Hne
                (sel_nonneg c _ Hpos)) as (v & Hv & Hvin & _).
    exists v. split; [|exact Hvin].
    rewrite Hget. unfold vote.
    destruct (members c cluster_labels true_labels); [congruence|].
    rewrite Hv. reflexivity. }
  split; [split|exact Hbound].
  - intros Hnone Hin. destruct (Hbound Hin) as (v & Hv & _). congruence.
  - intros Hnot. rewrite Hget. unfold vote.
    destruct (members c cluster_labels true_labels) as [|l ms] eqn:E;
      [reflexivity|].
    exfalso. apply Hnot.
    assert (Hl : In l (members c cluster_labels true_labels))
      by (rewrite E; left; reflexivity).
    unfold members, sel in Hl. apply in_map_iff in Hl.
    destruct Hl as ([c' l'] & _ & Hin). apply filter_In in Hin.
    destruct Hin as [Hin Hc]. simpl in Hc. apply Z.eqb_eq in Hc. subst c'.
    apply in_map_iff. exists (c, l'). split; [reflexivity|exact Hin].
Qed.

Lemma calculate_mapping_lookup_witness :
  (Dict.get [(0, 3); (1, 5)] 2 = None
   <-> ~ In 2 (map fst (zipped [0; 1; 0; 1; 0] [3; 5; 3; 7; 5])))
  /\ (In 2 (map fst (zipped [0; 1; 0; 1; 0] [3; 5; 3; 7; 5])) ->
      exists v, Dict.get [(0, 3); (1, 5)] 2 = Some v
                /\ In v (members 2 [0; 1; 0; 1; 0] [3; 5; 3; 7; 5])).
Proof.
  apply (calculate_mapping_lookup [0; 1; 0; 1; 0] [3; 5; 3; 7; 5]
                                  [(0, 3); (1, 5)] 2).
  reflexivity.
Defined.

End MappingMore.

Module MappingOrder.

Import Mapping MappingFacts Vote MappingMore.
Open Scope Z_scope.

Lemma forallb_perm (A : Type) (f : A -> bool) (l l' : list A) :
  Permutation l l' -> forallb f l = forallb f l'.
Proof.
  induction 1 as [|x l l' _ IH|x y l|l l' l'' _ IH1 _ IH2]; simpl.
  - reflexivity.
  - rewrite IH. reflexivity.
  - destruct (f x), (f y); reflexivity.
  - congruence.
Qed.

Lemma fold_max_perm (l l' : list Z) :
  Permutation l l' -> fold_right Z.max 0 l = fold_right Z.max 0 l'.
Proof.
  induction 1 as [|x l l' _ IH|x y l|l l' l'' _ IH1 _ IH2]; simpl.
  - reflexivity.
  - rewrite IH. reflexivity.
  - lia.
  - congruence.
Qed.

Lemma nbins_perm (l l' : list Z) :
  Permutation l l' -> Np.nbins l = Np.nbins l'.
Proof.
  intros Hp. pose proof (fold_max_perm l l' Hp) as Hmax.
  destruct l as [|x l], l' as [|x' l'].
  - reflexivity.
  - apply Permutation_nil in Hp. discriminate.
  - apply Permutation_sym, Permutation_nil in Hp. discriminate.
  - unfold Np.nbins. rewrite Hmax. reflexivity.
Qed.

(** The vote depends only on how often each label occurs. *)
Lemma bincount_argmax_perm (l l' : list Z) :
  Permutation l l' -> bincount_argmax l = bincount_argmax l'.
Proof.
  intros Hp. unfold bincount_argmax, Np.bincount.
  rewrite (forallb_perm _ _ l l' Hp), (nbins_perm l l' Hp).
  destruct (forallb (fun x => 0 <=? x) l'); [|reflexivity].
  f_equal. apply f_equal. apply map_ext. intros i.
  apply Permutation_count_occ. exact Hp.
Qed.

Lemma sel_perm (c : Z) (p p' : list (Z * Z)) :
  Permutation p p' -> Permutation (sel c p) (sel c p').
Proof.
  intros Hp. unfold sel. apply Permutation_map.
  induction Hp as [|x l l' _ IH|x y l|l l' l'' _ IH1 _ IH2]; simpl.
  - constructor.
  - destruct (fst x =? c); [constructor|]; exact IH.
  - destruct (fst x =? c), (fst y =? c);
      solve [apply perm_swap | apply Permutation_refl].
  - eapply Permutation_trans; eassumption.
Qed.

Lemma vote_perm (l l' : list Z) : Permutation l l' -> vote l = vote l'.
Proof.
  intros Hp. unfold vote. rewrite (bincount_argmax_perm l l' Hp).
  destruct l as [|x l], l' as [|x' l']; try reflexivity.
  apply Permutation_nil in Hp. discriminate.
Qed.

Lemma keys_zipped (cl tl : list Z) (m : Dict.t Z) (c : Z) :
  calculate_mapping cl tl = Ok m ->
  (In c (Dict.keys m) <-> In c (map fst (zipped cl tl))).
Proof.
  intros Hm. rewrite (MappingCorrect.mapping_keys _ _ _ Hm).
  rewrite group_fold, keys_fold. simpl. unfold zipped. tauto.
Qed.

Lemma keys_nodup (cl tl : list Z) (m : Dict.t Z) :
  calculate_mapping cl tl = Ok m -> NoDup (Dict.keys m).
Proof.
  intros Hm. rewrite (MappingCorrect.mapping_keys _ _ _ Hm).
  apply MappingCorrect.group_nodup.
Qed.

(** X4.  The mapping does not depend on the order of the rows: if the
    (cluster, label) pairs of two calls are the same up to order, as after
    the train loader's shuffle, and the first call returns, then so does the
    second, with the same value at every cluster identifier and the same set
    of keys. *)
Theorem calculate_mapping_row_order
    (cluster_labels true_labels cluster_labels' true_labels' : list Z)
    (mapping : Dict.t Z) :
  Permutation (zipped cluster_labels true_labels)
              (zipped cluster_labels' true_labels') ->
  calculate_mapping cluster_labels true_labels = Ok mapping ->
  exists mapping',
    calculate_mapping cluster_labels' true_labels' = Ok mapping' /\
    (forall c, Dict.get mapping' c = Dict.get mapping c) /\
    Permutation (Dict.keys mapping') (Dict.keys mapping).
Proof.
  intros Hp Hm.
  assert (Hpos' : Forall (fun l => 0 <= l)
                         (map snd (zipped cluster_labels' true_labels'))).
  { apply (Permutation_Forall (Permutation_map snd Hp)).
    apply (nonneg_of_returns _ _ _ Hm). }
  destruct (returns_of_nonneg _ _ Hpos') as [mapping' Hm'].
  exists mapping'. split; [exact Hm'|]. split.
  - intros c. rewrite (get_vote _ _ _ c Hm), (get_vote _ _ _ c Hm').
    apply vote_perm. apply sel_perm. apply Permutation_sym. exact Hp.
  - apply NoDup_Permutation.
    + apply (keys_nodup _ _ _ Hm').
    + apply (keys_nodup _ _ _ Hm).
    + intros c. rewrite (keys_zipped _ _ _ c Hm), (keys_zipped _ _ _ c Hm').
      split; apply Permutation_in; apply Permutation_map;
        [apply Permutation_sym|]; exact Hp.
Qed.

Lemma calculate_mapping_row_order_witness :
  exists mapping',
    calculate_mapping [1; 0; 0] [5; 3; 3] = Ok mapping' /\
    (forall c, Dict.get mapping' c = Dict.get [(0, 3); (1, 5)] c) /\
    Permutation (Dict.keys mapping') (Dict.keys [(0, 3); (1, 5)]).
Proof.
  apply (calculate_mapping_row_order [0; 1; 0] [3; 5; 3] [1; 0; 0] [5; 3; 3]).
  - apply perm_swap.
  - reflexivity.
Defined.

Lemma count_two (v : list Z) (a b : Z) :
  a <> b ->
  (count_occ Z.eq_dec v a + count_occ Z.eq_dec v b <= length v)%nat.
Proof.
  intros Hne. induction v as [|x v IH]; simpl; [lia|].
  destruct (Z.eq_dec x a), (Z.eq_dec x b); lia.
Qed.

(** X5.  Majority vote: a label carried by more than half of the rows paired
    with a cluster identifier is the value the mapping binds to it. *)
Theorem calculate_mapping_strict_majority
    (cluster_labels true_labels : list Z) (mapping : Dict.t Z) (c l : Z) :
  calculate_mapping cluster_labels true_labels = Ok mapping ->
  (length (members c cluster_labels true_labels)
   < 2 * occurrences (members c cluster_labels true_labels) l)%nat ->
  Dict.get mapping c = Some l.
Proof.
  intros Hm Hmaj.
  pose proof (nonneg_of_returns _ _ _ Hm) as Hpos.
  rewrite (get_vote _ _ _ c Hm). unfold vote.
  assert (Hne : members c cluster_labels true_labels <> []).
  { intros Hnil. rewrite Hnil in Hmaj. simpl in Hmaj. lia. }
  destruct (MajorityFacts.bincount_argmax_spec _ Hne
              (sel_nonneg c _ Hpos)) as (v & Hv & _ & Hmax & _).
  destruct (members c cluster_labels true_labels) as [|x ms] eqn:E;
    [congruence|].
  rewrite Hv. f_equal.
  destruct (Z.eq_dec v l) as [|Hne']; [assumption|exfalso].
  pose proof (count_two (x :: ms) v l Hne') as Htwo.
  specialize (Hmax l). unfold occurrences in *. lia.
Qed.

Lemma calculate_mapping_strict_majority_witness :
  Dict.get [(0, 3); (1, 5)] 0 = Some 3.
Proof.
  apply (calculate_mapping_strict_majority [0; 1; 0; 1; 0] [3; 5; 3; 7; 5]
                                           [(0, 3); (1, 5)] 0 3).
  - reflexivity.
  - vm_compute. lia.
Defined.

End MappingOrder.

(** ** [get_embeddings]: batch size, empty loaders, labels *)

Module ExtractorMore.

Import Data Extractor ExtractorFacts.

(** X6.  Batching is invisible in the order of what [get_embeddings]
    returns: two loaders over the same dataset with the same shuffle setting,
    the same sampler order and any two positive batch sizes give the same
    label array and as many embedding rows, or raise the same exception,
    whatever values the network computes on the batches of either
    traversal. *)
Theorem get_embeddings_batch_size_irrelevant
    (X Y Recon Latent : Type) (model model' : X -> Recon * Latent)
    (rows : list (X * Y)) (batch_size1 batch_size2 : nat) (shuffled : bool)
    (perm : list nat) :
  0 < batch_size1 -> 0 < batch_size2 ->
  match get_embeddings model
          {| dataset := rows; batch_size := batch_size1;
             shuffle := shuffled |} perm,
        get_embeddings model'
          {| dataset := rows; batch_size := batch_size2;
             shuffle := shuffled |} perm
  with
  | Ok (E1, L1), Ok (E2, L2) => L1 = L2 /\ length E1 = length E2
  | Raise e1, Raise e2 => e1 = e2
  | _, _ => False
  end.
Proof.
  intros _ _.
  set (ld1 := {| dataset := rows; batch_size := batch_size1;
                 shuffle := shuffled |}).
  set (ld2 := {| dataset := rows; batch_size := batch_size2;
                 shuffle := shuffled |}).
  assert (Hs : sampler ld1 perm = sampler ld2 perm) by reflexivity.
  destruct (sampler ld1 perm) as [|i idxs] eqn:E.
  - rewrite (get_embeddings_empty X Y Recon Latent model ld1 perm E).
    rewrite (get_embeddings_empty X Y Recon Latent model' ld2 perm)
      by congruence.
    reflexivity.
  - rewrite (get_embeddings_visited X Y Recon Latent model ld1 perm)
      by congruence.
    rewrite (get_embeddings_visited X Y Recon Latent model' ld2 perm)
      by congruence.
    split; [reflexivity|]. rewrite !length_map. reflexivity.
Qed.

Lemma get_embeddings_batch_size_irrelevant_witness :
  match get_embeddings (fun x : Z => (x, (2 * x)%Z))
          {| dataset := [(1, 10); (2, 20); (3, 30)]%Z; batch_size := 256;
             shuffle := true |} [2; 0; 1],
        get_embeddings (fun x : Z => (x, (2 * x + 1)%Z))
          {| dataset := [(1, 10); (2, 20); (3, 30)]%Z; batch_size := 2;
             shuffle := true |} [2; 0; 1]
  with
  | Ok (E1, L1), Ok (E2, L2) => L1 = L2 /\ length E1 = length E2
  | Raise e1, Raise e2 => e1 = e2
  | _, _ => False
  end.
Proof.
  apply (get_embeddings_batch_size_irrelevant
           Z Z Z Z (fun x : Z => (x, (2 * x)%Z))
           (fun x : Z => (x, (2 * x + 1)%Z))
           [(1, 10); (2, 20); (3, 30)]%Z 256 2 true [2; 0; 1]); lia.
Defined.

(** X7.  On a loader over an empty dataset [get_embeddings] raises
    [ValueError]: no batch is yielded and stacking an empty list of arrays
    fails. *)
Theorem get_embeddings_empty_dataset
    (X Y Recon Latent : Type) (model : X -> Recon * Latent)
    (dataloader : DataLoader X Y) (perm : list nat) :
  dataset dataloader = [] ->
  Permutation (sampler dataloader perm) (seq 0 (length (dataset dataloader))) ->
  get_embeddings model dataloader perm = Raise ValueError.
Proof.
  intros Hd Hp. apply get_embeddings_empty.
  rewrite Hd in Hp. simpl in Hp.
  apply Permutation_sym, Permutation_nil in Hp. exact Hp.
Qed.

Lemma get_embeddings_empty_dataset_witness :
  get_embeddings (fun x : Z => (x, (2 * x)%Z))
                 (Notebook.test_loader ([] : list (Z * Z))) [] = Raise ValueError.
Proof.
  apply (get_embeddings_empty_dataset Z Z Z Z (fun x : Z => (x, (2 * x)%Z))
           (Notebook.test_loader ([] : list (Z * Z))) []).
  - reflexivity.
  - apply Permutation_refl.
Defined.

(** X8.  The label array returned by [get_embeddings] holds the dataset's
    labels: all of them, each as often as in the dataset, in the sampler's
    order; for a loader that does not shuffle it is the dataset's label
    column unchanged. *)
Theorem get_embeddings_labels
    (X Y Recon Latent : Type) (model : X -> Recon * Latent)
    (dataloader : DataLoader X Y) (perm : list nat) :
  dataset dataloader <> [] ->
  Permutation (sampler dataloader perm) (seq 0 (length (dataset dataloader))) ->
  exists E L,
    get_embeddings model dataloader perm = Ok (E, L) /\
    Permutation L (map snd (dataset dataloader)) /\
    length L = length (dataset dataloader) /\
    (shuffle dataloader = false -> L = map snd (dataset dataloader)).
Proof.
  intros Hne Hp.
  assert (Hs : sampler dataloader perm <> []).
  { intros Hnil. rewrite Hnil in Hp. apply Permutation_nil in Hp.
    destruct (dataset dataloader); [congruence|discriminate]. }
  assert (Hv : Permutation (visited dataloader perm) (dataset dataloader))
    by (apply DataFacts.fetch_permutation; exact Hp).
  exists (map (latent_of model) (map fst (visited dataloader perm))),
         (map snd (visited dataloader perm)).
  split; [apply get_embeddings_visited; exact Hs|].
  split; [apply Permutation_map; exact Hv|].
  split.
  - rewrite length_map. apply Permutation_length. exact Hv.
  - intros Hsh. rewrite (DataFacts.visited_unshuffled X Y dataloader perm Hsh).
    reflexivity.
Qed.

Lemma get_embeddings_labels_witness :
  exists E L,
    get_embeddings (fun x : Z => (x, (2 * x)%Z))
                   (Notebook.train_loader [(1, 10); (2, 20)]%Z) [1; 0]
    = Ok (E, L) /\
    Permutation L (map snd (dataset (Notebook.train_loader
                                       [(1, 10); (2, 20)]%Z))) /\
    length L = length (dataset (Notebook.train_loader [(1, 10); (2, 20)]%Z)) /\
    (shuffle (Notebook.train_loader [(1, 10); (2, 20)]%Z) = false ->
     L = map snd (dataset (Notebook.train_loader [(1, 10); (2, 20)]%Z))).
Proof.
  apply (get_embeddings_labels Z Z Z Z (fun x : Z => (x, (2 * x)%Z))
           (Notebook.train_loader [(1, 10); (2, 20)]%Z) [1; 0]).
  - discriminate.
  - apply perm_swap.
Defined.

End ExtractorMore.

(** ** [train_autoencoder]: no epochs, empty datasets, longer runs *)

Module TrainerMore.

Import Data Trainer TrainerFacts.

(** X9.  With an epoch count of zero or less the loop body never runs: the
    call returns the empty loss list and leaves the parameters untouched,
    even on a loader that yields no batch. *)
Theorem train_autoencoder_no_epochs
    (X Y Params : Type) (loss_item : Params -> list X -> float)
    (optimizer_step : Params -> list X -> Params) (randperm : nat -> list nat)
    (theta : Params) (train_loader : DataLoader X Y) (num_epochs : Z) :
  (num_epochs <= 0)%Z ->
  train_autoencoder loss_item optimizer_step randperm theta train_loader
                    num_epochs = Ok (theta, []).
Proof.
  intros Hn. unfold train_autoencoder.
  replace (Z.to_nat num_epochs) with 0 by lia. reflexivity.
Qed.

Lemma train_autoencoder_no_epochs_witness :
  train_autoencoder Example.loss_item Example.optimizer_step Example.randperm
                    0 (Example.loader []) (-3) = Ok (0, []).
Proof.
  apply (train_autoencoder_no_epochs float Z nat Example.loss_item
           Example.optimizer_step Example.randperm 0 (Example.loader []) (-3)).
  discriminate.
Defined.

(** The two loaders of the notebook are what [DataLoader] returns on a
    dataset that is not empty. *)
Lemma construct_notebook_loaders (X Y : Type) (rows : list (X * Y)) :
  rows <> [] ->
  construct rows 256 true = Ok (Notebook.train_loader rows) /\
  construct rows 256 false = Ok (Notebook.test_loader rows).
Proof.
  intros Hne. destruct rows as [|row rows]; [congruence|].
  split; reflexivity.
Qed.

Lemma len_empty (X Y : Type) (ld : DataLoader X Y) :
  dataset ld = [] -> len ld = 0.
Proof.
  intros Hd. unfold len. rewrite Hd. cbn [length].
  destruct (batch_size ld) as [|bs]; [reflexivity|].
  apply Nat.div_small. lia.
Qed.

(** X10.  On an empty dataset no shuffling loader can be built:
    [DataLoader] raises [ValueError], as line 76 of the notebook would.  On a
    loader over an empty dataset that [DataLoader] does build, which shuffles
    nothing and has a positive batch size, training for at least one epoch
    raises [ZeroDivisionError] in the first epoch: no batch is processed and
    the epoch average divides by a loader length of zero. *)
Theorem train_autoencoder_empty_dataset
    (X Y Params : Type) (loss_item : Params -> list X -> float)
    (optimizer_step : Params -> list X -> Params) (randperm : nat -> list nat)
    (theta : Params) (train_loader : DataLoader X Y) (num_epochs : Z) :
  dataset train_loader = [] ->
  buildable train_loader = true ->
  (0 < num_epochs)%Z ->
  shuffle train_loader = false /\
  0 < batch_size train_loader /\
  iter train_loader (randperm 0) = [] /\
  train_autoencoder loss_item optimizer_step randperm theta train_loader
                    num_epochs = Raise ZeroDivisionError /\
  forall batch_size : nat,
    construct (dataset train_loader) batch_size true = Raise ValueError.
Proof.
  intros Hd Hb Hn. unfold buildable in Hb. rewrite Hd in Hb.
  apply andb_prop in Hb. destruct Hb as [Hbs Hsh].
  apply Nat.ltb_lt in Hbs. cbn [length] in Hsh.
  rewrite Nat.ltb_irrefl, orb_false_r in Hsh. apply negb_true_iff in Hsh.
  split; [exact Hsh|]. split; [exact Hbs|]. split; [|split].
  - unfold iter, sampler. rewrite Hsh, Hd. reflexivity.
  - apply train_autoencoder_zero_len; [|exact Hn].
    apply len_empty. exact Hd.
  - intros bs. rewrite Hd. unfold construct, buildable.
    cbn [Data.batch_size Data.shuffle Data.dataset length negb orb].
    rewrite Nat.ltb_irrefl, andb_false_r. reflexivity.
Qed.

Lemma train_autoencoder_empty_dataset_witness :
  shuffle (Notebook.test_loader ([] : list (float * Z))) = false /\
  0 < batch_size (Notebook.test_loader ([] : list (float * Z))) /\
  iter (Notebook.test_loader ([] : list (float * Z))) (Example.randperm 0)
  = [] /\
  train_autoencoder Example.loss_item Example.optimizer_step Example.randperm
                    0 (Notebook.test_loader ([] : list (float * Z)))
                    Notebook.default_num_epochs
  = Raise ZeroDivisionError /\
  forall batch_size : nat,
    construct (dataset (Notebook.test_loader ([] : list (float * Z))))
              batch_size true
    = Raise ValueError.
Proof.
  apply (train_autoencoder_empty_dataset float Z nat Example.loss_item
           Example.optimizer_step Example.randperm 0
           (Notebook.test_loader ([] : list (float * Z)))
           Notebook.default_num_epochs).
  - reflexivity.
  - reflexivity.
  - reflexivity.
Defined.

(** X11.  A longer run extends a shorter one: with the same initial
    parameters, loader and sampler draws, the losses recorded by a run of
    [n] epochs are the first [n] losses recorded by any run of more epochs,
    and the longer run starts its remaining epochs from the parameters the
    shorter run ends with. *)
Theorem train_autoencoder_prefix
    (X Y Params : Type) (loss_item : Params -> list X -> float)
    (optimizer_step : Params -> list X -> Params) (randperm : nat -> list nat)
    (theta : Params) (train_loader : DataLoader X Y) (n n' : Z) :
  len train_loader <> 0 ->
  (0 <= n <= n')%Z ->
  exists theta_n losses_n theta_n' losses_n',
    train_autoencoder loss_item optimizer_step randperm theta train_loader n
    = Ok (theta_n, losses_n) /\
    train_autoencoder loss_item optimizer_step randperm theta train_loader n'
    = Ok (theta_n', losses_n') /\
    losses_n = firstn (Z.to_nat n) losses_n' /\
    train_epochs loss_item optimizer_step randperm train_loader
                 (seq (Z.to_nat n) (Z.to_nat n' - Z.to_nat n)) theta_n losses_n
    = Ok (theta_n', losses_n').
Proof.
  intros Hlen Hn.
  do 4 eexists.
  split; [apply train_autoencoder_run; exact Hlen|].
  split; [apply train_autoencoder_run; exact Hlen|].
  assert (Hsplit : Z.to_nat n' = Z.to_nat n + (Z.to_nat n' - Z.to_nat n))
    by lia.
  remember (Z.to_nat n' - Z.to_nat n) as k eqn:Ek. clear Ek.
  rewrite Hsplit.
  split.
  - rewrite seq_app, map_app, firstn_app, length_map, length_seq.
    rewrite Nat.sub_diag, firstn_O, app_nil_r.
    rewrite firstn_all2 by (rewrite length_map, length_seq; lia).
    reflexivity.
  - rewrite (train_epochs_run X Y Params loss_item optimizer_step randperm
               train_loader theta _ (Z.to_nat n) _ Hlen).
    rewrite <- map_app, <- seq_app. reflexivity.
Qed.

Lemma train_autoencoder_prefix_witness :
  exists theta_n losses_n theta_n' losses_n',
    train_autoencoder Example.loss_item Example.optimizer_step
                      Example.randperm 0 (Example.loader Example.three_rows) 1
    = Ok (theta_n, losses_n) /\
    train_autoencoder Example.loss_item Example.optimizer_step
                      Example.randperm 0 (Example.loader Example.three_rows) 3
    = Ok (theta_n', losses_n') /\
    losses_n = firstn (Z.to_nat 1) losses_n' /\
    train_epochs Example.loss_item Example.optimizer_step Example.randperm
                 (Example.loader Example.three_rows)
                 (seq (Z.to_nat 1) (Z.to_nat 3 - Z.to_nat 1)) theta_n losses_n
    = Ok (theta_n', losses_n').
Proof.
  apply (train_autoencoder_prefix float Z nat Example.loss_item
           Example.optimizer_step Example.randperm 0
           (Example.loader Example.three_rows) 1 3).
  - vm_compute. discriminate.
  - lia.
Defined.

End TrainerMore.

(** ** The network: rows of the wrong width, degenerate hidden widths *)

Module NnMore.

Import Nn NnFacts.
Open Scope R_scope.

Lemma run_encoder_mismatch (i e l : nat) (W : nat -> nat -> nat -> R)
                           (b : nat -> nat -> R) (x : list R) :
  length x <> i -> run (encoder (init i e l W b)) x = Raise RuntimeError.
Proof.
  intros Hx. cbn [init encoder run].
  rewrite (apply_linear_mismatch i e _ _ x Hx). reflexivity.
Qed.

(** X12.  A row whose length is not the model's input dimension is rejected:
    both [forward] and [encode] raise [RuntimeError], in the first linear
    layer, and return nothing. *)
Theorem forward_rejects_wrong_width
    (input_dim encoding_dim latent_dim : nat)
    (W : nat -> nat -> nat -> R) (b : nat -> nat -> R) (x : list R) :
  length x <> input_dim ->
  forward (init input_dim encoding_dim latent_dim W b) x = Raise RuntimeError
  /\ encode (init input_dim encoding_dim latent_dim W b) x
     = Raise RuntimeError.
Proof.
  intros Hx. unfold forward, encode.
  rewrite (run_encoder_mismatch input_dim encoding_dim latent_dim W b x Hx).
  split; reflexivity.
Qed.

Lemma forward_rejects_wrong_width_witness :
  forward (init 2 1 3 zero_weights zero_biases) [1; 0; 1] = Raise RuntimeError
  /\ encode (init 2 1 3 zero_weights zero_biases) [1; 0; 1]
     = Raise RuntimeError.
Proof.
  apply (forward_rejects_wrong_width 2 1 3 zero_weights zero_biases [1; 0; 1]).
  simpl. discriminate.
Defined.

(** X13.  With [encoding_dim] below 2 the second layer has width
    [encoding_dim // 2 = 0]: the latent vector and the reconstruction no
    longer depend on the input row. *)
Theorem forward_constant_when_narrow
    (input_dim encoding_dim latent_dim : nat)
    (W : nat -> nat -> nat -> R) (b : nat -> nat -> R) (x x' : list R) :
  (encoding_dim < 2)%nat ->
  length x = input_dim ->
  length x' = input_dim ->
  forward (init input_dim encoding_dim latent_dim W b) x
  = forward (init input_dim encoding_dim latent_dim W b) x'
  /\ encode (init input_dim encoding_dim latent_dim W b) x
     = Ok (map (fun j => 0 + b 2%nat j) (seq 0 latent_dim)).
Proof.
  intros He Hx Hx'.
  assert (Hhalf : (encoding_dim / 2 = 0)%nat) by (apply Nat.div_small; lia).
  unfold forward, encode.
  rewrite (run_encoder input_dim encoding_dim latent_dim W b x Hx).
  rewrite (run_encoder input_dim encoding_dim latent_dim W b x' Hx').
  rewrite Hhalf. split; reflexivity.
Qed.

Lemma forward_constant_when_narrow_witness :
  forward (init 2 1 3 zero_weights zero_biases) [1; 0]
  = forward (init 2 1 3 zero_weights zero_biases) [0; 1]
  /\ encode (init 2 1 3 zero_weights zero_biases) [1; 0]
     = Ok (map (fun j => 0 + zero_biases 2%nat j) (seq 0 3)).
Proof.
  apply (forward_constant_when_narrow 2 1 3 zero_weights zero_biases
                                      [1; 0] [0; 1]).
  - lia.
  - reflexivity.
  - reflexivity.
Defined.

End NnMore.

(** ** [prepare_data] *)

Module PrepareFacts.

Import Prepare.
Open Scope nat_scope.


Lemma slice_to_incl (A : Type) (n : Z) (l : list A) (x : A) :
  In x (slice_to n l) -> In x l.
Proof.
  assert (Hfirst : forall k, In x (firstn k l) -> In x l).
  { intros k Hin. rewrite <- (firstn_skipn k l). apply in_or_app. left.
    exact Hin. }
  unfold slice_to. destruct (0 <=? n)%Z; apply Hfirst.
Qed.

Lemma np_array_ok (images a : list Image) :
  np_array images = Ok a -> a = images.
Proof.
  unfold np_array. destruct images as [|first rest]; [congruence|].
  destruct (forallb (same_shape first) rest); congruence.
Qed.

Lemma np_array_raises (images : list Image) (e : exn) :
  np_array images = Raise e -> e = ValueError.
Proof.
  unfold np_array. destruct images as [|first rest]; [congruence|].
  destruct (forallb (same_shape first) rest); congruence.
Qed.

Lemma reshape_rows_ok (a : list Image) (rows : list (list Z)) :
  reshape_rows a = Ok rows -> rows = map (@concat Z) a /\ a <> [].
Proof.
  unfold reshape_rows. destruct a as [|img a]; [discriminate|].
  intros [= <-]. split; [reflexivity|discriminate].
Qed.

Lemma reshape_rows_raises (a : list Image) (e : exn) :
  reshape_rows a = Raise e -> e = ValueError.
Proof. unfold reshape_rows. destruct a; congruence. Qed.

(** What a successful call returns. *)
Lemma prepare_data_ok (dataset : Dataset) (num_samples test_samples : Z)
                      (p : Prepared) :
  prepare_data dataset num_samples test_samples = Ok p ->
  slice_to num_samples (image (train dataset)) <> [] /\
  slice_to test_samples (image (test dataset)) <> [] /\
  train_images p
  = normalize (map (@concat Z) (slice_to num_samples (image (train dataset))))
  /\
  test_images p
  = normalize (map (@concat Z) (slice_to test_samples (image (test dataset))))
  /\
  train_labels p = slice_to num_samples (label (train dataset)) /\
  test_labels p = slice_to test_samples (label (test dataset)).
Proof.
  unfold prepare_data. intros H.
  apply bind_ok_inv in H. destruct H as (a1 & Ha1 & H).
  apply bind_ok_inv in H. destruct H as (a2 & Ha2 & H).
  apply bind_ok_inv in H. destruct H as (r1 & Hr1 & H).
  apply bind_ok_inv in H. destruct H as (r2 & Hr2 & H).
  apply np_array_ok in Ha1. apply np_array_ok in Ha2. subst a1 a2.
  apply reshape_rows_ok in Hr1. apply reshape_rows_ok in Hr2.
  destruct Hr1 as [-> Hne1]. destruct Hr2 as [-> Hne2].
  inversion H; subst p. simpl. auto 10.
Qed.


Lemma length_concat_uniform (w : nat) (img : Image) :
  Forall (fun row => length row = w) img ->
  length (concat img) = length img * w.
Proof.
  induction 1 as [|row img Hrow _ IH]; simpl; [reflexivity|].
  rewrite length_app, IH, Hrow. reflexivity.
Qed.

Lemma normalized_pixel (p : Z) :
  (0 <= p <= 255)%Z -> (0 <= IZR p / 255 <= 1)%R.
Proof.
  intros [H0 H255]. apply IZR_le in H0. apply IZR_le in H255.
  split.
  - apply Rmult_le_pos; [exact H0|]. lra.
  - apply (Rmult_le_reg_r 255); [lra|].
    unfold Rdiv. rewrite Rmult_assoc, Rinv_l by lra. lra.
Qed.

Lemma normalized_image (h w : nat) (img : Image) :
  well_formed h w img ->
  length (map (fun p => (IZR p / 255)%R) (concat img)) = h * w /\
  Forall Nn.in_unit_interval (map (fun p => (IZR p / 255)%R) (concat img)).
Proof.
  intros [Hh Hrows]. split.
  - rewrite length_map, <- Hh. apply length_concat_uniform.
    apply (Forall_impl _ (fun row H => proj1 H) Hrows).
  - apply Forall_map. apply Forall_concat.
    apply (Forall_impl _ (fun row H =>
             Forall_impl _ normalized_pixel (proj2 H)) Hrows).
Qed.

End PrepareFacts.

Module PrepareCorrect.

Import Prepare PrepareFacts.
Open Scope nat_scope.



(** X15.  When [prepare_data] returns and the images of a split are [h] by
    [w] arrays of 8-bit intensities, every row of that split's feature
    matrix has [h * w] components and every component lies in [0, 1]. *)
Theorem prepare_data_normalizes
    (dataset : Dataset) (num_samples test_samples : Z) (p : Prepared)
    (h w h' w' : nat) :
  prepare_data dataset num_samples test_samples = Ok p ->
  Forall (well_formed h w) (image (train dataset)) ->
  Forall (well_formed h' w') (image (test dataset)) ->
  Forall (fun row => length row = h * w /\ Forall Nn.in_unit_interval row)
         (train_images p) /\
  Forall (fun row => length row = h' * w' /\ Forall Nn.in_unit_interval row)
         (test_images p).
Proof.
  intros Hp Htrain Htest.
  destruct (prepare_data_ok _ _ _ _ Hp) as (_ & _ & Hx1 & Hx2 & _ & _).
  rewrite Hx1, Hx2. unfold normalize.
  split; apply Forall_map; apply Forall_map; apply Forall_forall;
    intros img Himg; apply slice_to_incl in Himg; apply normalized_image.
  - rewrite Forall_forall in Htrain. auto.
  - rewrite Forall_forall in Htest. auto.
Qed.

Lemma tiny_well_formed :
  Forall (well_formed 2 2) (image (train tiny)) /\
  Forall (well_formed 2 2) (image (test tiny)).
Proof.
  split; repeat constructor; lia.
Qed.

Lemma prepare_data_normalizes_witness :
  Forall (fun row => length row = 2 * 2 /\ Forall Nn.in_unit_interval row)
         (train_images tiny_prepared) /\
  Forall (fun row => length row = 2 * 2 /\ Forall Nn.in_unit_interval row)
         (test_images tiny_prepared).
Proof.
  apply (prepare_data_normalizes tiny 2 1 tiny_prepared 2 2 2 2).
  - reflexivity.
  - apply tiny_well_formed.
  - apply tiny_well_formed.
Defined.

(** X16.  A split that is empty after slicing makes [prepare_data] raise
    [ValueError] instead of returning an empty feature matrix: a cap of zero,
    or a dataset split without images, cannot be prepared. *)
Theorem prepare_data_empty_split
    (dataset : Dataset) (num_samples test_samples : Z) :
  slice_to num_samples (image (train dataset)) = []
  \/ slice_to test_samples (image (test dataset)) = [] ->
  prepare_data dataset num_samples test_samples = Raise ValueError.
Proof.
  intros Hempty. unfold prepare_data.
  destruct (np_array (slice_to num_samples (image (train dataset))))
    as [a1|e1] eqn:E1;
    [apply np_array_ok in E1; subst a1
    |apply np_array_raises in E1; subst e1; reflexivity].
  cbn [Py.bind].
  destruct (np_array (slice_to test_samples (image (test dataset))))
    as [a2|e2] eqn:E2;
    [apply np_array_ok in E2; subst a2
    |apply np_array_raises in E2; subst e2; reflexivity].
  cbn [Py.bind].
  destruct (slice_to num_samples (image (train dataset))) as [|i1 s1];
    [reflexivity|].
  cbn [reshape_rows Py.bind].
  destruct (slice_to test_samples (image (test dataset))) as [|i2 s2];
    [reflexivity|].
  destruct Hempty; discriminate.
Qed.

Lemma prepare_data_empty_split_witness :
  prepare_data tiny 0 default_test_samples = Raise ValueError.
Proof.
  apply (prepare_data_empty_split tiny 0 default_test_samples).
  left. reflexivity.
Defined.

End PrepareCorrect.

(** ** From [prepare_data] to the model *)

Module Pipeline.

Import Prepare PrepareFacts Nn NnFacts.
Open Scope nat_scope.


Lemma train_width (dataset : Dataset) (num_samples test_samples : Z)
                  (p : Prepared) (h w : nat) :
  prepare_data dataset num_samples test_samples = Ok p ->
  Forall (well_formed h w) (image (train dataset)) ->
  shape1 (train_images p) = h * w.
Proof.
  intros Hp Htrain.
  destruct (prepare_data_ok _ _ _ _ Hp) as (Hne & _ & Hx & _).
  rewrite Hx.
  destruct (slice_to num_samples (image (train dataset))) as [|img imgs] eqn:E;
    [congruence|].
  assert (Hin : In img (image (train dataset)))
    by (apply (slice_to_incl _ num_samples); rewrite E; left; reflexivity).
  rewrite Forall_forall in Htrain.
  cbn [map normalize shape1].
  apply (normalized_image h w img (Htrain img Hin)).
Qed.



(** X18.  Nothing checks that the two splits have the same feature width:
    [prepare_data] returns even when the test images have another size than
    the train images, and the mismatch only surfaces later, when the model
    built for the train width raises [RuntimeError] on every test row. *)
Theorem prepared_test_rows_of_other_width_rejected
    (dataset : Dataset) (num_samples test_samples : Z) (p : Prepared)
    (h w h' w' : nat) (W : nat -> nat -> nat -> R) (b : nat -> nat -> R) :
  prepare_data dataset num_samples test_samples = Ok p ->
  Forall (well_formed h w) (image (train dataset)) ->
  Forall (well_formed h' w') (image (test dataset)) ->
  h' * w' <> h * w ->
  test_images p <> [] /\
  forall x, In x (test_images p) ->
    forward (Notebook.model (shape1 (train_images p)) W b) x
    = Raise RuntimeError.
Proof.
  intros Hp Htrain Htest Hne.
  pose proof (train_width _ _ _ _ h w Hp Htrain) as Hw.
  destruct (prepare_data_ok _ _ _ _ Hp) as (_ & Hne2 & _ & Hx2 & _).
  split.
  - rewrite Hx2. unfold normalize.
    destruct (slice_to test_samples (image (test dataset)));
      [congruence|discriminate].
  - rewrite Hw. intros x Hx.
    assert (Hlen : length x = h' * w').
    { rewrite Hx2 in Hx. unfold normalize in Hx.
      apply in_map_iff in Hx. destruct Hx as (row & <- & Hrow).
      apply in_map_iff in Hrow. destruct Hrow as (img & <- & Himg).
      apply slice_to_incl in Himg. rewrite Forall_forall in Htest.
      apply (normalized_image h' w' img (Htest img Himg)). }
    unfold forward, Notebook.model.
    rewrite NnMore.run_encoder_mismatch by congruence. reflexivity.
Qed.

Lemma prepared_test_rows_of_other_width_rejected_witness :
  test_images tiny_mismatched_prepared <> [] /\
  forall x, In x (test_images tiny_mismatched_prepared) ->
    forward (Notebook.model (shape1 (train_images tiny_mismatched_prepared))
                            zero_weights zero_biases) x
    = Raise RuntimeError.
Proof.
  apply (prepared_test_rows_of_other_width_rejected
           tiny_mismatched 2 1 tiny_mismatched_prepared 2 2 1 3
           zero_weights zero_biases).
  - reflexivity.
  - apply PrepareCorrect.tiny_well_formed.
  - repeat constructor; lia.
  - discriminate.
Defined.

End Pipeline.

(** ** [evaluate_clustering]: what a returned result holds *)

Module EvaluatorMore.

Import Evaluator.
Open Scope Z_scope.

Section Facts.

Variables V Score : Type.
Variable KMeans_fit_predict : Z -> list V -> result (list Z).
Variable DBSCAN_fit_predict : list V -> result (list Z).
Variables silhouette_score davies_bouldin_score calinski_harabasz_score
  : list V -> list Z -> result Score.

Local Abbreviation evaluate :=
  (evaluate_clustering KMeans_fit_predict DBSCAN_fit_predict silhouette_score
                       davies_bouldin_score calinski_harabasz_score).
Local Abbreviation metrics :=
  (metrics_of silhouette_score davies_bouldin_score calinski_harabasz_score).

Lemma metrics_of_scores (embeddings : list V) (labels : list Z)
                         (m : Metrics Score) :
  metrics embeddings labels = Ok m ->
  exists s d c,
    silhouette_score embeddings labels = Ok s /\
    davies_bouldin_score embeddings labels = Ok d /\
    calinski_harabasz_score embeddings labels = Ok c /\
    m = [("silhouette"%string, s); ("davies_bouldin"%string, d);
         ("calinski_harabasz"%string, c)].
Proof.
  unfold metrics_of. intros H.
  apply bind_ok_inv in H. destruct H as (s & Hs & H).
  apply bind_ok_inv in H. destruct H as (d & Hd & H).
  apply bind_ok_inv in H. destruct H as (c & Hc & H).
  inversion H. exists s, d, c. repeat split; assumption.
Qed.

Lemma evaluate_ok_inv (embeddings : list V) (true_labels : list Z)
                      (n_clusters : Z) (r : Results Score) :
  evaluate embeddings true_labels n_clusters = Ok r ->
  KMeans_fit_predict n_clusters embeddings = Ok (kmeans_labels r) /\
  DBSCAN_fit_predict embeddings = Ok (dbscan_labels r) /\
  metrics embeddings (kmeans_labels r) = Ok (kmeans_metrics r) /\
  (if Nat.ltb 1 (length (Np.unique (dbscan_labels r)))
   then metrics embeddings (dbscan_labels r) = Ok (dbscan_metrics r)
   else dbscan_metrics r = []) /\
  Mapping.calculate_mapping (kmeans_labels r) true_labels
  = Ok (kmeans_mapping r).
Proof.
  unfold evaluate_clustering. intros H.
  apply bind_ok_inv in H. destruct H as (kl & Hk & H).
  apply bind_ok_inv in H. destruct H as (dl & Hd & H).
  apply bind_ok_inv in H. destruct H as (km & Hkm & H).
  apply bind_ok_inv in H. destruct H as (dm & Hdm & H).
  apply bind_ok_inv in H. destruct H as (mp & Hmp & H).
  inversion H; subst r. cbn [kmeans_labels dbscan_labels kmeans_metrics
                             dbscan_metrics kmeans_mapping].
  repeat split; try assumption.
  destruct (Nat.ltb 1 (length (Np.unique dl))); [exact Hdm|].
  inversion Hdm. reflexivity.
Qed.

End Facts.

(** X19.  The true labels only feed the cluster-to-label mapping: two
    evaluations of the same embeddings that return, with whatever true
    labels, carry the same two assignments and the same two metrics
    dictionaries. *)
Theorem evaluate_clustering_ignores_true_labels
    (V Score : Type)
    (KMeans_fit_predict : Z -> list V -> result (list Z))
    (DBSCAN_fit_predict : list V -> result (list Z))
    (silhouette_score davies_bouldin_score calinski_harabasz_score
       : list V -> list Z -> result Score)
    (embeddings : list V) (true_labels true_labels' : list Z)
    (n_clusters : Z) (r r' : Results Score) :
  evaluate_clustering KMeans_fit_predict DBSCAN_fit_predict silhouette_score
                      davies_bouldin_score calinski_harabasz_score
                      embeddings true_labels n_clusters = Ok r ->
  evaluate_clustering KMeans_fit_predict DBSCAN_fit_predict silhouette_score
                      davies_bouldin_score calinski_harabasz_score
                      embeddings true_labels' n_clusters = Ok r' ->
  kmeans_labels r = kmeans_labels r' /\
  kmeans_metrics r = kmeans_metrics r' /\
  dbscan_labels r = dbscan_labels r' /\
  dbscan_metrics r = dbscan_metrics r'.
Proof.
  intros Hr Hr'.
  apply evaluate_ok_inv in Hr. apply evaluate_ok_inv in Hr'.
  destruct Hr as (Hk & Hd & Hkm & Hdm & _).
  destruct Hr' as (Hk' & Hd' & Hkm' & Hdm' & _).
  assert (Ekl : kmeans_labels r = kmeans_labels r') by congruence.
  assert (Edl : dbscan_labels r = dbscan_labels r') by congruence.
  rewrite <- Ekl in Hkm'. rewrite <- Edl in Hdm'.
  repeat split; try congruence.
  destruct (Nat.ltb 1 (length (Np.unique (dbscan_labels r)))); congruence.
Qed.

Lemma evaluate_clustering_ignores_true_labels_witness :
  kmeans_labels
    {| kmeans_labels := [0; 0; 1];
       kmeans_metrics := [("silhouette"%string, tt);
                          ("davies_bouldin"%string, tt);
                          ("calinski_harabasz"%string, tt)];
       kmeans_mapping := [(0, 4); (1, 7)];
       dbscan_labels := [-1; -1; -1]; dbscan_metrics := [] |}
  = kmeans_labels
      {| kmeans_labels := [0; 0; 1];
         kmeans_metrics := [("silhouette"%string, tt);
                            ("davies_bouldin"%string, tt);
                            ("calinski_harabasz"%string, tt)];
         kmeans_mapping := [(0, 2); (1, 2)];
         dbscan_labels := [-1; -1; -1]; dbscan_metrics := [] |} /\
  kmeans_metrics
    {| kmeans_labels := [0; 0; 1];
       kmeans_metrics := [("silhouette"%string, tt);
                          ("davies_bouldin"%string, tt);
                          ("calinski_harabasz"%string, tt)];
       kmeans_mapping := [(0, 4); (1, 7)];
       dbscan_labels := [-1; -1; -1]; dbscan_metrics := [] |}
  = kmeans_metrics
      {| kmeans_labels := [0; 0; 1];
         kmeans_metrics := [("silhouette"%string, tt);
                            ("davies_bouldin"%string, tt);
                            ("calinski_harabasz"%string, tt)];
         kmeans_mapping := [(0, 2); (1, 2)];
         dbscan_labels := [-1; -1; -1]; dbscan_metrics := [] |} /\
  dbscan_labels
    {| kmeans_labels := [0; 0; 1];
       kmeans_metrics := [("silhouette"%string, tt);
                          ("davies_bouldin"%string, tt);
                          ("calinski_harabasz"%string, tt)];
       kmeans_mapping := [(0, 4); (1, 7)];
       dbscan_labels := [-1; -1; -1]; dbscan_metrics := [] |}
  = dbscan_labels
      {| kmeans_labels := [0; 0; 1];
         kmeans_metrics := [("silhouette"%string, tt);
                            ("davies_bouldin"%string, tt);
                            ("calinski_harabasz"%string, tt)];
         kmeans_mapping := [(0, 2); (1, 2)];
         dbscan_labels := [-1; -1; -1]; dbscan_metrics := [] |} /\
  dbscan_metrics
    {| kmeans_labels := [0; 0; 1];
       kmeans_metrics := [("silhouette"%string, tt);
                          ("davies_bouldin"%string, tt);
                          ("calinski_harabasz"%string, tt)];
       kmeans_mapping := [(0, 4); (1, 7)];
       dbscan_labels := [-1; -1; -1]; dbscan_metrics := [] |}
  = dbscan_metrics
      {| kmeans_labels := [0; 0; 1];
         kmeans_metrics := [("silhouette"%string, tt);
                            ("davies_bouldin"%string, tt);
                            ("calinski_harabasz"%string, tt)];
         kmeans_mapping := [(0, 2); (1, 2)];
         dbscan_labels := [-1; -1; -1]; dbscan_metrics := [] |}.
Proof.
  apply (evaluate_clustering_ignores_true_labels
           Z unit kmeans_two_clusters dbscan_all_noise
           (checked_scorer tt) (checked_scorer tt) (checked_scorer tt)
           [1; 2; 9] [4; 4; 7] [2; 2; 2] 2);
    reflexivity.
Defined.

(** X20.  In every result [evaluate_clustering] returns, the mapping has no
    key outside the centroid-based assignment and no key twice, every true
    label paired with a row is non-negative (a negative one makes the
    evaluation raise), and when there are at least as many true labels as
    rows every identifier of the assignment is a key. *)
Theorem evaluate_clustering_mapping_consistent
    (V Score : Type)
    (KMeans_fit_predict : Z -> list V -> result (list Z))
    (DBSCAN_fit_predict : list V -> result (list Z))
    (silhouette_score davies_bouldin_score calinski_harabasz_score
       : list V -> list Z -> result Score)
    (embeddings : list V) (true_labels : list Z) (n_clusters : Z)
    (r : Results Score) :
  evaluate_clustering KMeans_fit_predict DBSCAN_fit_predict silhouette_score
                      davies_bouldin_score calinski_harabasz_score
                      embeddings true_labels n_clusters = Ok r ->
  (forall c, In c (Dict.keys (kmeans_mapping r)) -> In c (kmeans_labels r)) /\
  NoDup (Dict.keys (kmeans_mapping r)) /\
  Forall (fun l => 0 <= l)
         (map snd (Vote.zipped (kmeans_labels r) true_labels)) /\
  ((length (kmeans_labels r) <= length true_labels)%nat ->
   forall c, In c (kmeans_labels r) -> In c (Dict.keys (kmeans_mapping r))).
Proof.
  intros Hr. apply evaluate_ok_inv in Hr.
  destruct Hr as (_ & _ & _ & _ & Hmp).
  split; [|split; [|split]].
  - intros c Hc. apply (MappingOrder.keys_zipped _ _ _ c Hmp) in Hc.
    apply in_map_iff in Hc. destruct Hc as ([c' l] & <- & Hin).
    apply in_combine_l in Hin. exact Hin.
  - apply (MappingOrder.keys_nodup _ _ _ Hmp).
  - apply (MappingMore.nonneg_of_returns _ _ _ Hmp).
  - intros Hlen c Hc. apply (MappingOrder.keys_zipped _ _ _ c Hmp).
    unfold Vote.zipped. rewrite combine_firstn_l.
    rewrite MappingFacts.map_fst_combine; [exact Hc|].
    rewrite length_firstn. lia.
Qed.

Lemma evaluate_clustering_mapping_consistent_witness :
  (forall c, In c (Dict.keys [(0, 4); (1, 7)]) -> In c [0; 0; 1]) /\
  NoDup (Dict.keys [(0, 4); (1, 7)]) /\
  Forall (fun l => 0 <= l) (map snd (Vote.zipped [0; 0; 1] [4; 4; 7])) /\
  ((length [0; 0; 1] <= length [4; 4; 7])%nat ->
   forall c, In c [0; 0; 1] -> In c (Dict.keys [(0, 4); (1, 7)])).
Proof.
  apply (evaluate_clustering_mapping_consistent
           Z unit kmeans_two_clusters dbscan_all_noise
           (checked_scorer tt) (checked_scorer tt) (checked_scorer tt)
           [1; 2; 9] [4; 4; 7] 2
           {| kmeans_labels := [0; 0; 1];
              kmeans_metrics := [("silhouette"%string, tt);
                                 ("davies_bouldin"%string, tt);
                                 ("calinski_harabasz"%string, tt)];
              kmeans_mapping := [(0, 4); (1, 7)];
              dbscan_labels := [-1; -1; -1]; dbscan_metrics := [] |}).
  reflexivity.
Defined.

End EvaluatorMore.

(** ** [print_metrics] on a result of [evaluate_clustering] *)

Module ReportCorrect.

Import Evaluator Report.
Open Scope string_scope.

(** X21.  On a result returned by [evaluate_clustering], [print_metrics]
    prints the header, the line [K-Means:] and one line per centroid-based
    metric, named [Silhouette], [Davies Bouldin] and [Calinski Harabasz],
    each showing the value its scorer returned on the centroid-based
    assignment; then, exactly when the density-based assignment holds fewer
    than two distinct identifiers, the single line
    [DBSCAN: Only one cluster found], and otherwise the line [DBSCAN:]
    followed by the three metric lines showing the values the scorers
    returned on the density-based assignment. *)
Theorem print_metrics_report
    (V Score : Type)
    (KMeans_fit_predict : Z -> list V -> result (list Z))
    (DBSCAN_fit_predict : list V -> result (list Z))
    (silhouette_score davies_bouldin_score calinski_harabasz_score
       : list V -> list Z -> result Score)
    (format_4f : Score -> string)
    (embeddings : list V) (true_labels : list Z) (n_clusters : Z)
    (r : Results Score) (set_name : string) :
  evaluate_clustering KMeans_fit_predict DBSCAN_fit_predict silhouette_score
                      davies_bouldin_score calinski_harabasz_score
                      embeddings true_labels n_clusters = Ok r ->
  exists s d c rest,
    silhouette_score embeddings (kmeans_labels r) = Ok s /\
    davies_bouldin_score embeddings (kmeans_labels r) = Ok d /\
    calinski_harabasz_score embeddings (kmeans_labels r) = Ok c /\
    print_metrics format_4f r set_name
    = List.app [newline ++ set_name ++ " Set Metrics:"; "K-Means:";
                "Silhouette: " ++ format_4f s;
                "Davies Bouldin: " ++ format_4f d;
                "Calinski Harabasz: " ++ format_4f c] rest /\
    (~ two_distinct (dbscan_labels r) ->
     rest = [newline ++ "DBSCAN: Only one cluster found"]) /\
    (two_distinct (dbscan_labels r) ->
     exists s' d' c',
       silhouette_score embeddings (dbscan_labels r) = Ok s' /\
       davies_bouldin_score embeddings (dbscan_labels r) = Ok d' /\
       calinski_harabasz_score embeddings (dbscan_labels r) = Ok c' /\
       rest = [newline ++ "DBSCAN:";
               "Silhouette: " ++ format_4f s';
               "Davies Bouldin: " ++ format_4f d';
               "Calinski Harabasz: " ++ format_4f c']).
Proof.
  intros Hr. apply EvaluatorMore.evaluate_ok_inv in Hr.
  destruct Hr as (_ & _ & Hkm & Hdm & _).
  apply EvaluatorMore.metrics_of_scores in Hkm.
  destruct Hkm as (s & d & c & Hs & Hd & Hc & Hkm).
  exists s, d, c.
  unfold print_metrics. rewrite Hkm.
  destruct (Nat.ltb 1 (length (Np.unique (dbscan_labels r)))) eqn:Eg.
  - apply EvaluatorMore.metrics_of_scores in Hdm.
    destruct Hdm as (s' & d' & c' & Hs' & Hd' & Hc' & Hdm). rewrite Hdm.
    eexists. split; [exact Hs|]. split; [exact Hd|]. split; [exact Hc|].
    split; [reflexivity|]. split.
    + intros Hdeg. apply EvaluatorCorrect.guard_degenerate in Hdeg.
      congruence.
    + intros _. exists s', d', c'. repeat split; assumption.
  - rewrite Hdm. eexists.
    split; [exact Hs|]. split; [exact Hd|]. split; [exact Hc|].
    split; [reflexivity|]. split.
    + intros _. reflexivity.
    + intros Htwo. apply EvaluatorCorrect.guard_two_distinct in Htwo.
      congruence.
Qed.

Lemma print_metrics_report_witness :
  exists s d c rest,
    checked_scorer "0.7071" [1; 2; 9]%Z
      (kmeans_labels
         {| kmeans_labels := [0; 0; 1]%Z;
            kmeans_metrics := [("silhouette", "0.7071");
                               ("davies_bouldin", "0.1250");
                               ("calinski_harabasz", "98.0000")];
            kmeans_mapping := [(0, 4); (1, 7)]%Z;
            dbscan_labels := [-1; -1; -1]%Z; dbscan_metrics := [] |})
    = Ok s /\
    checked_scorer "0.1250" [1; 2; 9]%Z
      (kmeans_labels
         {| kmeans_labels := [0; 0; 1]%Z;
            kmeans_metrics := [("silhouette", "0.7071");
                               ("davies_bouldin", "0.1250");
                               ("calinski_harabasz", "98.0000")];
            kmeans_mapping := [(0, 4); (1, 7)]%Z;
            dbscan_labels := [-1; -1; -1]%Z; dbscan_metrics := [] |})
    = Ok d /\
    checked_scorer "98.0000" [1; 2; 9]%Z
      (kmeans_labels
         {| kmeans_labels := [0; 0; 1]%Z;
            kmeans_metrics := [("silhouette", "0.7071");
                               ("davies_bouldin", "0.1250");
                               ("calinski_harabasz", "98.0000")];
            kmeans_mapping := [(0, 4); (1, 7)]%Z;
            dbscan_labels := [-1; -1; -1]%Z; dbscan_metrics := [] |})
    = Ok c /\
    print_metrics (fun score : string => score)
      {| kmeans_labels := [0; 0; 1]%Z;
         kmeans_metrics := [("silhouette", "0.7071");
                            ("davies_bouldin", "0.1250");
                            ("calinski_harabasz", "98.0000")];
         kmeans_mapping := [(0, 4); (1, 7)]%Z;
         dbscan_labels := [-1; -1; -1]%Z; dbscan_metrics := [] |} "Train"
    = List.app [newline ++ "Train" ++ " Set Metrics:"; "K-Means:";
                "Silhouette: " ++ (fun score : string => score) s;
                "Davies Bouldin: " ++ (fun score : string => score) d;
                "Calinski Harabasz: " ++ (fun score : string => score) c]
               rest /\
    (~ two_distinct
         (dbscan_labels
            {| kmeans_labels := [0; 0; 1]%Z;
               kmeans_metrics := [("silhouette", "0.7071");
                                  ("davies_bouldin", "0.1250");
                                  ("calinski_harabasz", "98.0000")];
               kmeans_mapping := [(0, 4); (1, 7)]%Z;
               dbscan_labels := [-1; -1; -1]%Z; dbscan_metrics := [] |}) ->
     rest = [newline ++ "DBSCAN: Only one cluster found"]) /\
    (two_distinct
       (dbscan_labels
          {| kmeans_labels := [0; 0; 1]%Z;
             kmeans_metrics := [("silhouette", "0.7071");
                                ("davies_bouldin", "0.1250");
                                ("calinski_harabasz", "98.0000")];
             kmeans_mapping := [(0, 4); (1, 7)]%Z;
             dbscan_labels := [-1; -1; -1]%Z; dbscan_metrics := [] |}) ->
     exists s' d' c',
       checked_scorer "0.7071" [1; 2; 9]%Z
         (dbscan_labels
            {| kmeans_labels := [0; 0; 1]%Z;
               kmeans_metrics := [("silhouette", "0.7071");
                                  ("davies_bouldin", "0.1250");
                                  ("calinski_harabasz", "98.0000")];
               kmeans_mapping := [(0, 4); (1, 7)]%Z;
               dbscan_labels := [-1; -1; -1]%Z; dbscan_metrics := [] |})
       = Ok s' /\
       checked_scorer "0.1250" [1; 2; 9]%Z
         (dbscan_labels
            {| kmeans_labels := [0; 0; 1]%Z;
               kmeans_metrics := [("silhouette", "0.7071");
                                  ("davies_bouldin", "0.1250");
                                  ("calinski_harabasz", "98.0000")];
               kmeans_mapping := [(0, 4); (1, 7)]%Z;
               dbscan_labels := [-1; -1; -1]%Z; dbscan_metrics := [] |})
       = Ok d' /\
       checked_scorer "98.0000" [1; 2; 9]%Z
         (dbscan_labels
            {| kmeans_labels := [0; 0; 1]%Z;
               kmeans_metrics := [("silhouette", "0.7071");
                                  ("davies_bouldin", "0.1250");
                                  ("calinski_harabasz", "98.0000")];
               kmeans_mapping := [(0, 4); (1, 7)]%Z;
               dbscan_labels := [-1; -1; -1]%Z; dbscan_metrics := [] |})
       = Ok c' /\
       rest = [newline ++ "DBSCAN:";
               "Silhouette: " ++ (fun score : string => score) s';
               "Davies Bouldin: " ++ (fun score : string => score) d';
               "Calinski Harabasz: " ++ (fun score : string => score) c']).
Proof.
  apply (print_metrics_report
           Z string kmeans_two_clusters dbscan_all_noise
           (checked_scorer "0.7071") (checked_scorer "0.1250")
           (checked_scorer "98.0000")
           (fun score : string => score) [1; 2; 9]%Z [4; 4; 7]%Z 2%Z).
  reflexivity.
Defined.

End ReportCorrect.
